(** * The Erold CLI API client (src/lib/api.js), embedded and verified

    The file follows the layout of the JavaScript module:

    - [Js]: the fragment of JavaScript values and built-ins that api.js
      relies on (truthiness, [String(v)], optional chaining, object spread,
      [Object.entries], [JSON.stringify], [URLSearchParams]);
    - [Config]: src/lib/config.js, the configuration store that supplies
      the API key, base URL and tenant;
    - [Api]: src/lib/api.js itself: [ApiError], [request] with its retry
      loop and abort timer, the four verbs and the resource facades;
    - [ApiNotions], [Samples]: the vocabulary of the statements and the
      configurations, responses and networks of the examples;
    - the properties, one group per part of the client.

    Asynchrony is made explicit.  The network is a script telling, for the
    n-th call of [fetch], after how many milliseconds and how its promise
    settles (or that it never does); [request] returns the outcome of its
    promise together with the trace of the [fetch] calls it issued and the
    back-off delays it slept. *)

From Stdlib Require Import ZArith List String Ascii Bool Lia DecimalString.
From Stdlib Require Import Permutation Sorted.
Import ListNotations.

Set Warnings "-register-all".

Local Open Scope string_scope.
Local Open Scope Z_scope.

(* ================================================================== *)
(** ** JavaScript values and built-ins *)
(* ================================================================== *)

Module Js.

(** Values.  Numbers are the safe integers, those [Number.isSafeInteger]
    accepts (a JSON body or a query parameter such as [limit: 10]):
    [VNum n] stands for a Number only when [Number_isSafeInteger n] holds,
    and these are the numbers [String] and [JSON.stringify] print digit by
    digit; fractions, [NaN], the infinities and the integers beyond 2^53
    have no counterpart here.  [VBigInt] is kept because it is the simplest
    value [JSON.stringify] refuses.  The fields of an object come in the
    order in which its own properties are enumerated ([Object.entries],
    spread, [JSON.stringify]): array indices first, in ascending order,
    then the other keys in the order of their creation; [set_prop] and
    [object_literal] build objects in that order.  Strings are sequences
    of bytes (UTF-8). *)
Inductive Value : Type :=
| VUndefined
| VNull
| VBool (b : bool)
| VNum (n : Z)
| VBigInt (n : Z)
| VStr (s : string)
| VArr (xs : list Value)
| VObj (fields : list (string * Value)).

(** A thrown object that is not an [ApiError]: the [TypeError] of a failed
    [fetch], the [SyntaxError] of [response.json()], the [AbortError] of an
    aborted signal.  Only the properties api.js reads are kept. *)
Record JsError : Type := mkJsError {
  err_name : string;
  err_message : string;
  err_statusCode : option Z   (* [None]: the property is undefined *)
}.

Inductive Result (E A : Type) : Type :=
| Ok (a : A)
| Throw (e : E).
Arguments Ok {E A} a.
Arguments Throw {E A} e.

Definition TypeError (msg : string) : JsError := mkJsError "TypeError" msg None.

(** *** Truthiness and equality tests *)

Definition truthy (v : Value) : bool :=
  match v with
  | VUndefined | VNull => false
  | VBool b => b
  | VNum n | VBigInt n => negb (n =? 0)
  | VStr s => negb (s =? "")%string
  | VArr _ | VObj _ => true
  end.

(** [a || b] *)
Definition or_else (a b : Value) : Value := if truthy a then a else b.

Definition is_undefined (v : Value) : bool :=
  match v with VUndefined => true | _ => false end.

Definition is_null (v : Value) : bool :=
  match v with VNull => true | _ => false end.

Definition is_empty_string (v : Value) : bool :=
  match v with VStr s => (s =? "")%string | _ => false end.

(** Truthiness of a string that may be absent ([undefined] or [null]). *)
Definition truthy_str (o : option string) : bool :=
  match o with
  | Some s => negb (s =? "")%string
  | None => false
  end.

(** [Number.isSafeInteger(n)] *)
Definition MAX_SAFE_INTEGER : Z := 9007199254740991.

Definition Number_isSafeInteger (n : Z) : bool := Z.abs n <=? MAX_SAFE_INTEGER.

(** *** Objects as ordered property lists *)

Fixpoint lookup {A : Type} (fields : list (string * A)) (k : string) : option A :=
  match fields with
  | [] => None
  | (k', v) :: rest => if (k' =? k)%string then Some v else lookup rest k
  end.

Definition is_digit (a : ascii) : bool :=
  let n := N_of_ascii a in ((48 <=? n) && (n <=? 57))%N.

Fixpoint digits_value (acc : N) (s : string) : option N :=
  match s with
  | EmptyString => Some acc
  | String a s' =>
      if is_digit a then digits_value (10 * acc + (N_of_ascii a - 48))%N s' else None
  end.

(** The array index a property key stands for, if any: the key is the
    decimal form, without sign or leading zero, of an integer from 0 to
    2^32 - 2. *)
Definition array_index (k : string) : option N :=
  match k with
  | EmptyString => None
  | String a rest =>
      if (N_of_ascii a =? 48)%N && negb (rest =? "")%string then None
      else match digits_value 0 k with
           | Some n => if (n <=? 4294967294)%N then Some n else None
           | None => None
           end
  end.

(** The enumeration of own properties puts a new key [k] before the key
    [k']: array indices come in ascending order and before all other
    keys, which stay in the order of their creation. *)
Definition enumerated_before (k k' : string) : bool :=
  match array_index k, array_index k' with
  | Some i, Some j => (i <? j)%N
  | Some _, None => true
  | None, _ => false
  end.

Fixpoint has_key {A : Type} (fields : list (string * A)) (k : string) : bool :=
  match fields with
  | [] => false
  | (k', _) :: rest => (k' =? k)%string || has_key rest k
  end.

(** A new value for an existing property, which keeps its place. *)
Fixpoint assign_prop {A : Type} (fields : list (string * A)) (k : string) (v : A)
  : list (string * A) :=
  match fields with
  | [] => []
  | (k', v') :: rest =>
      if (k' =? k)%string then (k, v) :: rest else (k', v') :: assign_prop rest k v
  end.

(** A new property, at the place where the enumeration will find it. *)
Fixpoint define_prop {A : Type} (fields : list (string * A)) (k : string) (v : A)
  : list (string * A) :=
  match fields with
  | [] => [(k, v)]
  | (k', v') :: rest =>
      if enumerated_before k k' then (k, v) :: fields
      else (k', v') :: define_prop rest k v
  end.

(** [obj[k] = v] *)
Definition set_prop {A : Type} (fields : list (string * A)) (k : string) (v : A)
  : list (string * A) :=
  if has_key fields k then assign_prop fields k v else define_prop fields k v.

(** [{ ...base, ...extra }] *)
Definition spread {A : Type} (base extra : list (string * A)) : list (string * A) :=
  fold_left (fun acc kv => set_prop acc (fst kv) (snd kv)) extra base.

(** [{ k1: v1, k2: v2, ... }], the properties being written in this
    order. *)
Definition object_literal {A : Type} (props : list (string * A)) : list (string * A) :=
  spread [] props.

(** [v.k] on a value that is neither [undefined] nor [null]; the keys
    api.js reads ([data], [error], [message], [details]) are own properties
    of objects only. *)
Definition prop (v : Value) (k : string) : Value :=
  match v with
  | VObj fields => match lookup fields k with Some x => x | None => VUndefined end
  | _ => VUndefined
  end.

(** [v?.k] *)
Definition opt_chain (v : Value) (k : string) : Value :=
  match v with
  | VUndefined | VNull => VUndefined
  | _ => prop v k
  end.

(** *** Strings *)

Definition decimal (n : Z) : string := NilZero.string_of_int (Z.to_int n).

Fixpoint join (sep : string) (parts : list string) : string :=
  match parts with
  | [] => ""
  | [p] => p
  | p :: rest => p ++ sep ++ join sep rest
  end.

(** [s.includes(sub)] *)
Fixpoint includes (s sub : string) : bool :=
  String.prefix sub s
  || match s with
     | EmptyString => false
     | String _ s' => includes s' sub
     end.

Definition upper_ascii (c : ascii) : ascii :=
  let n := N_of_ascii c in
  if ((97 <=? n) && (n <=? 122))%N then ascii_of_N (n - 32) else c.

Fixpoint toUpperCase (s : string) : string :=
  match s with
  | EmptyString => EmptyString
  | String c s' => String (upper_ascii c) (toUpperCase s')
  end.

(** [String(v)], also the conversion of a template literal [`${v}`]; a
    number is a safe integer, printed in decimal. *)
Fixpoint to_String (v : Value) : string :=
  match v with
  | VUndefined => "undefined"
  | VNull => "null"
  | VBool true => "true"
  | VBool false => "false"
  | VNum n => decimal n
  | VBigInt n => decimal n
  | VStr s => s
  | VArr xs =>
      join "," (map (fun x => match x with
                              | VUndefined | VNull => ""
                              | _ => to_String x
                              end) xs)
  | VObj _ => "[object Object]"
  end.

(** A parameter with a default value: [function f(x = d)]. *)
Definition default_arg (x d : Value) : Value :=
  match x with VUndefined => d | _ => x end.

(** *** Object.entries *)

Fixpoint indexed_from {A : Type} (i : Z) (xs : list A) : list (string * A) :=
  match xs with
  | [] => []
  | x :: rest => (decimal i, x) :: indexed_from (i + 1) rest
  end.

Fixpoint chars (s : string) : list Value :=
  match s with
  | EmptyString => []
  | String c s' => VStr (String c EmptyString) :: chars s'
  end.

Definition Object_entries (v : Value) : Result JsError (list (string * Value)) :=
  match v with
  | VUndefined | VNull => Throw (TypeError "Cannot convert undefined or null to object")
  | VObj fields => Ok fields
  | VArr xs => Ok (indexed_from 0 xs)
  | VStr s => Ok (indexed_from 0 (chars s))
  | VBool _ | VNum _ | VBigInt _ => Ok []
  end.

(** [{ ...v }] of an arbitrary value inside an object literal. *)
Definition own_entries (v : Value) : list (string * Value) :=
  match Object_entries v with
  | Ok fields => fields
  | Throw _ => []
  end.

(** *** JSON.stringify *)

Definition hex_digit (upper : bool) (n : N) : ascii :=
  if (n <? 10)%N then ascii_of_N (48 + n)
  else ascii_of_N ((if upper then 55 else 87) + n).

Definition hex2 (upper : bool) (n : N) : string :=
  String (hex_digit upper (n / 16)) (String (hex_digit upper (n mod 16)) EmptyString).

Definition dquote : string := String (ascii_of_N 34) EmptyString.

Definition quote_char (c : ascii) : string :=
  let n := N_of_ascii c in
  if (n =? 34)%N then "\" ++ dquote
  else if (n =? 92)%N then "\\"
  else if (n =? 8)%N then "\b"
  else if (n =? 9)%N then "\t"
  else if (n =? 10)%N then "\n"
  else if (n =? 12)%N then "\f"
  else if (n =? 13)%N then "\r"
  else if (n <? 32)%N then "\u00" ++ hex2 false n
  else String c EmptyString.

Fixpoint quote_body (s : string) : string :=
  match s with
  | EmptyString => EmptyString
  | String c s' => quote_char c ++ quote_body s'
  end.

Definition quote (s : string) : string := dquote ++ quote_body s ++ dquote.

Fixpoint stringify (v : Value) : Result JsError (option string) :=
  match v with
  | VUndefined => Ok None
  | VNull => Ok (Some "null")
  | VBool b => Ok (Some (if b then "true" else "false"))
  | VNum n => Ok (Some (decimal n))
  | VBigInt _ => Throw (TypeError "Do not know how to serialize a BigInt")
  | VStr s => Ok (Some (quote s))
  | VArr xs =>
      match (fix elements (l : list Value) : Result JsError (list string) :=
               match l with
               | [] => Ok []
               | x :: rest =>
                   match stringify x with
                   | Throw e => Throw e
                   | Ok o =>
                       match elements rest with
                       | Throw e => Throw e
                       | Ok ss => Ok (match o with Some s => s | None => "null" end :: ss)
                       end
                   end
               end) xs with
      | Throw e => Throw e
      | Ok ss => Ok (Some ("[" ++ join "," ss ++ "]"))
      end
  | VObj fields =>
      match (fix members (l : list (string * Value)) : Result JsError (list string) :=
               match l with
               | [] => Ok []
               | (k, x) :: rest =>
                   match stringify x with
                   | Throw e => Throw e
                   | Ok o =>
                       match members rest with
                       | Throw e => Throw e
                       | Ok ss =>
                           Ok (match o with
                               | Some s => (quote k ++ ":" ++ s) :: ss
                               | None => ss
                               end)
                       end
                   end
               end) fields with
      | Throw e => Throw e
      | Ok ss => Ok (Some ("{" ++ join "," ss ++ "}"))
      end
  end.

(** [JSON.stringify(v)]; [Ok None] is the result [undefined]. *)
Definition JSON_stringify (v : Value) : Result JsError (option string) := stringify v.

(** *** URLSearchParams *)

Definition is_alnum (n : N) : bool :=
  (((48 <=? n) && (n <=? 57)) || ((65 <=? n) && (n <=? 90)) || ((97 <=? n) && (n <=? 122)))%N.

(** The application/x-www-form-urlencoded serialisation of one byte. *)
Definition urlencode_byte (c : ascii) : string :=
  let n := N_of_ascii c in
  if is_alnum n || (n =? 42)%N || (n =? 45)%N || (n =? 46)%N || (n =? 95)%N
  then String c EmptyString
  else if (n =? 32)%N then "+"
  else "%" ++ hex2 true n.

Fixpoint urlencode (s : string) : string :=
  match s with
  | EmptyString => EmptyString
  | String c s' => urlencode_byte c ++ urlencode s'
  end.

Definition URLSearchParams : Type := list (string * string).

Definition sp_append (sp : URLSearchParams) (k v : string) : URLSearchParams :=
  (sp ++ [(k, v)])%list.

Definition sp_pair (kv : string * string) : string :=
  urlencode (fst kv) ++ "=" ++ urlencode (snd kv).

Definition sp_toString (sp : URLSearchParams) : string :=
  join "&" (map sp_pair sp).

End Js.

(* ================================================================== *)
(** ** src/lib/config.js *)
(* ================================================================== *)

Module Config.
Import Js.

(** The two places a setting is read from: the process environment and
    the store on disk (with the defaults of its schema filled in). *)
Record Store : Type := mkStore {
  env : string -> option string;
  stored : string -> option string
}.

(** [get(key)]: the environment variable [EROLD_<KEY>] wins when it is set
    and not empty. *)
Definition get (c : Store) (key : string) : option string :=
  let envKey := "EROLD_" ++ toUpperCase key in
  if truthy_str (env c envKey) then env c envKey else stored c key.

Record ApiConfig : Type := mkApiConfig {
  apiKey : option string;
  apiUrl : option string;
  tenant : option string
}.

Definition getApiConfig (c : Store) : ApiConfig :=
  {| apiKey := get c "apiKey";
     apiUrl := get c "apiUrl";
     tenant := get c "tenant" |}.

(** A store without environment overrides, for examples. *)
Definition plain (key url ten : option string) : Store :=
  {| env := fun _ => None;
     stored := fun k =>
       if (k =? "apiKey")%string then key
       else if (k =? "apiUrl")%string then url
       else if (k =? "tenant")%string then ten
       else None |}.

End Config.

(* ================================================================== *)
(** ** src/lib/api.js *)
(* ================================================================== *)

Module Api.
Import Js.

Definition DEFAULT_TIMEOUT : Z := 30000.
Definition MAX_RETRIES : Z := 3.
Definition RETRY_DELAY : Z := 1000.

(** *** ApiError *)

Record ApiError : Type := mkApiError {
  message : string;
  statusCode : Z;
  details : Value
}.

(** [new ApiError(message, statusCode, details = null)] *)
Definition new_ApiError (msg : string) (code : Z) (det : Value) : ApiError :=
  {| message := msg; statusCode := code; details := default_arg det VNull |}.

(** Whatever a [throw] can carry here. *)
Inductive Exn : Type :=
| ExApi (e : ApiError)
| ExRaw (e : JsError).

Definition name_of (error : Exn) : string :=
  match error with
  | ExApi _ => "ApiError"
  | ExRaw e => err_name e
  end.

(** *** The network *)

(** A response as api.js sees it: its status, its headers (names in lower
    case) and what the promises of its two body readers settle to.  The
    headers of a response arrive before its body: [None] is a body that
    never arrives, so that the promise of the reader never settles. *)
Record Response : Type := mkResponse {
  status : Z;
  headers : list (string * string);
  json : option (Result JsError Value);
  text : option (Result JsError string)
}.

(** [response.ok] *)
Definition ok (r : Response) : bool := (200 <=? status r) && (status r <=? 299).

(** [response.headers.get(name)]; [None] is [null]. *)
Definition headers_get (r : Response) (name : string) : option string :=
  lookup (headers r) name.

(** What one call of [fetch] does when nobody aborts it. *)
Inductive NetEvent : Type :=
| NetResolves (ms : Z) (r : Response)
| NetRejects (ms : Z) (e : JsError)
| NetHangs.

(** The script of the network: the event of the n-th call of [fetch]
    (counting from 0). *)
Definition Network : Type := nat -> NetEvent.

Definition AbortError : JsError :=
  mkJsError "AbortError" "This operation was aborted" None.

(** [await fetch(url, { signal })] while the abort timer is in state
    [timer]: [Some t] when it is armed and fires in [t] ms, [None] once
    [clearTimeout] has run.  A timer that fires aborts the signal, and the
    pending [fetch] rejects with an [AbortError].  The result [None] is a
    promise that never settles. *)
Definition await_fetch (timer : option Z) (ev : NetEvent)
  : option (Result JsError Response) :=
  match timer with
  | Some t =>
      match ev with
      | NetResolves ms r => if ms <? t then Some (Ok r) else Some (Throw AbortError)
      | NetRejects ms e => if ms <? t then Some (Throw e) else Some (Throw AbortError)
      | NetHangs => Some (Throw AbortError)
      end
  | None =>
      match ev with
      | NetResolves _ r => Some (Ok r)
      | NetRejects _ e => Some (Throw e)
      | NetHangs => None
      end
  end.

(** *** request *)

Record Options : Type := mkOptions {
  method : option string;
  body : option string;
  opt_headers : option (list (string * string));
  timeout : option Z
}.

(** [{ ...options, headers, signal: controller.signal }] *)
Record FetchOptions : Type := mkFetchOptions {
  fo_method : option string;
  fo_body : option string;
  fo_timeout : option Z;
  fo_headers : list (string * string)
}.

Inductive Event : Type :=
| EvFetch (url : string) (fetchOptions : FetchOptions)
| EvSleep (ms : Z).

Inductive Outcome : Type :=
| Returned (v : Value)
| Thrown (e : Exn)
| Pending.   (* the promise never settles *)

Definition Run : Type := (Outcome * list Event)%type.

Definition is_fetch (ev : Event) : bool :=
  match ev with EvFetch _ _ => true | EvSleep _ => false end.

(** The [fetch] calls of a trace. *)
Definition fetches (trace : list Event) : list Event := filter is_fetch trace.

(** [`${x}`] of a setting that may be absent. *)
Definition tpl (o : option string) : string :=
  match o with Some s => s | None => "undefined" end.

Definition default_headers (apiKey : option string) : list (string * string) :=
  [("Content-Type", "application/json");
   ("X-API-Key", tpl apiKey);
   ("User-Agent", "@erold/cli/1.0.0")].

(** [{ ...defaults, ...options.headers }] *)
Definition build_headers (apiKey : option string) (options : Options)
  : list (string * string) :=
  spread (default_headers apiKey)
         (match opt_headers options with Some hs => hs | None => [] end).

(** The delay [setTimeout] really uses: one outside of 1 .. 2^31 - 1 is
    replaced by 1. *)
Definition TIMEOUT_MAX : Z := 2147483647.

Definition setTimeout_delay (delay : Z) : Z :=
  if (1 <=? delay) && (delay <=? TIMEOUT_MAX) then delay else 1.

(** [setTimeout(..., options.timeout || DEFAULT_TIMEOUT)] *)
Definition timer_delay (options : Options) : Z :=
  setTimeout_delay
    match timeout options with
    | Some t => if t =? 0 then DEFAULT_TIMEOUT else t
    | None => DEFAULT_TIMEOUT
    end.

(** Parse response: [await response.json()] or [await response.text()];
    [None] when the promise awaited never settles. *)
Definition read_body (r : Response) : option (Result JsError Value) :=
  let contentType := headers_get r "content-type" in
  if truthy_str contentType && includes (tpl contentType) "application/json"
  then json r
  else match text r with
       | Some (Ok s) => Some (Ok (VStr s))
       | Some (Throw e) => Some (Throw e)
       | None => None
       end.

(** [data?.data !== undefined ? data.data : data] *)
Definition unwrap (data : Value) : Value :=
  if negb (is_undefined (opt_chain data "data")) then prop data "data" else data.

(** [response.headers.get('retry-after') || 60], as the template prints it *)
Definition retry_after (r : Response) : string :=
  let h := headers_get r "retry-after" in
  if truthy_str h then tpl h else "60".

(** [data?.error?.message || data?.message || `HTTP ${response.status}`] *)
Definition error_message (r : Response) (data : Value) : Value :=
  or_else (or_else (opt_chain (opt_chain data "error") "message")
                   (opt_chain data "message"))
          (VStr ("HTTP " ++ decimal (status r))).

(** The rest of the [try] block once [data] is read. *)
Definition classify (r : Response) (data : Value) : Result Exn Value :=
  if status r =? 429 then
    Throw (ExApi (new_ApiError
                    ("Rate limited. Try again in " ++ retry_after r ++ " seconds.")
                    429 VUndefined))
  else if negb (ok r) then
    Throw (ExApi (new_ApiError
                    (to_String (error_message r data))
                    (status r)
                    (opt_chain (opt_chain data "error") "details")))
  else Ok (unwrap data).

(** The [try] block from the moment [fetch] has settled, the timer being
    cleared by then; [None] when the block waits for ever for the body. *)
Definition try_block (settled : Result JsError Response) : option (Result Exn Value) :=
  match settled with
  | Ok r =>
      match read_body r with
      | None => None
      | Some (Throw e) => Some (Throw (ExRaw e))
      | Some (Ok data) => Some (classify r data)
      end
  | Throw e => Some (Throw (ExRaw e))
  end.

(** Don't retry on client errors (4xx) except 429 *)
Definition is_client_error (error : Exn) : bool :=
  match error with
  | ExApi e => (400 <=? statusCode e) && (statusCode e <? 500) && negb (statusCode e =? 429)
  | ExRaw _ => false
  end.

(** The two [throw]s after the loop. *)
Definition after_loop (lastError : option Exn) : Outcome :=
  match lastError with
  | Some (ExApi e) => Thrown (ExApi e)
  | Some (ExRaw e) =>
      Thrown (ExApi (new_ApiError
                       (if (err_message e =? "")%string
                        then "Request failed after retries" else err_message e)
                       (match err_statusCode e with
                        | Some c => if c =? 0 then 500 else c
                        | None => 500
                        end)
                       VUndefined))
  | None => Thrown (ExApi (new_ApiError "Request failed after retries" 500 VUndefined))
  end.

(** The [for] loop.  [remaining] counts the iterations its header still
    allows, [attempt] is the loop variable, [n] the number of [fetch]
    calls issued so far, [timer] the state of the abort timer. *)
Fixpoint attempts (net : Network) (url : string) (fetchOptions : FetchOptions)
         (remaining : nat) (attempt : Z) (n : nat)
         (timer : option Z) (lastError : option Exn) (trace : list Event) : Run :=
  match remaining with
  | O => (after_loop lastError, trace)
  | S remaining' =>
      let trace := (trace ++ [EvFetch url fetchOptions])%list in
      match await_fetch timer (net n) with
      | None => (Pending, trace)
      | Some settled =>
          (* [clearTimeout(timeout)] runs on both paths from here on *)
          match try_block settled with
          | None => (Pending, trace)
          | Some (Ok v) => (Returned v, trace)
          | Some (Throw error) =>
              if is_client_error error then (Thrown error, trace)
              else if (name_of error =? "AbortError")%string then
                (Thrown (ExApi (new_ApiError "Request timed out" 408 VUndefined)), trace)
              else if attempt =? MAX_RETRIES then (after_loop (Some error), trace)
              else
                attempts net url fetchOptions remaining' (attempt + 1) (S n)
                         None (Some error)
                         (trace ++ [EvSleep (RETRY_DELAY * attempt)])%list
          end
      end
  end.

Definition request (c : Config.Store) (net : Network)
           (endpoint : string) (options : Options) : Run :=
  let cfg := Config.getApiConfig c in
  if negb (truthy_str (Config.apiKey cfg)) then
    (Thrown (ExApi (new_ApiError "Not authenticated. Run `erold login` first." 401 VUndefined)),
     [])
  else
    let url := tpl (Config.apiUrl cfg) ++ endpoint in
    let headers := build_headers (Config.apiKey cfg) options in
    let timer := Some (timer_delay options) in
    let fetchOptions :=
      {| fo_method := method options;
         fo_body := body options;
         fo_timeout := timeout options;
         fo_headers := headers |} in
    attempts net url fetchOptions (Z.to_nat MAX_RETRIES) 1 0%nat timer None [].

(** *** HTTP methods *)

Definition just_method (m : string) : Options :=
  {| method := Some m; body := None; opt_headers := None; timeout := None |}.

Definition with_body (m : string) (b : option string) : Options :=
  {| method := Some m; body := b; opt_headers := None; timeout := None |}.

(** The [forEach] over [Object.entries(params)]. *)
Definition add_param (searchParams : URLSearchParams) (kv : string * Value)
  : URLSearchParams :=
  let (key, value) := kv in
  if negb (is_undefined value) && negb (is_null value) && negb (is_empty_string value)
  then sp_append searchParams key (to_String value)
  else searchParams.

Definition build_url (endpoint : string) (entries : list (string * Value)) : string :=
  let searchParams := fold_left add_param entries [] in
  let queryString := sp_toString searchParams in
  if negb (queryString =? "")%string then endpoint ++ "?" ++ queryString else endpoint.

Definition get (c : Config.Store) (net : Network)
           (endpoint : string) (params : Value) : Run :=
  match Object_entries (default_arg params (VObj [])) with
  | Throw e => (Thrown (ExRaw e), [])
  | Ok entries => request c net (build_url endpoint entries) (just_method "GET")
  end.

Definition post (c : Config.Store) (net : Network)
           (endpoint : string) (data : Value) : Run :=
  match JSON_stringify (default_arg data (VObj [])) with
  | Throw e => (Thrown (ExRaw e), [])
  | Ok b => request c net endpoint (with_body "POST" b)
  end.

Definition patch (c : Config.Store) (net : Network)
           (endpoint : string) (data : Value) : Run :=
  match JSON_stringify (default_arg data (VObj [])) with
  | Throw e => (Thrown (ExRaw e), [])
  | Ok b => request c net endpoint (with_body "PATCH" b)
  end.

Definition del (c : Config.Store) (net : Network) (endpoint : string) : Run :=
  request c net endpoint (just_method "DELETE").

(** The three errors api.js makes up itself. *)
Definition not_authenticated : ApiError :=
  new_ApiError "Not authenticated. Run `erold login` first." 401 VUndefined.

Definition timed_out : ApiError := new_ApiError "Request timed out" 408 VUndefined.

Definition no_tenant : ApiError :=
  new_ApiError "No tenant configured. Run `erold config set tenant <tenant-id>` first."
               400 VUndefined.

(** The error thrown for a 429 response. *)
Definition rate_limited (r : Response) : ApiError :=
  new_ApiError ("Rate limited. Try again in " ++ retry_after r ++ " seconds.")
               429 VUndefined.

(** The error thrown for any other response that is not [ok]. *)
Definition http_error (r : Response) (data : Value) : ApiError :=
  new_ApiError (to_String (error_message r data))
               (status r)
               (opt_chain (opt_chain data "error") "details").

(** The URL and the options [request] hands to [fetch]. *)
Definition full_url (c : Config.Store) (endpoint : string) : string :=
  tpl (Config.apiUrl (Config.getApiConfig c)) ++ endpoint.

Definition fetch_options (c : Config.Store) (options : Options) : FetchOptions :=
  {| fo_method := method options;
     fo_body := body options;
     fo_timeout := timeout options;
     fo_headers := build_headers (Config.apiKey (Config.getApiConfig c)) options |}.

(** An API key is configured. *)
Definition authenticated (c : Config.Store) : bool :=
  truthy_str (Config.apiKey (Config.getApiConfig c)).

(** *** Helper functions *)

Definition getTenantPath (c : Config.Store) : Result Exn string :=
  let tenant := Config.get c "tenant" in
  if negb (truthy_str tenant) then
    Throw (ExApi (new_ApiError
                    "No tenant configured. Run `erold config set tenant <tenant-id>` first."
                    400 VUndefined))
  else Ok ("/tenants/" ++ tpl tenant).

(** *** High-level API methods *)

(** A call of one of the four verbs, with its evaluated arguments. *)
Inductive VerbCall : Type :=
| CallGet (endpoint : string) (params : Value)
| CallPost (endpoint : string) (data : Value)
| CallPatch (endpoint : string) (data : Value)
| CallDel (endpoint : string).

Definition endpoint_of (vc : VerbCall) : string :=
  match vc with
  | CallGet e _ | CallPost e _ | CallPatch e _ | CallDel e => e
  end.

Definition run_verb (c : Config.Store) (net : Network) (vc : VerbCall) : Run :=
  match vc with
  | CallGet e params => get c net e params
  | CallPost e data => post c net e data
  | CallPatch e data => patch c net e data
  | CallDel e => del c net e
  end.

(** The methods of the exported objects, each with its arguments; an
    omitted argument is [VUndefined]. *)
Inductive Facade : Type :=
| user_me
| user_notifications (params : Value)
| user_markNotificationRead (id : Value)
| user_markAllNotificationsRead
| tasks_list (params : Value)
| tasks_search (query params : Value)
| tasks_mine (params : Value)
| tasks_blocked
| tasks_get (id : Value)
| tasks_create (projectId data : Value)
| tasks_update (id data : Value)
| tasks_delete (id : Value)
| tasks_bulk (taskIds updates : Value)
| tasks_start (id : Value)
| tasks_complete (id summary : Value)
| tasks_block (id reason : Value)
| tasks_progress (id percent notes : Value)
| tasks_logTime (id hours notes : Value)
| tasks_comments (id : Value)
| tasks_addComment (id content : Value)
| projects_list (params : Value)
| projects_get (id : Value)
| projects_create (data : Value)
| projects_update (id data : Value)
| projects_delete (id : Value)
| projects_stats (id : Value)
| projects_tasks (id params : Value)
| knowledge_list (params : Value)
| knowledge_get (id : Value)
| knowledge_getByCategory (category : Value)
| knowledge_create (data : Value)
| knowledge_update (id data : Value)
| knowledge_delete (id : Value)
| knowledge_search (query : Value)
| vault_list (projectId : Value)
| vault_get (projectId entryId : Value)
| vault_create (projectId data : Value)
| vault_update (projectId entryId data : Value)
| vault_delete (projectId entryId : Value)
| techInfo_get (projectId : Value)
| techInfo_update (projectId data : Value)
| context_get
| context_dashboard
| context_stats
| context_workload
| members_list
| members_get (uid : Value)
| members_invite (email role : Value)
| members_updateRole (uid role : Value)
| members_remove (uid : Value)
| invites_list
| invites_accept (id : Value)
| invites_decline (id : Value)
| activity_list (params : Value)
| activity_forTask (taskId : Value)
| exportData_tasks (format : Value)
| exportData_projects (format : Value)
| exportData_activity (format : Value)
| tenants_list
| tenants_get (id : Value).

Notation "x <- e ;; k" :=
  (match e with Ok x => k | Throw err => Throw err end)
  (at level 61, e at next level, right associativity).

Definition empty_object : Value := VObj [].

(** The body of each arrow function up to the call of the verb: the
    template literal is evaluated first (and with it [getTenantPath()]),
    then the other arguments. *)
Definition verb_call (c : Config.Store) (f : Facade) : Result Exn VerbCall :=
  match f with
  (* User *)
  | user_me => Ok (CallGet "/me" VUndefined)
  | user_notifications params => Ok (CallGet "/me/notifications" params)
  | user_markNotificationRead id =>
      Ok (CallPatch ("/me/notifications/" ++ to_String id) VUndefined)
  | user_markAllNotificationsRead => Ok (CallPost "/me/notifications/read-all" VUndefined)
  (* Tasks *)
  | tasks_list params =>
      t <- getTenantPath c ;; Ok (CallGet (t ++ "/tasks") (default_arg params empty_object))
  | tasks_search query params =>
      t <- getTenantPath c ;;
      Ok (CallGet (t ++ "/tasks/search")
                  (VObj (spread [("q", query)]
                                (own_entries (default_arg params empty_object)))))
  | tasks_mine params =>
      t <- getTenantPath c ;; Ok (CallGet (t ++ "/tasks/mine") (default_arg params empty_object))
  | tasks_blocked => t <- getTenantPath c ;; Ok (CallGet (t ++ "/tasks/blocked") VUndefined)
  | tasks_get id =>
      t <- getTenantPath c ;; Ok (CallGet (t ++ "/tasks/" ++ to_String id) VUndefined)
  | tasks_create projectId data =>
      t <- getTenantPath c ;;
      Ok (CallPost (t ++ "/projects/" ++ to_String projectId ++ "/tasks") data)
  | tasks_update id data =>
      t <- getTenantPath c ;; Ok (CallPatch (t ++ "/tasks/" ++ to_String id) data)
  | tasks_delete id =>
      t <- getTenantPath c ;; Ok (CallDel (t ++ "/tasks/" ++ to_String id))
  | tasks_bulk taskIds updates =>
      t <- getTenantPath c ;;
      Ok (CallPost (t ++ "/tasks/bulk") (VObj [("taskIds", taskIds); ("updates", updates)]))
  | tasks_start id =>
      t <- getTenantPath c ;;
      Ok (CallPost (t ++ "/tasks/" ++ to_String id ++ "/start") VUndefined)
  | tasks_complete id summary =>
      t <- getTenantPath c ;;
      Ok (CallPost (t ++ "/tasks/" ++ to_String id ++ "/complete")
                   (VObj [("summary", summary)]))
  | tasks_block id reason =>
      t <- getTenantPath c ;;
      Ok (CallPost (t ++ "/tasks/" ++ to_String id ++ "/block") (VObj [("reason", reason)]))
  | tasks_progress id percent notes =>
      t <- getTenantPath c ;;
      Ok (CallPost (t ++ "/tasks/" ++ to_String id ++ "/progress")
                   (VObj [("percent", percent); ("notes", notes)]))
  | tasks_logTime id hours notes =>
      t <- getTenantPath c ;;
      Ok (CallPost (t ++ "/tasks/" ++ to_String id ++ "/log")
                   (VObj [("hours", hours); ("notes", notes)]))
  | tasks_comments id =>
      t <- getTenantPath c ;;
      Ok (CallGet (t ++ "/tasks/" ++ to_String id ++ "/comments") VUndefined)
  | tasks_addComment id content =>
      t <- getTenantPath c ;;
      Ok (CallPost (t ++ "/tasks/" ++ to_String id ++ "/comments")
                   (VObj [("content", content)]))
  (* Projects *)
  | projects_list params =>
      t <- getTenantPath c ;; Ok (CallGet (t ++ "/projects") (default_arg params empty_object))
  | projects_get id =>
      t <- getTenantPath c ;; Ok (CallGet (t ++ "/projects/" ++ to_String id) VUndefined)
  | projects_create data => t <- getTenantPath c ;; Ok (CallPost (t ++ "/projects") data)
  | projects_update id data =>
      t <- getTenantPath c ;; Ok (CallPatch (t ++ "/projects/" ++ to_String id) data)
  | projects_delete id =>
      t <- getTenantPath c ;; Ok (CallDel (t ++ "/projects/" ++ to_String id))
  | projects_stats id =>
      t <- getTenantPath c ;;
      Ok (CallGet (t ++ "/projects/" ++ to_String id ++ "/stats") VUndefined)
  | projects_tasks id params =>
      t <- getTenantPath c ;;
      Ok (CallGet (t ++ "/projects/" ++ to_String id ++ "/tasks")
                  (default_arg params empty_object))
  (* Knowledge *)
  | knowledge_list params =>
      t <- getTenantPath c ;; Ok (CallGet (t ++ "/knowledge") (default_arg params empty_object))
  | knowledge_get id =>
      t <- getTenantPath c ;; Ok (CallGet (t ++ "/knowledge/" ++ to_String id) VUndefined)
  | knowledge_getByCategory category =>
      t <- getTenantPath c ;;
      Ok (CallGet (t ++ "/knowledge/category/" ++ to_String category) VUndefined)
  | knowledge_create data => t <- getTenantPath c ;; Ok (CallPost (t ++ "/knowledge") data)
  | knowledge_update id data =>
      t <- getTenantPath c ;; Ok (CallPatch (t ++ "/knowledge/" ++ to_String id) data)
  | knowledge_delete id =>
      t <- getTenantPath c ;; Ok (CallDel (t ++ "/knowledge/" ++ to_String id))
  | knowledge_search query =>
      t <- getTenantPath c ;; Ok (CallGet (t ++ "/knowledge") (VObj [("search", query)]))
  (* Vault *)
  | vault_list projectId =>
      t <- getTenantPath c ;;
      Ok (CallGet (t ++ "/projects/" ++ to_String projectId ++ "/vault") VUndefined)
  | vault_get projectId entryId =>
      t <- getTenantPath c ;;
      Ok (CallGet (t ++ "/projects/" ++ to_String projectId ++ "/vault/" ++ to_String entryId)
                  VUndefined)
  | vault_create projectId data =>
      t <- getTenantPath c ;;
      Ok (CallPost (t ++ "/projects/" ++ to_String projectId ++ "/vault") data)
  | vault_update projectId entryId data =>
      t <- getTenantPath c ;;
      Ok (CallPatch (t ++ "/projects/" ++ to_String projectId ++ "/vault/" ++ to_String entryId)
                    data)
  | vault_delete projectId entryId =>
      t <- getTenantPath c ;;
      Ok (CallDel (t ++ "/projects/" ++ to_String projectId ++ "/vault/" ++ to_String entryId))
  (* Tech info *)
  | techInfo_get projectId =>
      t <- getTenantPath c ;;
      Ok (CallGet (t ++ "/projects/" ++ to_String projectId ++ "/tech-info") VUndefined)
  | techInfo_update projectId data =>
      t <- getTenantPath c ;;
      Ok (CallPatch (t ++ "/projects/" ++ to_String projectId ++ "/tech-info") data)
  (* Context *)
  | context_get => t <- getTenantPath c ;; Ok (CallGet (t ++ "/context") VUndefined)
  | context_dashboard => t <- getTenantPath c ;; Ok (CallGet (t ++ "/dashboard") VUndefined)
  | context_stats => t <- getTenantPath c ;; Ok (CallGet (t ++ "/stats") VUndefined)
  | context_workload => t <- getTenantPath c ;; Ok (CallGet (t ++ "/workload") VUndefined)
  (* Members *)
  | members_list => t <- getTenantPath c ;; Ok (CallGet (t ++ "/members") VUndefined)
  | members_get uid =>
      t <- getTenantPath c ;; Ok (CallGet (t ++ "/members/" ++ to_String uid) VUndefined)
  | members_invite email role =>
      t <- getTenantPath c ;;
      Ok (CallPost (t ++ "/members/invite")
                   (VObj [("email", email); ("role", default_arg role (VStr "member"))]))
  | members_updateRole uid role =>
      t <- getTenantPath c ;;
      Ok (CallPatch (t ++ "/members/" ++ to_String uid) (VObj [("role", role)]))
  | members_remove uid =>
      t <- getTenantPath c ;; Ok (CallDel (t ++ "/members/" ++ to_String uid))
  (* Invites *)
  | invites_list => t <- getTenantPath c ;; Ok (CallGet (t ++ "/invites") VUndefined)
  | invites_accept id => Ok (CallPost ("/invites/" ++ to_String id ++ "/accept") VUndefined)
  | invites_decline id => Ok (CallPost ("/invites/" ++ to_String id ++ "/decline") VUndefined)
  (* Activity *)
  | activity_list params =>
      t <- getTenantPath c ;; Ok (CallGet (t ++ "/activity") (default_arg params empty_object))
  | activity_forTask taskId =>
      t <- getTenantPath c ;;
      Ok (CallGet (t ++ "/tasks/" ++ to_String taskId ++ "/activity") VUndefined)
  (* Export *)
  | exportData_tasks format =>
      t <- getTenantPath c ;;
      Ok (CallGet (t ++ "/export/tasks") (VObj [("format", default_arg format (VStr "json"))]))
  | exportData_projects format =>
      t <- getTenantPath c ;;
      Ok (CallGet (t ++ "/export/projects")
                  (VObj [("format", default_arg format (VStr "json"))]))
  | exportData_activity format =>
      t <- getTenantPath c ;;
      Ok (CallGet (t ++ "/export/activity")
                  (VObj [("format", default_arg format (VStr "json"))]))
  (* Tenants *)
  | tenants_list => Ok (CallGet "/tenants" VUndefined)
  | tenants_get id => Ok (CallGet ("/tenants/" ++ to_String id) VUndefined)
  end.

(** Calling a facade method. *)
Definition call (c : Config.Store) (net : Network) (f : Facade) : Run :=
  match verb_call c f with
  | Throw e => (Thrown e, [])
  | Ok vc => run_verb c net vc
  end.

(** The methods whose path starts with [${getTenantPath()}]. *)
Definition tenant_scoped (f : Facade) : bool :=
  match f with
  | user_me | user_notifications _ | user_markNotificationRead _
  | user_markAllNotificationsRead
  | invites_accept _ | invites_decline _
  | tenants_list | tenants_get _ => false
  | _ => true
  end.

End Api.

(* ================================================================== *)
(** ** Notions used to state the properties *)
(* ================================================================== *)

Module ApiNotions.
Import Js Api.

(** *** Encoding of the arguments *)

(** What [get] throws before it reaches [request] (from [Object.entries])
    and what [post] and [patch] throw there (from [JSON.stringify]), if
    anything. *)
Definition encoding_error (vc : VerbCall) : option JsError :=
  match vc with
  | CallGet _ params =>
      match Object_entries (default_arg params (VObj [])) with
      | Throw e => Some e
      | Ok _ => None
      end
  | CallPost _ data | CallPatch _ data =>
      match JSON_stringify (default_arg data (VObj [])) with
      | Throw e => Some e
      | Ok _ => None
      end
  | CallDel _ => None
  end.

(** *** The query string of a list of parameters *)

(** A parameter survives when its value is neither [undefined], nor
    [null], nor the empty string. *)
Definition survives (kv : string * Value) : bool :=
  match snd kv with
  | VUndefined | VNull => false
  | VStr s => negb (s =? "")%string
  | _ => true
  end.

(** [k=v], key and stringified value URL-encoded. *)
Definition query_pair (kv : string * Value) : string :=
  urlencode (fst kv) ++ "=" ++ urlencode (to_String (snd kv)).

(** The surviving parameters, in the order of the mapping, joined by [&]. *)
Definition query_string (params : list (string * Value)) : string :=
  join "&" (map query_pair (filter survives params)).

(** The suffix [?k=v&...] is appended only when a parameter survives. *)
Definition url_with_query (endpoint : string) (params : list (string * Value)) : string :=
  match filter survives params with
  | [] => endpoint
  | _ :: _ => endpoint ++ "?" ++ query_string params
  end.

(** *** Traces *)

(** An event of a call that fetches [url] with [fo]: that [fetch], or a
    back-off sleep. *)
Definition own_event (url : string) (fo : FetchOptions) (ev : Event) : Prop :=
  ev = EvFetch url fo \/ exists ms, ev = EvSleep ms.

(** *** The timer *)

(** The call of [fetch] described by [ev] is still pending [t] ms after
    it was issued. *)
Definition in_flight_at (ev : NetEvent) (t : Z) : bool :=
  match ev with
  | NetResolves ms _ | NetRejects ms _ => t <=? ms
  | NetHangs => true
  end.

(** *** One iteration of the loop *)

(** What the [catch] block and the rest of an iteration do with the
    outcome of the [try] block. *)
Definition continue_with (net : Network) (url : string) (fo : FetchOptions)
           (remaining : nat) (attempt : Z) (n : nat) (trace : list Event)
           (tried : option (Result Exn Value)) : Run :=
  match tried with
  | None => (Pending, trace)
  | Some (Ok v) => (Returned v, trace)
  | Some (Throw error) =>
      if is_client_error error then (Thrown error, trace)
      else if (name_of error =? "AbortError")%string then (Thrown (ExApi timed_out), trace)
      else if attempt =? MAX_RETRIES then (after_loop (Some error), trace)
      else attempts net url fo remaining (attempt + 1) (S n) None (Some error)
                    (trace ++ [EvSleep (RETRY_DELAY * attempt)])%list
  end.

End ApiNotions.

(* ================================================================== *)
(** ** Sample configurations, responses and networks *)
(* ================================================================== *)

Module Samples.
Import Js Api.

Definition test_config : Config.Store :=
  Config.plain (Some "erold_test_key") (Some "https://api.test.com") (Some "test-tenant").

Definition logged_out : Config.Store :=
  Config.plain (Some "") (Some "https://api.test.com") (Some "test-tenant").

Definition no_tenant_config : Config.Store :=
  Config.plain (Some "erold_test_key") (Some "https://api.test.com") (Some "").

Definition json_headers : list (string * string) :=
  [("content-type", "application/json")].

Definition json_response (code : Z) (parsed : Value) : Response :=
  {| status := code; headers := json_headers;
     json := Some (Ok parsed); text := Some (Ok "") |}.

(** A response that announces JSON and carries an empty body. *)
Definition empty_json_response (code : Z) : Response :=
  {| status := code; headers := json_headers;
     json := Some (Throw (mkJsError "SyntaxError" "Unexpected end of JSON input" None));
     text := Some (Ok "") |}.

(** The rate-limit response of the test suite. *)
Definition rate_limit_429 : Response :=
  {| status := 429;
     headers := [("content-type", "application/json"); ("retry-after", "60")];
     json := Some (Ok (VObj [])); text := Some (Ok "") |}.

Definition not_found_404 : Response :=
  json_response 404 (VObj [("error", VObj [("message", VStr "Not found")])]).

Definition always (r : Response) : Network := fun _ => NetResolves 20 r.

Definition fetch_failed : JsError := TypeError "fetch failed".

Definition offline : Network := fun _ => NetRejects 5 fetch_failed.

(** One failed connection, then a server that never answers. *)
Definition stalls_on_retry : Network :=
  fun n => match n with
           | O => NetRejects 5 fetch_failed
           | _ => NetHangs
           end.

(** Options that override a default header. *)
Definition plain_text_options : Options :=
  {| method := Some "GET"; body := None;
     opt_headers := Some [("Content-Type", "text/plain")]; timeout := None |}.

Definition no_options : Options :=
  {| method := Some "GET"; body := None; opt_headers := None; timeout := None |}.

(** What [fetch] is called with for [GET /test] under [test_config]. *)
Definition fetch_test : Event :=
  EvFetch "https://api.test.com/test"
          {| fo_method := Some "GET"; fo_body := None; fo_timeout := None;
             fo_headers := [("Content-Type", "application/json");
                            ("X-API-Key", "erold_test_key");
                            ("User-Agent", "@erold/cli/1.0.0")] |}.

End Samples.

(* ================================================================== *)
(** ** Further notions and samples *)
(* ================================================================== *)

Module RetryNotions.
Import Js Api ApiNotions Samples.

(** The attempt described by [ev] fails in a way the loop retries: a
    rejection that is not an abort, or a response with a 5xx status whose
    body is read without error. *)
Definition fails_transiently (ev : NetEvent) : Prop :=
  match ev with
  | NetRejects _ e => err_name e <> "AbortError"
  | NetResolves _ r => 500 <= status r /\ exists data, read_body r = Some (Ok data)
  | NetHangs => False
  end.

(** The call of [fetch] described by [ev] settles less than [t] ms after
    it was issued. *)
Definition settles_before (ev : NetEvent) (t : Z) : Prop :=
  match ev with
  | NetResolves ms _ | NetRejects ms _ => ms < t
  | NetHangs => False
  end.

(** What is left in [lastError] after a rejection. *)
Definition surfaced (e : JsError) : ApiError :=
  new_ApiError (if (err_message e =? "")%string
                then "Request failed after retries" else err_message e)
               (match err_statusCode e with
                | Some code => if code =? 0 then 500 else code
                | None => 500
                end)
               VUndefined.

Definition server_error_503 : Response :=
  json_response 503 (VObj [("message", VStr "Service unavailable")]).

Definition gateway_error : JsError :=
  mkJsError "FetchError" "" (Some 502).

(** One 503, then success. *)
Definition recovers (parsed : Value) : Network :=
  fun n => match n with
           | O => NetResolves 20 server_error_503
           | _ => NetResolves 45000 (json_response 200 parsed)
           end.

(** The headers of a successful response, and then nothing. *)
Definition body_never_arrives : Response :=
  {| status := 200; headers := json_headers; json := None; text := None |}.

(** A plain-text response. *)
Definition text_response (code : Z) (content : string) : Response :=
  {| status := code; headers := [("content-type", "text/html")];
     json := Some (Throw (mkJsError "SyntaxError" "Unexpected token <" None));
     text := Some (Ok content) |}.

End RetryNotions.

Module RequestNotions.
Import Js Api ApiNotions Samples.

(** The characters a query string is made of: the unreserved characters
    of the urlencoded serialisation, [+] for a space, [%] and hexadecimal
    digits for the rest, and the separators [=] and [&]. *)
Definition query_char (a : ascii) : bool :=
  let n := N_of_ascii a in
  is_alnum n || (n =? 42)%N || (n =? 45)%N || (n =? 46)%N || (n =? 95)%N
  || (n =? 43)%N || (n =? 37)%N || (n =? 61)%N || (n =? 38)%N.

Fixpoint all_chars (p : ascii -> bool) (s : string) : bool :=
  match s with
  | EmptyString => true
  | String a s' => p a && all_chars p s'
  end.

Fixpoint count_char (c : ascii) (s : string) : nat :=
  match s with
  | EmptyString => O
  | String a s' => ((if Ascii.eqb a c then 1 else 0) + count_char c s')%nat
  end.

Definition equals_sign : ascii := ascii_of_N 61.
Definition ampersand : ascii := ascii_of_N 38.

(** A key that needs encoding, and a value that tries to add a parameter. *)
Definition hostile_params : list (string * Value) :=
  [("q", VStr "a&admin=true"); ("page size", VNum 2); ("skip", VNull)].

End RequestNotions.

Module QueryNotions.
Import Js Api ApiNotions RequestNotions.

(** *** The order of the parameters *)

(** The key of the entry is an array index. *)
Definition indexed_key (kv : string * Value) : bool :=
  match array_index (fst kv) with Some _ => true | None => false end.

Definition named_key (kv : string * Value) : bool := negb (indexed_key kv).

Definition index_of (kv : string * Value) : N :=
  match array_index (fst kv) with Some i => i | None => 0%N end.

(** Entries in ascending order of their indices. *)
Definition ascending (entries : list (string * Value)) : Prop :=
  StronglySorted (fun a b => (index_of a <= index_of b)%N) entries.

(** *** The text of a parameter *)

(** The values the specification gives to a query parameter, strings and
    numbers (and booleans), with their text: a string as it is, a safe
    integer in decimal, a boolean as [true] or [false]. *)
Definition stringified (v : Value) : option string :=
  match v with
  | VStr s => Some s
  | VNum n => if Number_isSafeInteger n then Some (decimal n) else None
  | VBool b => Some (if b then "true" else "false")
  | _ => None
  end.

(** *** URL encoding *)

Definition hex_value (a : ascii) : option N :=
  let n := N_of_ascii a in
  if ((48 <=? n) && (n <=? 57))%N then Some (n - 48)%N
  else if ((65 <=? n) && (n <=? 70))%N then Some (n - 55)%N
  else if ((97 <=? n) && (n <=? 102))%N then Some (n - 87)%N
  else None.

(** Reading a component of a query string back: [+] is a space, [%XY]
    the byte with that hexadecimal code, any other character itself. *)
Fixpoint form_decode (s : string) : option string :=
  match s with
  | EmptyString => Some EmptyString
  | String a rest =>
      if (N_of_ascii a =? 43)%N then option_map (String (ascii_of_N 32)) (form_decode rest)
      else if (N_of_ascii a =? 37)%N then
        match rest with
        | String h (String l rest') =>
            match hex_value h, hex_value l, form_decode rest' with
            | Some x, Some y, Some t => Some (String (ascii_of_N (16 * x + y)) t)
            | _, _, _ => None
            end
        | _ => None
        end
      else option_map (String a) (form_decode rest)
  end.

(** The characters that need no encoding: letters, digits, [* - . _]. *)
Definition unreserved (a : ascii) : bool :=
  let n := N_of_ascii a in
  is_alnum n || (n =? 42)%N || (n =? 45)%N || (n =? 46)%N || (n =? 95)%N.

(** The characters of an encoded component: the former, [+] and [%]. *)
Definition component_char (a : ascii) : bool :=
  unreserved a || (N_of_ascii a =? 43)%N || (N_of_ascii a =? 37)%N.

(** [encoded] is the URL encoding of [s]: it reads back as [s], it is made
    of the characters of a component only, and it is [s] itself when [s]
    needs no encoding. *)
Definition url_encoded (s encoded : string) : Prop :=
  form_decode encoded = Some s
  /\ all_chars component_char encoded = true
  /\ (all_chars unreserved s = true -> encoded = s).

(** [part] is the text [k=v] of the parameter [kv]: its key and the text
    of its value, both URL-encoded. *)
Definition param_text (kv : string * Value) (part : string) : Prop :=
  exists text ek ev,
    stringified (snd kv) = Some text
    /\ url_encoded (fst kv) ek
    /\ url_encoded text ev
    /\ part = ek ++ "=" ++ ev.

(** The suffix of the URL: nothing without a part, else [?] and the
    parts joined by [&]. *)
Definition query_suffix (parts : list string) : string :=
  match parts with
  | [] => ""
  | _ :: _ => "?" ++ join "&" parts
  end.

(** Parameters in the order in which they are written. *)
Definition filters : list (string * Value) :=
  [("status", VStr "active"); ("1", VStr "x")].

Definition mixed_params : list (string * Value) :=
  [("q", VStr "a b&c"); ("10", VStr "x"); ("skip", VNull); ("2", VNum 7);
   ("done", VBool false)].

End QueryNotions.

(* ================================================================== *)
(** ** src/lib/config.js: writing the store *)
(* ================================================================== *)

Module ConfigOps.
Import Js.

(** The settings of the schema that hold an arbitrary string: [apiKey],
    [apiUrl], [tenant] and [defaultProject].  The store accepts every
    string for them; the other keys of the schema restrict their values
    ([outputFormat] to three words, [colorOutput] to booleans), and a key
    with a dot addresses a part of a setting. *)
Inductive Setting : Type :=
| apiKey_setting
| apiUrl_setting
| tenant_setting
| defaultProject_setting.

Definition setting_key (setting : Setting) : string :=
  match setting with
  | apiKey_setting => "apiKey"
  | apiUrl_setting => "apiUrl"
  | tenant_setting => "tenant"
  | defaultProject_setting => "defaultProject"
  end.

Section Writes.

(** What the store holds for a key once it has been deleted: nothing, or
    the default that the validation of its schema fills back in.  The
    store belongs to the conf package; the properties below hold for
    either answer. *)
Variable deleted : string -> option string.

(** [set(key, value)] for one of these settings and a string. *)
Definition set (c : Config.Store) (key : Setting) (value : string) : Config.Store :=
  {| Config.env := Config.env c;
     Config.stored := fun k => if (k =? setting_key key)%string then Some value
                               else Config.stored c k |}.

(** [remove(key)] *)
Definition remove (c : Config.Store) (key : string) : Config.Store :=
  {| Config.env := Config.env c;
     Config.stored := fun k => if (k =? key)%string then deleted key
                               else Config.stored c k |}.

(** [saveCredentials(apiKey, tenant)] *)
Definition saveCredentials (c : Config.Store) (apiKey : string) (tenant : option string)
  : Config.Store :=
  let c := set c apiKey_setting apiKey in
  if truthy_str tenant
  then set c tenant_setting (match tenant with Some t => t | None => "" end)
  else c.

(** [clearCredentials()] *)
Definition clearCredentials (c : Config.Store) : Config.Store :=
  remove (remove c "apiKey") "tenant".

End Writes.

(** [isConfigured()], as the condition its callers test:
    [apiKey && apiKey.startsWith('erold_')]. *)
Definition isConfigured (c : Config.Store) : bool :=
  let apiKey := Config.get c "apiKey" in
  truthy_str apiKey
  && String.prefix "erold_" (match apiKey with Some k => k | None => "" end).

(** The schema defaults of the two credentials. *)
Definition schema_default (key : string) : option string :=
  if (key =? "apiKey")%string then Some ""
  else if (key =? "tenant")%string then Some ""
  else None.

(** A store whose API key comes from the environment. *)
Definition ci_config : Config.Store :=
  {| Config.env := fun k => if (k =? "EROLD_APIKEY")%string
                            then Some "erold_ci_key" else None;
     Config.stored := fun k => if (k =? "apiKey")%string then Some "erold_disk_key"
                               else if (k =? "apiUrl")%string
                                    then Some "https://api.test.com"
                                    else None |}.

End ConfigOps.

(* ================================================================== *)
(** ** src/lib/output.js: format helpers *)
(* ================================================================== *)

(** In this module and the next a string is a sequence of UTF-16 code
    units below 256, one per element, so that [String.length] is the
    [length] of JavaScript. *)
Module Output.
Import Js.

(** [s.substring(0, n)]: a negative [n] counts as 0, one beyond the end as
    the length. *)
Definition substring0 (s : string) (n : Z) : string :=
  String.substring 0 (Z.to_nat n) s.

(** [truncate(str, length = 50)].  For [str], [None] is [null] or
    [undefined]; for [length], [None] is an argument left out (or
    [undefined]), which the default replaces, and [Some n] a number. *)
Definition truncate (str : option string) (length : option Z) : string :=
  let length := match length with Some n => n | None => 50 end in
  match str with
  | None => ""
  | Some s =>
      if (s =? "")%string then ""
      else if Z.of_nat (String.length s) >? length
           then substring0 s (length - 3) ++ "..."
           else s
  end.

(** [formatRelativeTime(date)].  [date] is [None] when the argument is
    falsy and otherwise the time value, in ms, of a valid date; [now] is
    the time value of [new Date()], and [formatDate] stands for
    [toLocaleDateString]. *)
Definition formatRelativeTime (formatDate : Z -> string) (now : Z) (date : option Z)
  : string :=
  match date with
  | None => "-"
  | Some then_ =>
      let diffMs := now - then_ in
      let diffMins := diffMs / 60000 in
      let diffHours := diffMins / 60 in
      let diffDays := diffHours / 24 in
      if diffMins <? 1 then "just now"
      else if diffMins <? 60 then decimal diffMins ++ "m ago"
      else if diffHours <? 24 then decimal diffHours ++ "h ago"
      else if diffDays <? 7 then decimal diffDays ++ "d ago"
      else formatDate then_
  end.

End Output.

(* ================================================================== *)
(** ** src/lib/git.js *)
(* ================================================================== *)

Module Git.
Import Js.

(** *** The string methods git.js uses *)

(** White space and line terminators, as [trim] sees them. *)
Definition is_space (a : ascii) : bool :=
  let n := N_of_ascii a in
  (((9 <=? n) && (n <=? 13)) || (n =? 32) || (n =? 160))%N.

Fixpoint trimStart (s : string) : string :=
  match s with
  | EmptyString => EmptyString
  | String a s' => if is_space a then trimStart s' else s
  end.

Fixpoint trimEnd (s : string) : string :=
  match s with
  | EmptyString => EmptyString
  | String a s' =>
      match trimEnd s' with
      | EmptyString => if is_space a then EmptyString else String a EmptyString
      | kept => String a kept
      end
  end.

(** [s.trim()] *)
Definition trim (s : string) : string := trimEnd (trimStart s).

Definition newline : ascii := ascii_of_N 10.

(** [s.split('\n')] *)
Fixpoint split_lines (s : string) : list string :=
  match s with
  | EmptyString => [EmptyString]
  | String a s' =>
      if Ascii.eqb a newline then EmptyString :: split_lines s'
      else match split_lines s' with
           | line :: rest => String a line :: rest
           | [] => [String a EmptyString]
           end
  end.

(** [Boolean(l)] of a string. *)
Definition nonempty (l : string) : bool := negb (l =? "")%string.

(** [l[i] !== c]; past the end [l[i]] is [undefined]. *)
Definition char_differs (l : string) (i : nat) (c : ascii) : bool :=
  match String.get i l with
  | Some a => negb (Ascii.eqb a c)
  | None => true
  end.

Definition space : ascii := ascii_of_N 32.
Definition question_mark : ascii := ascii_of_N 63.
Definition dash : ascii := ascii_of_N 45.

(** *** Working directory *)

(** What [execSync] gave: the output of the command, or the error it
    threw. *)
Definition Exec : Type := Result JsError string.

(** [isWorkingDirClean()], given what [git status --porcelain] gave. *)
Definition isWorkingDirClean (status : Exec) : bool :=
  match status with
  | Ok out => (trim out =? "")%string
  | Throw _ => false
  end.

Record Changes : Type := mkChanges {
  staged : nat;
  unstaged : nat;
  untracked : nat;
  total : nat
}.

Definition is_staged (l : string) : bool :=
  char_differs l 0 space && char_differs l 0 question_mark.

Definition is_unstaged (l : string) : bool :=
  char_differs l 1 space && char_differs l 0 question_mark.

Definition is_untracked (l : string) : bool := String.prefix "??" l.

(** [getChanges()], given what [git status --porcelain] gave. *)
Definition getChanges (status : Exec) : Changes :=
  match status with
  | Ok out =>
      let lines := filter nonempty (split_lines (trim out)) in
      {| staged := List.length (filter is_staged lines);
         unstaged := List.length (filter is_unstaged lines);
         untracked := List.length (filter is_untracked lines);
         total := List.length lines |}
  | Throw _ => {| staged := 0; unstaged := 0; untracked := 0; total := 0 |}
  end.

(** *** Task branches *)

(** [toLowerCase] on code units below 256. *)
Definition lower (a : ascii) : ascii :=
  let n := N_of_ascii a in
  if ((65 <=? n) && (n <=? 90))%N
     || ((192 <=? n) && (n <=? 222) && negb (n =? 215))%N
  then ascii_of_N (n + 32) else a.

Fixpoint toLowerCase (s : string) : string :=
  match s with
  | EmptyString => EmptyString
  | String a s' => String (lower a) (toLowerCase s')
  end.

(** The class [a-z0-9]. *)
Definition is_name_char (a : ascii) : bool :=
  let n := N_of_ascii a in
  (((97 <=? n) && (n <=? 122)) || ((48 <=? n) && (n <=? 57)))%N.

(** [s.replace(/[^a-z0-9]+/g, '-')]; [in_run] tells that the previous
    character belonged to the run being replaced. *)
Fixpoint replace_runs (in_run : bool) (s : string) : string :=
  match s with
  | EmptyString => EmptyString
  | String a s' =>
      if is_name_char a then String a (replace_runs false s')
      else if in_run then replace_runs true s'
           else String dash (replace_runs true s')
  end.

Fixpoint drop_last_dash (s : string) : string :=
  match s with
  | EmptyString => EmptyString
  | String a EmptyString => if Ascii.eqb a dash then EmptyString else s
  | String a s' => String a (drop_last_dash s')
  end.

(** [s.replace(/^-|-$/g, '')] *)
Definition strip_dashes (s : string) : string :=
  match s with
  | String a s' => if Ascii.eqb a dash then drop_last_dash s' else drop_last_dash s
  | EmptyString => EmptyString
  end.

(** The [safeName] of [createTaskBranch]. *)
Definition safeName (description : string) : string :=
  String.substring 0 50 (strip_dashes (replace_runs false (toLowerCase description))).

(** [createTaskBranch(taskId, description, prefix = 'feature')]: the
    branch name or [None] for [null], and the commands handed to
    [execSync].  [description] is [None] when it is not a string, in which
    case [toLowerCase] throws inside the [try]. *)
Definition createTaskBranch (execSync : string -> Exec)
           (taskId : string) (description : option string) (prefix : option string)
  : option string * list string :=
  let prefix := match prefix with Some p => p | None => "feature" end in
  match description with
  | None => (None, [])
  | Some d =>
      let branchName := prefix ++ "/task-" ++ taskId ++ "-" ++ safeName d in
      let command := "git checkout -b " ++ branchName in
      match execSync command with
      | Ok _ => (Some branchName, [command])
      | Throw _ => (None, [command])
      end
  end.

(** A character of a safe branch name. *)
Definition is_branch_char (a : ascii) : bool := is_name_char a || Ascii.eqb a dash.

Definition starts_with_dash (s : string) : bool :=
  match s with
  | String a _ => Ascii.eqb a dash
  | EmptyString => false
  end.

(** [s] has two dashes in a row. *)
Fixpoint double_dash (s : string) : bool :=
  match s with
  | String a ((String b _) as s') => (Ascii.eqb a dash && Ascii.eqb b dash) || double_dash s'
  | _ => false
  end.

(** A name made of branch characters, without two dashes in a row. *)
Definition well_dashed (s : string) : Prop :=
  RequestNotions.all_chars is_branch_char s = true /\ double_dash s = false.

End Git.

(* ================================================================== *)
(** ** src/lib/git.js: the patterns *)
(* ================================================================== *)

(** The regular expressions of git.js are sequences of single characters,
    character classes, greedy repetitions of a class and capture groups.
    [exec] below is the backtracking search [String.prototype.match]
    performs for such a sequence: the leftmost start at which the sequence
    matches, each repetition taking as many characters as the rest allows. *)
Module Pattern.
Import Js.

Inductive Atom : Type :=
| One (c : ascii -> bool)      (* a literal or a class, once *)
| Plus (c : ascii -> bool)     (* a class followed by [+] *)
| Open                         (* ( *)
| Close.                       (* ) *)

(** The text of the open group, if one is open. *)
Definition push (cur : option string) (a : ascii) : option string :=
  match cur with
  | Some t => Some (t ++ String a EmptyString)
  | None => None
  end.

Definition close (cur : option string) : string :=
  match cur with Some t => t | None => EmptyString end.

(** [c+] followed by the continuation [k]: longest repetition first. *)
Fixpoint plus_loop (c : ascii -> bool)
         (k : option string -> string -> option (list string))
         (cur : option string) (s : string) : option (list string) :=
  match s with
  | String a s' =>
      if c a then
        match plus_loop c k (push cur a) s' with
        | Some r => Some r
        | None => k (push cur a) s'
        end
      else None
  | EmptyString => None
  end.

(** The match of [atoms] at the beginning of [s]; the result lists the
    captures, [match[1]] first. *)
Fixpoint run (atoms : list Atom) (caps : list string) (cur : option string) (s : string)
  : option (list string) :=
  match atoms with
  | [] => Some caps
  | One c :: rest =>
      match s with
      | String a s' => if c a then run rest caps (push cur a) s' else None
      | EmptyString => None
      end
  | Plus c :: rest => plus_loop c (run rest caps) cur s
  | Open :: rest => run rest caps (Some EmptyString) s
  | Close :: rest => run rest (caps ++ [close cur])%list None s
  end.

(** [s.match(/atoms/)]: the captures of the leftmost match. *)
Fixpoint exec (atoms : list Atom) (s : string) : option (list string) :=
  match run atoms [] None s with
  | Some caps => Some caps
  | None =>
      match s with
      | String _ s' => exec atoms s'
      | EmptyString => None
      end
  end.

(** Classes *)
Definition char (x : ascii) : ascii -> bool := fun a => Ascii.eqb a x.
Definition char_i (x : ascii) : ascii -> bool :=
  fun a => Ascii.eqb (upper_ascii a) (upper_ascii x).
Definition either (x y : ascii) : ascii -> bool :=
  fun a => Ascii.eqb a x || Ascii.eqb a y.
Definition digit : ascii -> bool :=
  fun a => let n := N_of_ascii a in ((48 <=? n) && (n <=? 57))%N.
Definition upper : ascii -> bool :=
  fun a => let n := N_of_ascii a in ((65 <=? n) && (n <=? 90))%N.
Definition none_of (x : ascii) : ascii -> bool := fun a => negb (Ascii.eqb a x).
Definition none_of2 (x y : ascii) : ascii -> bool :=
  fun a => negb (Ascii.eqb a x) && negb (Ascii.eqb a y).

(** A literal string, character by character. *)
Fixpoint literal (s : string) : list Atom :=
  match s with
  | EmptyString => []
  | String a s' => One (char a) :: literal s'
  end.

(** What a pattern guarantees about its captures.  [g] is the state of
    the group where [atoms] starts: [None] outside of any group, [Some b]
    inside one, [b] telling whether it has consumed a character yet.  The
    pattern is well grouped for [P] when its parentheses are balanced,
    every group consumes at least one character, and every class used
    inside a group is included in [P]. *)
Fixpoint well_grouped (P : ascii -> bool) (g : option bool) (atoms : list Atom) : Prop :=
  match atoms with
  | [] => g = None
  | One c :: rest | Plus c :: rest =>
      match g with
      | Some _ => (forall a, c a = true -> P a = true) /\ well_grouped P (Some true) rest
      | None => well_grouped P None rest
      end
  | Open :: rest => g = None /\ well_grouped P (Some false) rest
  | Close :: rest => g = Some true /\ well_grouped P None rest
  end.

(** A capture that is not empty and made of characters of [P]. *)
Definition good (P : ascii -> bool) (t : string) : Prop :=
  RequestNotions.all_chars P t = true /\ t <> EmptyString.

(** The text of the open group agrees with the state [g]. *)
Definition agrees (P : ascii -> bool) (g : option bool) (cur : option string) : Prop :=
  match g, cur with
  | None, None => True
  | Some b, Some t => RequestNotions.all_chars P t = true /\ (b = true -> t <> EmptyString)
  | _, _ => False
  end.

(** [cur] after the group has taken all of [taken]. *)
Definition push_all (cur : option string) (taken : string) : option string :=
  match cur with
  | Some t => Some (t ++ taken)
  | None => None
  end.

(** [s] is empty or starts with a character outside the class [c]. *)
Definition stops (c : ascii -> bool) (s : string) : Prop :=
  match s with
  | String a _ => c a = false
  | EmptyString => True
  end.

End Pattern.

Module GitPatterns.
Import Js Pattern.

Definition slash : ascii := ascii_of_N 47.
Definition colon : ascii := ascii_of_N 58.
Definition dot : ascii := ascii_of_N 46.
Definition hyphen : ascii := ascii_of_N 45.
Definition underscore : ascii := ascii_of_N 95.

(** [/task[-/](\d+)/i] *)
Definition task_pattern : list Atom :=
  [One (char_i "t"); One (char_i "a"); One (char_i "s"); One (char_i "k");
   One (either hyphen slash); Open; Plus digit; Close].

(** [/([A-Z]+-\d+)/] *)
Definition jira_pattern : list Atom :=
  [Open; Plus upper; One (char hyphen); Plus digit; Close].

(** [/(\d+)[-_]/] *)
Definition number_pattern : list Atom :=
  [Open; Plus digit; Close; One (either hyphen underscore)].

Definition first_capture (m : option (list string)) : option string :=
  match m with
  | Some (x :: _) => Some x
  | _ => None
  end.

(** [extractTaskIdFromBranch(branch)]; [None] is [null] or [undefined]. *)
Definition extractTaskIdFromBranch (branch : option string) : option string :=
  match branch with
  | None => None
  | Some b =>
      if (b =? "")%string then None
      else
        match exec task_pattern b with
        | Some m => first_capture (Some m)
        | None =>
            match exec jira_pattern b with
            | Some m => first_capture (Some m)
            | None => first_capture (exec number_pattern b)
            end
        end
  end.

(** [/<host>[:/]([^/]+)\/([^/.]+)/], the dot of the host escaped. *)
Definition remote_pattern (host : string) : list Atom :=
  (literal host
   ++ [One (either colon slash); Open; Plus (none_of slash); Close;
       One (char slash); Open; Plus (none_of2 slash dot); Close])%list.

Definition owner_repo (m : option (list string)) : option (string * string) :=
  match m with
  | Some (owner :: repo :: _) => Some (owner, repo)
  | _ => None
  end.

(** [parseRemoteUrl(url)]; the result is [{ owner, repo }] or [null]. *)
Definition parseRemoteUrl (url : option string) : option (string * string) :=
  match url with
  | None => None
  | Some u =>
      if (u =? "")%string then None
      else
        match exec (remote_pattern "github.com") u with
        | Some m => owner_repo (Some m)
        | None =>
            match exec (remote_pattern "gitlab.com") u with
            | Some m => owner_repo (Some m)
            | None => owner_repo (exec (remote_pattern "bitbucket.org") u)
            end
        end
  end.

(** [getTaskIdFromBranch()], given what [git rev-parse --abbrev-ref HEAD]
    gave to [getCurrentBranch]. *)
Definition getCurrentBranch (head : Git.Exec) : option string :=
  match head with
  | Ok out => Some (Git.trim out)
  | Throw _ => None
  end.

Definition getTaskIdFromBranch (head : Git.Exec) : option string :=
  extractTaskIdFromBranch (getCurrentBranch head).

(** The characters of a task id: [A-Z], [0-9] and [-]. *)
Definition id_char (a : ascii) : bool := upper a || digit a || Ascii.eqb a hyphen.

Definition not_digit (a : ascii) : bool := negb (digit a).

End GitPatterns.

(* ================================================================== *)
(** ** Properties *)
(* ================================================================== *)

Import Js Api ApiNotions Samples.

(** *** Absent settings *)

(** A setting is falsy exactly when it is absent or empty. *)
Lemma truthy_str_false (o : option string) :
  truthy_str o = false <-> o = None \/ o = Some "".
Proof.
  split.
  - destruct o as [s |]; simpl; [| auto].
    destruct (String.eqb_spec s ""); [subst; auto | discriminate].
  - intros [-> | ->]; reflexivity.
Qed.

(** *** The retry loop *)

Lemma after_loop_ApiError (lastError : option Exn) :
  exists a, after_loop lastError = Thrown (ExApi a).
Proof.
  destruct lastError as [[a | e] | ]; simpl; eauto.
Qed.

Lemma is_client_error_ApiError (error : Exn) :
  is_client_error error = true -> exists a, error = ExApi a.
Proof.
  destruct error as [a | e]; simpl; [eauto | discriminate].
Qed.

(** Whatever the loop throws is an [ApiError]. *)
Lemma attempts_throw_ApiError net url fo remaining :
  forall attempt n timer lastError trace e,
    fst (attempts net url fo remaining attempt n timer lastError trace) = Thrown e ->
    exists a, e = ExApi a.
Proof.
  induction remaining as [| remaining IH]; intros attempt n timer lastError trace e;
    cbn [attempts fst].
  - destruct (after_loop_ApiError lastError) as [a ->]. intros [= <-]. eauto.
  - destruct (await_fetch timer (net n)) as [settled | ]; [| discriminate].
    destruct (try_block settled) as [[v | error] |]; [discriminate | | discriminate].
    destruct (is_client_error error) eqn:Hce.
    + intros [= <-]. now apply is_client_error_ApiError.
    + destruct (name_of error =? "AbortError")%string.
      * intros [= <-]. eauto.
      * destruct (attempt =? MAX_RETRIES).
        -- destruct error as [a | e']; simpl; intros [= <-]; eauto.
        -- apply IH.
Qed.

Lemma request_unfold c net endpoint options :
  request c net endpoint options =
  if negb (authenticated c) then (Thrown (ExApi not_authenticated), [])
  else attempts net (full_url c endpoint) (fetch_options c options)
                (Z.to_nat MAX_RETRIES) 1 0%nat (Some (timer_delay options)) None [].
Proof. reflexivity. Qed.

Lemma request_throw_ApiError c net endpoint options e :
  fst (request c net endpoint options) = Thrown e -> exists a, e = ExApi a.
Proof.
  rewrite request_unfold. destruct (negb (authenticated c)).
  - intros [= <-]. eauto.
  - apply attempts_throw_ApiError.
Qed.

(** The trace of the loop extends the trace it starts from, and every
    event it adds is a [fetch] of the same URL with the same options, or a
    back-off sleep. *)
Lemma attempts_trace net url fo remaining :
  forall attempt n timer lastError trace,
    exists added,
      snd (attempts net url fo remaining attempt n timer lastError trace)
      = (trace ++ added)%list
      /\ Forall (own_event url fo) added.
Proof.
  induction remaining as [| remaining IH]; intros attempt n timer lastError trace;
    cbn [attempts snd].
  - exists []. now rewrite app_nil_r.
  - assert (Hone : Forall (own_event url fo) [EvFetch url fo])
      by (repeat constructor).
    destruct (await_fetch timer (net n)) as [settled | ]; [| now eexists].
    destruct (try_block settled) as [[v | error] |]; [now eexists | | now eexists].
    destruct (is_client_error error); [now eexists |].
    destruct (name_of error =? "AbortError")%string; [now eexists |].
    destruct (attempt =? MAX_RETRIES); [now eexists |].
    destruct (IH (attempt + 1) (S n) None (Some error)
                 ((trace ++ [EvFetch url fo]) ++ [EvSleep (RETRY_DELAY * attempt)])%list)
      as (added & -> & Hadded).
    exists (EvFetch url fo :: EvSleep (RETRY_DELAY * attempt) :: added). split.
    + now rewrite <- !app_assoc.
    + constructor; [now left |]. constructor; [right; eauto | assumption].
Qed.

(** A loop that is entered issues its first [fetch] at once. *)
Lemma attempts_first_fetch net url fo remaining attempt n timer lastError :
  exists rest,
    snd (attempts net url fo (S remaining) attempt n timer lastError [])
    = EvFetch url fo :: rest.
Proof.
  cbn [attempts app].
  destruct (await_fetch timer (net n)) as [settled | ]; [| now eexists].
  destruct (try_block settled) as [[v | error] |]; [now eexists | | now eexists].
  destruct (is_client_error error); [now eexists |].
  destruct (name_of error =? "AbortError")%string; [now eexists |].
  destruct (attempt =? MAX_RETRIES); [now eexists |].
  destruct (attempts_trace net url fo remaining (attempt + 1) (S n) None (Some error)
              [EvFetch url fo; EvSleep (RETRY_DELAY * attempt)])
    as (added & -> & _).
  now eexists.
Qed.

(** Every [fetch] of [request] goes to [apiUrl + endpoint] with the
    options built from the caller's. *)
Lemma request_fetches c net endpoint options url fo :
  In (EvFetch url fo) (snd (request c net endpoint options)) ->
  url = full_url c endpoint /\ fo = fetch_options c options.
Proof.
  rewrite request_unfold. destruct (negb (authenticated c)); [intros [] |].
  destruct (attempts_trace net (full_url c endpoint) (fetch_options c options)
              (Z.to_nat MAX_RETRIES) 1 0%nat (Some (timer_delay options)) None [])
    as (added & -> & Hadded).
  simpl. intros Hin. rewrite Forall_forall in Hadded.
  destruct (Hadded _ Hin) as [[= -> ->] | [ms [=]]]. now split.
Qed.

Lemma request_first_fetch c net endpoint options :
  authenticated c = true ->
  exists rest,
    snd (request c net endpoint options)
    = EvFetch (full_url c endpoint) (fetch_options c options) :: rest.
Proof.
  intros Hkey. rewrite request_unfold, Hkey. simpl negb. cbv iota.
  change (Z.to_nat MAX_RETRIES) with 3%nat.
  apply attempts_first_fetch.
Qed.

(** *** The four verbs *)

Lemma run_verb_encoded c net vc :
  encoding_error vc = None ->
  exists endpoint options,
    run_verb c net vc = request c net endpoint options
    /\ opt_headers options = None.
Proof.
  destruct vc as [e params | e data | e data | e]; simpl;
    unfold get, post, patch, del.
  - destruct (Object_entries _); [eauto | discriminate].
  - destruct (JSON_stringify _); [eauto | discriminate].
  - destruct (JSON_stringify _); [eauto | discriminate].
  - eauto.
Qed.

Lemma run_verb_not_encoded c net vc te :
  encoding_error vc = Some te -> run_verb c net vc = (Thrown (ExRaw te), []).
Proof.
  destruct vc as [e params | e data | e data | e]; simpl;
    unfold get, post, patch, del.
  - destruct (Object_entries _); [discriminate | now intros [= ->]].
  - destruct (JSON_stringify _); [discriminate | now intros [= ->]].
  - destruct (JSON_stringify _); [discriminate | now intros [= ->]].
  - discriminate.
Qed.

(** C1, as the code has it.  A failure of [get], [post], [patch] or [del]
    is exactly one [ApiError] whenever it comes out of [request]: missing
    key, rejected [fetch], unreadable response body, abort by the timer and
    HTTP status are all translated.  The only other failure is the
    exception thrown while the argument is encoded, before [request] is
    entered ([Object.entries] on the params of [get], [JSON.stringify] on
    the body of [post] and [patch]); it propagates as it is, and no [fetch]
    has been issued. *)
Theorem verb_failure_is_ApiError_or_encoding_error c net vc e :
  fst (run_verb c net vc) = Thrown e ->
  (exists a, e = ExApi a)
  \/ (exists te, encoding_error vc = Some te
                 /\ e = ExRaw te
                 /\ snd (run_verb c net vc) = []).
Proof.
  intros Hthrown. destruct (encoding_error vc) as [te |] eqn:Henc.
  - right. exists te. rewrite (run_verb_not_encoded c net vc te Henc) in *.
    simpl in Hthrown. injection Hthrown as <-. auto.
  - left. destruct (run_verb_encoded c net vc Henc) as (endpoint & options & Heq & _).
    rewrite Heq in Hthrown. eapply request_throw_ApiError; eassumption.
Qed.

Lemma verb_failure_witness :
  fst (run_verb test_config offline (CallGet "/me" VUndefined))
  = Thrown (ExApi (new_ApiError "fetch failed" 500 VUndefined))
  /\ ((exists a, ExApi (new_ApiError "fetch failed" 500 VUndefined) = ExApi a)
      \/ (exists te, encoding_error (CallGet "/me" VUndefined) = Some te
                     /\ ExApi (new_ApiError "fetch failed" 500 VUndefined) = ExRaw te
                     /\ snd (run_verb test_config offline (CallGet "/me" VUndefined)) = [])).
Proof.
  split; [reflexivity |].
  apply (verb_failure_is_ApiError_or_encoding_error
           test_config offline (CallGet "/me" VUndefined)).
  reflexivity.
Defined.

(** C1, as stated, fails: a body that [JSON.stringify] cannot serialise
    makes [post] fail with the raw [TypeError]. *)
Lemma post_bigint_body_throws_raw_TypeError :
  fst (post test_config offline "/tasks" (VObj [("estimate", VBigInt 10)]))
  = Thrown (ExRaw (TypeError "Do not know how to serialize a BigInt"))
  /\ ~ (exists a,
         fst (post test_config offline "/tasks" (VObj [("estimate", VBigInt 10)]))
         = Thrown (ExApi a)).
Proof.
  split; [reflexivity |]. intros [a Ha]. discriminate Ha.
Qed.

(** C2.  Without an API key every request fails at once with the 401
    [ApiError] and [fetch] is never called: so does [request] for any
    endpoint and options, and so does each verb that reaches it; a verb
    that fails to encode its argument did not issue a request, and did not
    call [fetch] either. *)
Theorem no_api_key_fails_401_without_fetch c net :
  Config.apiKey (Config.getApiConfig c) = None
  \/ Config.apiKey (Config.getApiConfig c) = Some "" ->
  statusCode not_authenticated = 401
  /\ (forall endpoint options,
        request c net endpoint options = (Thrown (ExApi not_authenticated), []))
  /\ (forall vc, encoding_error vc = None ->
                 run_verb c net vc = (Thrown (ExApi not_authenticated), []))
  /\ (forall vc, snd (run_verb c net vc) = []).
Proof.
  intros Hkey. apply truthy_str_false in Hkey. fold (authenticated c) in Hkey.
  assert (Hreq : forall endpoint options,
             request c net endpoint options = (Thrown (ExApi not_authenticated), [])).
  { intros endpoint options. rewrite request_unfold, Hkey. reflexivity. }
  assert (Hverb : forall vc, encoding_error vc = None ->
                             run_verb c net vc = (Thrown (ExApi not_authenticated), [])).
  { intros vc Henc. destruct (run_verb_encoded c net vc Henc) as (ep & o & -> & _).
    apply Hreq. }
  repeat split; try assumption.
  intros vc. destruct (encoding_error vc) as [te |] eqn:Henc.
  - now rewrite (run_verb_not_encoded c net vc te Henc).
  - now rewrite (Hverb vc Henc).
Qed.

Lemma no_api_key_witness :
  Config.apiKey (Config.getApiConfig logged_out) = Some ""
  /\ get logged_out (always (json_response 200 VNull)) "/me" VUndefined
     = (Thrown (ExApi not_authenticated), []).
Proof.
  split; [reflexivity |].
  apply (proj1 (proj2 (proj2 (no_api_key_fails_401_without_fetch
                                logged_out (always (json_response 200 VNull))
                                (or_intror eq_refl))))
               (CallGet "/me" VUndefined)).
  reflexivity.
Defined.

(** *** One iteration of the loop *)

Lemma attempts_settled net url fo remaining attempt n timer lastError trace settled :
  await_fetch timer (net n) = Some settled ->
  attempts net url fo (S remaining) attempt n timer lastError trace
  = continue_with net url fo remaining attempt n (trace ++ [EvFetch url fo])%list
                  (try_block settled).
Proof.
  intros Hsettled. cbn [attempts]. rewrite Hsettled. reflexivity.
Qed.

Lemma await_in_time t ms r :
  ms < t -> await_fetch (Some t) (NetResolves ms r) = Some (Ok r).
Proof.
  intros Hlt. simpl. apply Z.ltb_lt in Hlt. now rewrite Hlt.
Qed.

(** The first iteration of an authenticated request whose first response
    arrives before the timer fires. *)
Lemma request_first_response c net endpoint options ms r :
  authenticated c = true ->
  net 0%nat = NetResolves ms r ->
  ms < timer_delay options ->
  request c net endpoint options
  = continue_with net (full_url c endpoint) (fetch_options c options) 2 1 0
                  [EvFetch (full_url c endpoint) (fetch_options c options)]
                  (try_block (Ok r)).
Proof.
  intros Hkey Hnet Hlt. rewrite request_unfold, Hkey. cbn [negb].
  change (Z.to_nat MAX_RETRIES) with 3%nat.
  apply attempts_settled. rewrite Hnet. now apply await_in_time.
Qed.

(** A later iteration: the timer is cleared, so a response is taken
    however late it comes. *)
Lemma attempts_later_response net url fo remaining attempt n lastError trace ms r :
  net n = NetResolves ms r ->
  attempts net url fo (S remaining) attempt n None lastError trace
  = continue_with net url fo remaining attempt n (trace ++ [EvFetch url fo])%list
                  (try_block (Ok r)).
Proof.
  intros Hnet. apply attempts_settled. now rewrite Hnet.
Qed.

Lemma try_block_429 r data :
  status r = 429 -> read_body r = Some (Ok data) ->
  try_block (Ok r) = Some (Throw (ExApi (rate_limited r))).
Proof.
  intros Hstatus Hbody. unfold try_block, classify. now rewrite Hbody, Hstatus.
Qed.

Lemma try_block_client_error r data :
  400 <= status r < 500 -> status r <> 429 -> read_body r = Some (Ok data) ->
  try_block (Ok r) = Some (Throw (ExApi (http_error r data))).
Proof.
  intros Hrange Hnot Hbody. unfold try_block, classify, ok. rewrite Hbody.
  apply Z.eqb_neq in Hnot. rewrite Hnot.
  replace (status r <=? 299) with false by (symmetry; apply Z.leb_gt; lia).
  now rewrite andb_false_r.
Qed.

Lemma try_block_ok r data :
  ok r = true -> read_body r = Some (Ok data) -> try_block (Ok r) = Some (Ok (unwrap data)).
Proof.
  intros Hok Hbody. unfold try_block, classify. rewrite Hbody, Hok.
  replace (status r =? 429) with false; [reflexivity |].
  symmetry. apply Z.eqb_neq. unfold ok in Hok.
  apply andb_prop in Hok as [_ Hle]. apply Z.leb_le in Hle. lia.
Qed.

(** *** Rate limiting *)

(** C3, as the code has it.  When all three attempts are answered with
    status 429 and each body is read without error, the executor calls
    [fetch] three times, sleeping 1000 ms and 2000 ms in between, and then
    throws the [ApiError] of the third response: status 429, a message
    that contains "Rate limited" and names the Retry-After value of that
    response, or 60 when the header is absent. *)
Theorem rate_limited_after_three_attempts
        c net endpoint options ms1 ms2 ms3 r1 r2 r3 d1 d2 d3 :
  authenticated c = true ->
  net 0%nat = NetResolves ms1 r1 -> ms1 < timer_delay options ->
  net 1%nat = NetResolves ms2 r2 ->
  net 2%nat = NetResolves ms3 r3 ->
  status r1 = 429 -> status r2 = 429 -> status r3 = 429 ->
  read_body r1 = Some (Ok d1) -> read_body r2 = Some (Ok d2) -> read_body r3 = Some (Ok d3) ->
  let fetched := EvFetch (full_url c endpoint) (fetch_options c options) in
  request c net endpoint options
  = (Thrown (ExApi (rate_limited r3)),
     [fetched; EvSleep 1000; fetched; EvSleep 2000; fetched])
  /\ statusCode (rate_limited r3) = 429
  /\ includes (message (rate_limited r3)) "Rate limited" = true
  /\ message (rate_limited r3)
     = "Rate limited. Try again in " ++ retry_after r3 ++ " seconds."
  /\ (headers_get r3 "retry-after" = None -> retry_after r3 = "60")
  /\ (forall s, headers_get r3 "retry-after" = Some s -> s <> "" -> retry_after r3 = s).
Proof.
  intros Hkey Hn1 Hlt Hn2 Hn3 Hs1 Hs2 Hs3 Hb1 Hb2 Hb3 fetched.
  repeat split.
  - rewrite (request_first_response c net endpoint options ms1 r1 Hkey Hn1 Hlt).
    rewrite (try_block_429 r1 d1 Hs1 Hb1). cbn -[attempts rate_limited].
    rewrite (attempts_later_response _ _ _ _ _ _ _ _ ms2 r2 Hn2).
    rewrite (try_block_429 r2 d2 Hs2 Hb2). cbn -[attempts rate_limited].
    rewrite (attempts_later_response _ _ _ _ _ _ _ _ ms3 r3 Hn3).
    rewrite (try_block_429 r3 d3 Hs3 Hb3). reflexivity.
  - intros Hnone. unfold retry_after. now rewrite Hnone.
  - intros s Hsome Hne. unfold retry_after. rewrite Hsome. simpl.
    apply String.eqb_neq in Hne. now rewrite Hne.
Qed.

Lemma rate_limited_witness :
  request test_config (always rate_limit_429) "/test" no_options
  = (Thrown (ExApi (new_ApiError "Rate limited. Try again in 60 seconds." 429 VNull)),
     [fetch_test; EvSleep 1000; fetch_test; EvSleep 2000; fetch_test]).
Proof.
  apply (proj1 (rate_limited_after_three_attempts
                  test_config (always rate_limit_429) "/test" no_options
                  20 20 20 rate_limit_429 rate_limit_429 rate_limit_429
                  (VObj []) (VObj []) (VObj [])
                  eq_refl eq_refl eq_refl eq_refl eq_refl
                  eq_refl eq_refl eq_refl eq_refl eq_refl eq_refl)).
Defined.

(** C3, as stated, fails: three 429 responses that announce JSON and carry
    an empty body end in an [ApiError] with status 500, because the body is
    parsed before the status is looked at. *)
Lemma rate_limited_with_unreadable_body_surfaces_500 :
  (forall n, always (empty_json_response 429) n
             = NetResolves 20 (empty_json_response 429))
  /\ status (empty_json_response 429) = 429
  /\ request test_config (always (empty_json_response 429)) "/test" no_options
     = (Thrown (ExApi (new_ApiError "Unexpected end of JSON input" 500 VNull)),
        [fetch_test; EvSleep 1000; fetch_test; EvSleep 2000; fetch_test])
  /\ statusCode (new_ApiError "Unexpected end of JSON input" 500 VNull) <> 429.
Proof.
  repeat split. discriminate.
Qed.

(** *** Client errors *)

(** C4, as the code has it.  A response with a status from 400 to 499
    other than 429 whose body is read without error ends the call: the
    executor throws the [ApiError] built from that response (its status,
    the message of the body or "HTTP <status>", the details of the body)
    and neither sleeps nor calls [fetch] again.  When it is the first
    response, [fetch] has been called exactly once. *)
Theorem client_error_is_not_retried c net endpoint options r data :
  400 <= status r < 500 -> status r <> 429 ->
  read_body r = Some (Ok data) ->
  (forall ms,
      authenticated c = true ->
      net 0%nat = NetResolves ms r -> ms < timer_delay options ->
      request c net endpoint options
      = (Thrown (ExApi (http_error r data)),
         [EvFetch (full_url c endpoint) (fetch_options c options)]))
  /\ (forall url fo remaining attempt n timer lastError trace,
        await_fetch timer (net n) = Some (Ok r) ->
        attempts net url fo (S remaining) attempt n timer lastError trace
        = (Thrown (ExApi (http_error r data)), (trace ++ [EvFetch url fo])%list))
  /\ statusCode (http_error r data) = status r
  /\ message (http_error r data)
     = to_String (or_else (or_else (opt_chain (opt_chain data "error") "message")
                                   (opt_chain data "message"))
                          (VStr ("HTTP " ++ decimal (status r))))
  /\ details (http_error r data)
     = default_arg (opt_chain (opt_chain data "error") "details") VNull.
Proof.
  intros Hrange Hnot Hbody.
  assert (Hstop : forall url fo remaining attempt n trace,
             continue_with net url fo remaining attempt n trace (try_block (Ok r))
             = (Thrown (ExApi (http_error r data)), trace)).
  { intros. rewrite (try_block_client_error r data Hrange Hnot Hbody).
    unfold continue_with, is_client_error.
    replace (statusCode (http_error r data)) with (status r) by reflexivity.
    apply Z.eqb_neq in Hnot. rewrite Hnot.
    replace (400 <=? status r) with true by (symmetry; apply Z.leb_le; lia).
    replace (status r <? 500) with true by (symmetry; apply Z.ltb_lt; lia).
    reflexivity. }
  repeat split.
  - intros ms Hkey Hnet Hlt.
    rewrite (request_first_response c net endpoint options ms r Hkey Hnet Hlt).
    apply Hstop.
  - intros url fo remaining attempt n timer lastError trace Hsettled.
    rewrite (attempts_settled _ _ _ _ _ _ _ _ _ _ Hsettled). apply Hstop.
Qed.

Lemma client_error_witness :
  request test_config (always not_found_404) "/test" no_options
  = (Thrown (ExApi (new_ApiError "Not found" 404 VNull)), [fetch_test]).
Proof.
  refine (proj1 (client_error_is_not_retried
                   test_config (always not_found_404) "/test" no_options
                   not_found_404
                   (VObj [("error", VObj [("message", VStr "Not found")])])
                   _ _ _)
                20 _ _ _);
    try reflexivity; simpl; lia.
Defined.

(** C4, as stated, fails: a 404 response that announces JSON and carries
    an empty body is retried twice, and the call ends in an [ApiError]
    with status 500. *)
Lemma not_found_with_unreadable_body_is_retried :
  (forall n, always (empty_json_response 404) n
             = NetResolves 20 (empty_json_response 404))
  /\ status (empty_json_response 404) = 404
  /\ request test_config (always (empty_json_response 404)) "/test" no_options
     = (Thrown (ExApi (new_ApiError "Unexpected end of JSON input" 500 VNull)),
        [fetch_test; EvSleep 1000; fetch_test; EvSleep 2000; fetch_test])
  /\ List.length
       (fetches (snd (request test_config (always (empty_json_response 404))
                              "/test" no_options)))
     = 3%nat.
Proof.
  repeat split.
Qed.

(** *** The timeout *)

(** While the first [fetch] is in flight the timer is armed: when it
    expires, the call fails with the 408 [ApiError] and is not retried. *)
Lemma timer_expiry_during_first_attempt c net endpoint options :
  authenticated c = true ->
  in_flight_at (net 0%nat) (timer_delay options) = true ->
  request c net endpoint options
  = (Thrown (ExApi timed_out),
     [EvFetch (full_url c endpoint) (fetch_options c options)]).
Proof.
  intros Hkey Hflight. rewrite request_unfold, Hkey. cbn [negb].
  change (Z.to_nat MAX_RETRIES) with 3%nat.
  rewrite (attempts_settled _ _ _ _ _ _ _ _ _ (Throw AbortError)); [reflexivity |].
  unfold await_fetch. destruct (net 0%nat) as [ms r | ms e | ]; simpl in Hflight.
  - apply Z.leb_le in Hflight. now replace (ms <? timer_delay options) with false
      by (symmetry; apply Z.ltb_ge; lia).
  - apply Z.leb_le in Hflight. now replace (ms <? timer_delay options) with false
      by (symmetry; apply Z.ltb_ge; lia).
  - reflexivity.
Qed.

(** From the second attempt on the timer is cleared: when the first
    attempt fails with a network error and the second [fetch] never
    settles, neither does the call, whatever the timeout was. *)
Lemma no_timer_after_first_attempt c net endpoint options ms e :
  authenticated c = true ->
  net 0%nat = NetRejects ms e -> ms < timer_delay options ->
  err_name e <> "AbortError" ->
  net 1%nat = NetHangs ->
  request c net endpoint options
  = (Pending,
     [EvFetch (full_url c endpoint) (fetch_options c options);
      EvSleep 1000;
      EvFetch (full_url c endpoint) (fetch_options c options)]).
Proof.
  intros Hkey Hn0 Hlt Hname Hn1. rewrite request_unfold, Hkey. cbn [negb].
  change (Z.to_nat MAX_RETRIES) with 3%nat.
  rewrite (attempts_settled _ _ _ _ _ _ _ _ _ (Throw e)).
  - apply String.eqb_neq in Hname. cbn -[attempts]. rewrite Hname.
    cbn [attempts]. rewrite Hn1. reflexivity.
  - rewrite Hn0. simpl. apply Z.ltb_lt in Hlt. now rewrite Hlt.
Qed.

(** C5 at the failing input: the default 30 s timeout, a connection error
    after 5 ms, then a server that never answers.  The timer was cleared
    when the first attempt failed, the second [fetch] is never aborted, and
    the promise of the call stays pending: no 408 is ever thrown. *)
Theorem retry_runs_without_timer :
  timer_delay no_options = 30000
  /\ stalls_on_retry 0%nat = NetRejects 5 fetch_failed
  /\ in_flight_at (stalls_on_retry 1%nat) (timer_delay no_options) = true
  /\ request test_config stalls_on_retry "/test" no_options
     = (Pending, [fetch_test; EvSleep 1000; fetch_test]).
Proof.
  repeat split.
Qed.

(** *** The response envelope *)

Lemma await_fetch_resolved timer ev r :
  await_fetch timer ev = Some (Ok r) -> exists ms, ev = NetResolves ms r.
Proof.
  unfold await_fetch.
  destruct timer as [t |], ev as [ms r' | ms e | ];
    try destruct (ms <? t); intros [= <-] || discriminate; eauto.
Qed.

Lemma try_block_returns settled v :
  try_block settled = Some (Ok v) ->
  exists r parsed,
    settled = Ok r /\ ok r = true /\ read_body r = Some (Ok parsed) /\ v = unwrap parsed.
Proof.
  destruct settled as [r | e]; simpl; [| discriminate].
  destruct (read_body r) as [[parsed | e] |] eqn:Hbody; [| discriminate | discriminate].
  unfold classify. destruct (status r =? 429); [discriminate |].
  destruct (ok r) eqn:Hok; simpl; [| discriminate].
  intros [= <-]. exists r, parsed. auto.
Qed.

(** A value the loop returns is the unwrapped body of a successful
    response. *)
Lemma attempts_returned net url fo remaining :
  forall attempt n timer lastError trace v,
    fst (attempts net url fo remaining attempt n timer lastError trace) = Returned v ->
    exists k ms r parsed,
      net k = NetResolves ms r /\ ok r = true
      /\ read_body r = Some (Ok parsed) /\ v = unwrap parsed.
Proof.
  induction remaining as [| remaining IH]; intros attempt n timer lastError trace v;
    cbn [attempts fst].
  - destruct (after_loop_ApiError lastError) as [a ->]. discriminate.
  - destruct (await_fetch timer (net n)) as [settled | ] eqn:Hawait; [| discriminate].
    destruct (try_block settled) as [[v' | error] |] eqn:Htry.
    + intros [= <-].
      destruct (try_block_returns _ _ Htry) as (r & parsed & -> & Hok & Hbody & ->).
      destruct (await_fetch_resolved _ _ _ Hawait) as [ms Hnet].
      exists n, ms, r, parsed. auto.
    + destruct (is_client_error error); [discriminate |].
      destruct (name_of error =? "AbortError")%string; [discriminate |].
      destruct (attempt =? MAX_RETRIES).
      * destruct (after_loop_ApiError (Some error)) as [a ->]. discriminate.
      * apply IH.
    + discriminate.
Qed.

(** C6.  What a call returns is the unwrapped body of a successful (2xx)
    response: the value under [data] when the parsed body has that key (a
    parsed JSON value is never [undefined]), so that unwrapping
    [{ data: X }] gives back [X], and the parsed body itself, unchanged,
    when it has no [data] key.  A successful first response is returned
    after a single [fetch]. *)
Theorem envelope_is_unwrapped c net endpoint options :
  (forall v,
      fst (request c net endpoint options) = Returned v ->
      exists k ms r parsed,
        net k = NetResolves ms r /\ ok r = true
        /\ read_body r = Some (Ok parsed) /\ v = unwrap parsed)
  /\ (forall ms r parsed,
        authenticated c = true ->
        net 0%nat = NetResolves ms r -> ms < timer_delay options ->
        ok r = true -> read_body r = Some (Ok parsed) ->
        request c net endpoint options
        = (Returned (unwrap parsed),
           [EvFetch (full_url c endpoint) (fetch_options c options)]))
  /\ (forall fields X,
        lookup fields "data" = Some X -> X <> VUndefined -> unwrap (VObj fields) = X)
  /\ (forall X, X <> VUndefined -> unwrap (VObj [("data", X)]) = X)
  /\ (forall parsed,
        (forall fields, parsed = VObj fields -> lookup fields "data" = None) ->
        unwrap parsed = parsed).
Proof.
  repeat split.
  - intros v. rewrite request_unfold. destruct (negb (authenticated c)); [discriminate |].
    apply attempts_returned.
  - intros ms r parsed Hkey Hnet Hlt Hok Hbody.
    rewrite (request_first_response c net endpoint options ms r Hkey Hnet Hlt).
    now rewrite (try_block_ok r parsed Hok Hbody).
  - intros fields X Hdata HX. unfold unwrap. simpl. rewrite Hdata.
    destruct X; try reflexivity. contradiction.
  - intros X HX. unfold unwrap. simpl. destruct X; try reflexivity. contradiction.
  - intros parsed Hnone. unfold unwrap.
    destruct parsed; try reflexivity. simpl. now rewrite (Hnone fields eq_refl).
Qed.

Lemma envelope_witness :
  get test_config (always (json_response 200 (VObj [("data", VObj [("id", VStr "123")])])))
      "/test" VUndefined
  = (Returned (VObj [("id", VStr "123")]), [fetch_test])
  /\ unwrap (VObj [("data", VObj [("id", VStr "123")])]) = VObj [("id", VStr "123")]
  /\ unwrap (VObj [("success", VBool true)]) = VObj [("success", VBool true)].
Proof.
  pose proof (envelope_is_unwrapped
                test_config
                (always (json_response 200 (VObj [("data", VObj [("id", VStr "123")])])))
                "/test" (just_method "GET")) as (_ & Hfirst & Hdata & _ & Hraw).
  split; [| split].
  - apply (Hfirst 20 (json_response 200 (VObj [("data", VObj [("id", VStr "123")])]))
                  (VObj [("data", VObj [("id", VStr "123")])]));
      reflexivity.
  - apply Hdata; [reflexivity | discriminate].
  - apply Hraw. intros fields [= <-]. reflexivity.
Defined.

(** *** The query string *)

Lemma add_param_survives kv sp :
  add_param sp kv
  = if survives kv then (sp ++ [(fst kv, to_String (snd kv))])%list else sp.
Proof.
  destruct kv as [k v]. unfold add_param, survives, sp_append. simpl.
  destruct v; try reflexivity.
Qed.

Lemma fold_add_param entries :
  forall sp,
    fold_left add_param entries sp
    = (sp ++ map (fun kv => (fst kv, to_String (snd kv))) (filter survives entries))%list.
Proof.
  induction entries as [| kv entries IH]; intros sp; simpl.
  - now rewrite app_nil_r.
  - rewrite IH, add_param_survives. destruct (survives kv); [| reflexivity].
    simpl. now rewrite <- app_assoc.
Qed.

Lemma append_eq_empty (a b : string) : (a ++ b)%string = "" -> a = "".
Proof. destruct a; [reflexivity | discriminate]. Qed.

Lemma join_eq_empty sep p rest : join sep (p :: rest) = "" -> p = "".
Proof.
  destruct rest as [| q rest]; simpl; [auto | apply append_eq_empty].
Qed.

Lemma query_pair_not_empty kv : query_pair kv <> "".
Proof.
  unfold query_pair. destruct (urlencode (fst kv)); discriminate.
Qed.

Lemma build_url_spec endpoint entries :
  build_url endpoint entries = url_with_query endpoint entries.
Proof.
  unfold build_url, url_with_query, query_string, sp_toString.
  rewrite fold_add_param. simpl app. rewrite map_map.
  change (fun x : string * Value => sp_pair (fst x, to_String (snd x))) with query_pair.
  destruct (filter survives entries) as [| kv kept]; [reflexivity |].
  destruct (join "&" (map query_pair (kv :: kept)) =? "")%string eqn:Hempty;
    [| reflexivity].
  apply String.eqb_eq in Hempty. simpl map in Hempty.
  apply join_eq_empty in Hempty. now apply query_pair_not_empty in Hempty.
Qed.

(** *** The order of the properties *)

Import QueryNotions.

Lemma append_empty_r (a : string) : a ++ "" = a.
Proof. induction a as [| x a IH]; simpl; [reflexivity | now rewrite IH]. Qed.

Lemma has_key_In {A} (fields : list (string * A)) k :
  has_key fields k = true <-> In k (map fst fields).
Proof.
  induction fields as [| [k' v'] fields IH]; simpl.
  - split; [discriminate | tauto].
  - rewrite orb_true_iff, IH, String.eqb_eq. tauto.
Qed.

(** A key that is no array index goes last. *)
Lemma define_prop_named {A} (fields : list (string * A)) k v :
  array_index k = None -> define_prop fields k v = (fields ++ [(k, v)])%list.
Proof.
  intros Hk. induction fields as [| [k' v'] fields IH]; simpl; [reflexivity |].
  unfold enumerated_before. rewrite Hk. now rewrite IH.
Qed.

(** An array index goes before the keys that are none. *)
Lemma define_prop_before_named {A} (xs ys : list (string * A)) k i v :
  array_index k = Some i ->
  Forall (fun kv => array_index (fst kv) = None) ys ->
  define_prop (xs ++ ys) k v = (define_prop xs k v ++ ys)%list.
Proof.
  intros Hk Hys. induction xs as [| [k' v'] xs IH]; simpl.
  - destruct ys as [| [k' v'] ys]; [reflexivity |].
    simpl. unfold enumerated_before. rewrite Hk.
    apply Forall_inv in Hys. simpl in Hys. now rewrite Hys.
  - destruct (enumerated_before k k'); [reflexivity |]. now rewrite IH.
Qed.

(** Among array indices a new one goes to its place in ascending order. *)
Lemma define_prop_ascending (xs : list (string * Value)) k i v :
  array_index k = Some i ->
  Forall (fun kv => indexed_key kv = true) xs ->
  ascending xs ->
  ascending (define_prop xs k v) /\ Permutation ((k, v) :: xs) (define_prop xs k v).
Proof.
  intros Hk Hidx Hasc. unfold ascending in *.
  induction xs as [| [k' v'] xs IH]; simpl.
  - split; [repeat constructor | apply Permutation_refl].
  - apply StronglySorted_inv in Hasc as [Hrest Hhead].
    pose proof (Forall_inv Hidx) as Hk'. apply Forall_inv_tail in Hidx.
    unfold indexed_key in Hk'. simpl in Hk'.
    destruct (array_index k') as [j |] eqn:Hj; [| discriminate].
    unfold enumerated_before. rewrite Hk, Hj.
    assert (Hi : index_of (k, v) = i) by (unfold index_of; simpl; now rewrite Hk).
    assert (Hj' : index_of (k', v') = j) by (unfold index_of; simpl; now rewrite Hj).
    destruct (i <? j)%N eqn:Hlt.
    + split; [| apply Permutation_refl].
      apply N.ltb_lt in Hlt.
      constructor; [constructor; assumption |].
      constructor; [rewrite Hi, Hj'; lia |].
      eapply Forall_impl; [| exact Hhead].
      intros b Hb. simpl in Hb. rewrite Hi. rewrite Hj' in Hb. lia.
    + apply N.ltb_ge in Hlt.
      destruct (IH Hidx Hrest) as [Hsorted Hperm].
      split.
      * constructor; [exact Hsorted |].
        eapply Permutation_Forall; [exact Hperm |].
        constructor; [rewrite Hi, Hj'; lia | exact Hhead].
      * eapply Permutation_trans; [apply perm_swap |].
        now apply perm_skip.
Qed.

(** The properties of an object written with distinct keys, as they are
    enumerated: the array indices in ascending order, then the other keys
    as they were written. *)
Lemma object_literal_order (props : list (string * Value)) :
  NoDup (map fst props) ->
  exists indexed,
    object_literal props = (indexed ++ filter named_key props)%list
    /\ Permutation indexed (filter indexed_key props)
    /\ ascending indexed.
Proof.
  induction props as [| [k v] props IH] using rev_ind.
  - intros _. exists []. repeat split; [apply Permutation_refl | constructor].
  - rewrite map_app. simpl map. intros Hnodup.
    assert (Hfresh : ~ In k (map fst props)).
    { apply NoDup_remove_2 in Hnodup. now rewrite app_nil_r in Hnodup. }
    apply NoDup_remove_1 in Hnodup. rewrite app_nil_r in Hnodup.
    destruct (IH Hnodup) as (indexed & Hobj & Hperm & Hasc).
    assert (Hstep : object_literal (props ++ [(k, v)])
                    = set_prop (object_literal props) k v).
    { unfold object_literal, spread. now rewrite fold_left_app. }
    assert (Hidx : Forall (fun kv => indexed_key kv = true) indexed).
    { apply Forall_forall. intros kv Hin.
      apply (Permutation_in _ Hperm) in Hin. now apply filter_In in Hin. }
    assert (Hnamed : Forall (fun kv : string * Value => array_index (fst kv) = None)
                            (filter named_key props)).
    { apply Forall_forall. intros kv Hin. apply filter_In in Hin as [_ Hn].
      unfold named_key, indexed_key in Hn. now destruct (array_index (fst kv)). }
    assert (Hnew : has_key (object_literal props) k = false).
    { destruct (has_key (object_literal props) k) eqn:Hhas; [| reflexivity].
      exfalso. apply Hfresh. apply has_key_In in Hhas. rewrite Hobj, map_app in Hhas.
      apply in_app_or in Hhas as [Hin | Hin];
        apply in_map_iff in Hin as (kv & <- & Hin); apply in_map.
      - apply (Permutation_in _ Hperm) in Hin. now apply filter_In in Hin.
      - now apply filter_In in Hin. }
    rewrite Hstep. unfold set_prop. rewrite Hnew, Hobj. rewrite !filter_app.
    cbn [filter].
    destruct (array_index k) as [i |] eqn:Hk.
    + assert (Hik : indexed_key (k, v) = true)
        by (unfold indexed_key; simpl; now rewrite Hk).
      assert (Hnk : named_key (k, v) = false) by (unfold named_key; now rewrite Hik).
      rewrite Hik, Hnk, app_nil_r.
      destruct (define_prop_ascending indexed k i v Hk Hidx Hasc) as [Hasc' Hperm'].
      exists (define_prop indexed k v). split; [| split].
      * now apply define_prop_before_named with (i := i).
      * eapply Permutation_trans; [apply Permutation_sym; exact Hperm' |].
        eapply Permutation_trans; [| apply Permutation_cons_append].
        now apply perm_skip.
      * exact Hasc'.
    + assert (Hik : indexed_key (k, v) = false)
        by (unfold indexed_key; simpl; now rewrite Hk).
      assert (Hnk : named_key (k, v) = true) by (unfold named_key; now rewrite Hik).
      rewrite Hik, Hnk, app_nil_r.
      exists indexed. split; [| split; assumption].
      rewrite (define_prop_named _ k v Hk). now rewrite app_assoc.
Qed.

(** *** URL encoding *)

Lemma form_decode_urlencode_byte (a : ascii) (t : string) :
  form_decode (urlencode_byte a ++ t) = option_map (String a) (form_decode t).
Proof.
  destruct a as [[] [] [] [] [] [] [] []]; reflexivity.
Qed.

Lemma form_decode_urlencode (s : string) : form_decode (urlencode s) = Some s.
Proof.
  induction s as [| a s IH]; [reflexivity |].
  cbn [urlencode]. now rewrite form_decode_urlencode_byte, IH.
Qed.

Lemma urlencode_byte_component (a : ascii) :
  RequestNotions.all_chars component_char (urlencode_byte a) = true.
Proof.
  destruct a as [[] [] [] [] [] [] [] []]; reflexivity.
Qed.

Lemma all_chars_append p (a b : string) :
  RequestNotions.all_chars p (a ++ b)
  = RequestNotions.all_chars p a && RequestNotions.all_chars p b.
Proof.
  induction a as [| x a IH]; simpl; [reflexivity |]. now rewrite IH, andb_assoc.
Qed.

Lemma urlencode_component (s : string) :
  RequestNotions.all_chars component_char (urlencode s) = true.
Proof.
  induction s as [| a s IH]; [reflexivity |].
  cbn [urlencode]. now rewrite all_chars_append, urlencode_byte_component, IH.
Qed.

Lemma urlencode_unreserved (s : string) :
  RequestNotions.all_chars unreserved s = true -> urlencode s = s.
Proof.
  induction s as [| a s IH]; [reflexivity |].
  cbn [urlencode RequestNotions.all_chars]. intros Hall.
  apply andb_prop in Hall as [Ha Hs]. rewrite (IH Hs).
  unfold urlencode_byte. unfold unreserved in Ha. now rewrite Ha.
Qed.

Lemma urlencode_url_encoded (s : string) : url_encoded s (urlencode s).
Proof.
  split; [apply form_decode_urlencode |].
  split; [apply urlencode_component | apply urlencode_unreserved].
Qed.

Lemma stringified_to_String v text : stringified v = Some text -> to_String v = text.
Proof.
  destruct v as [| | [] | n | n | s | xs | fields]; simpl; try discriminate;
    try (now intros [= <-]).
  destruct (Number_isSafeInteger n); [now intros [= <-] | discriminate].
Qed.

Lemma query_pair_param_text kv :
  stringified (snd kv) <> None -> param_text kv (query_pair kv).
Proof.
  destruct (stringified (snd kv)) as [text |] eqn:Htext; [intros _ | congruence].
  exists text, (urlencode (fst kv)), (urlencode text).
  split; [exact Htext |].
  split; [apply urlencode_url_encoded |].
  split; [apply urlencode_url_encoded |].
  unfold query_pair. now rewrite (stringified_to_String _ _ Htext).
Qed.

Lemma query_pairs_param_text kept :
  (forall kv, In kv kept -> stringified (snd kv) <> None) ->
  Forall2 param_text kept (map query_pair kept).
Proof.
  induction kept as [| kv kept IH]; intros Hkept; simpl; constructor.
  - apply query_pair_param_text. apply Hkept. now left.
  - apply IH. intros kv' Hkv'. apply Hkept. now right.
Qed.

Lemma url_with_query_suffix endpoint entries :
  url_with_query endpoint entries
  = endpoint ++ query_suffix (map query_pair (filter survives entries)).
Proof.
  unfold url_with_query, query_string, query_suffix.
  destruct (filter survives entries); simpl map; [now rewrite append_empty_r | reflexivity].
Qed.

(** C7, as the code has it.  [get] goes through the parameters in the
    order in which [Object.entries] lists them, which is the order in
    which they were written only for the keys that are no array index:
    the keys that are one come first, in ascending numeric order.  In that
    order, the parameters whose value is [null], [undefined] or the empty
    string are left out; each of the others, a string, a boolean or a safe
    integer, gives a part [key=value], the key and the text of the value
    both URL-encoded; the parts are joined by [&] and appended after a [?],
    and nothing is appended when no parameter survives.  Every [fetch] of
    the call goes to that URL under the base URL, and the two scenarios of
    the specification come out as stated. *)
Theorem get_builds_query_string c net endpoint props :
  NoDup (map fst props) ->
  Forall (fun kv => survives kv = true -> stringified (snd kv) <> None) props ->
  (exists indexed parts,
      Permutation indexed (filter indexed_key props)
      /\ ascending indexed
      /\ Object_entries (VObj (object_literal props))
         = Ok (indexed ++ filter named_key props)%list
      /\ Forall2 param_text
                 (filter survives (indexed ++ filter named_key props)) parts
      /\ get c net endpoint (VObj (object_literal props))
         = request c net (endpoint ++ query_suffix parts) (just_method "GET")
      /\ (forall url fo,
            In (EvFetch url fo) (snd (get c net endpoint (VObj (object_literal props)))) ->
            url = tpl (Config.apiUrl (Config.getApiConfig c))
                  ++ endpoint ++ query_suffix parts))
  /\ (filter indexed_key props = [] ->
      Object_entries (VObj (object_literal props)) = Ok props)
  /\ get c net "/test" (VObj (object_literal [("status", VStr "active"); ("limit", VNum 10)]))
     = request c net "/test?status=active&limit=10" (just_method "GET")
  /\ get c net "/test" (VObj (object_literal [("status", VStr "active"); ("foo", VNull)]))
     = request c net "/test?status=active" (just_method "GET").
Proof.
  intros Hnodup Hplain.
  destruct (object_literal_order props Hnodup) as (indexed & Hobj & Hperm & Hasc).
  split; [| split; [| split; reflexivity]].
  - set (entries := (indexed ++ filter named_key props)%list) in *.
    assert (Hin : forall kv, In kv entries -> In kv props).
    { intros kv Hkv. apply in_app_or in Hkv as [Hkv | Hkv].
      - apply (Permutation_in _ Hperm) in Hkv. now apply filter_In in Hkv.
      - now apply filter_In in Hkv. }
    assert (Hget : get c net endpoint (VObj (object_literal props))
                   = request c net
                             (endpoint ++ query_suffix (map query_pair (filter survives entries)))
                             (just_method "GET")).
    { unfold get. cbn [default_arg Object_entries]. rewrite Hobj.
      now rewrite build_url_spec, url_with_query_suffix. }
    exists indexed, (map query_pair (filter survives entries)).
    split; [exact Hperm |]. split; [exact Hasc |].
    split; [simpl; now rewrite Hobj |].
    split; [| split; [exact Hget |]].
    + rewrite Forall_forall in Hplain.
      assert (Hkept : forall kv, In kv (filter survives entries) ->
                                 stringified (snd kv) <> None).
      { intros kv Hkv. apply filter_In in Hkv as [Hkv Hs]. apply Hplain; auto. }
      now apply query_pairs_param_text.
    + intros url fo Hfetch. rewrite Hget in Hfetch.
      now destruct (request_fetches _ _ _ _ _ _ Hfetch) as [-> _].
  - intros Hnone. simpl. rewrite Hobj. rewrite Hnone in Hperm.
    apply Permutation_sym, Permutation_nil in Hperm. subst indexed. simpl.
    f_equal. clear -Hnone. induction props as [| kv props IH]; [reflexivity |].
    simpl in *. unfold named_key at 1. destruct (indexed_key kv); [discriminate |].
    simpl. now rewrite (IH Hnone).
Qed.

Lemma get_query_string_witness :
  NoDup (map fst mixed_params)
  /\ exists indexed parts,
       Permutation indexed (filter indexed_key mixed_params)
       /\ ascending indexed
       /\ Object_entries (VObj (object_literal mixed_params))
          = Ok (indexed ++ filter named_key mixed_params)%list
       /\ Forall2 param_text
                  (filter survives (indexed ++ filter named_key mixed_params)) parts
       /\ get test_config offline "/test" (VObj (object_literal mixed_params))
          = request test_config offline ("/test" ++ query_suffix parts) (just_method "GET")
       /\ (forall url fo,
             In (EvFetch url fo)
                (snd (get test_config offline "/test" (VObj (object_literal mixed_params)))) ->
             url = tpl (Config.apiUrl (Config.getApiConfig test_config))
                   ++ "/test" ++ query_suffix parts).
Proof.
  assert (Hnodup : NoDup (map fst mixed_params)).
  { repeat constructor; simpl; intuition discriminate. }
  split; [exact Hnodup |].
  apply (proj1 (get_builds_query_string test_config offline "/test" mixed_params
                                        Hnodup
                                        ltac:(repeat constructor; simpl; discriminate))).
Defined.

(** The URL of the parameters of [mixed_params]: indices first, the value
    of [q] encoded, [skip] left out. *)
Example mixed_params_url :
  snd (get test_config (always (json_response 200 VNull)) "/test"
           (VObj (object_literal mixed_params)))
  = [EvFetch "https://api.test.com/test?2=7&10=x&q=a+b%26c&done=false"
             (fetch_options test_config (just_method "GET"))].
Proof. reflexivity. Qed.

(** C7, as stated, fails: [get('/test', { status: 'active', 1: 'x' })]
    requests [?1=x&status=active], not the parameters in the order in
    which they were written. *)
Lemma get_lists_array_indices_first :
  url_with_query "/test" filters = "/test?status=active&1=x"
  /\ snd (get test_config (always (json_response 200 VNull)) "/test"
              (VObj (object_literal filters)))
     = [EvFetch "https://api.test.com/test?1=x&status=active"
                (fetch_options test_config (just_method "GET"))]
  /\ "https://api.test.com/test?1=x&status=active"
     <> full_url test_config (url_with_query "/test" filters).
Proof.
  split; [reflexivity |]. split; [reflexivity | discriminate].
Qed.

(** *** Tenant-scoped facades *)

Lemma getTenantPath_without_tenant c :
  truthy_str (Config.get c "tenant") = false ->
  getTenantPath c = Throw (ExApi no_tenant).
Proof.
  intros Hten. unfold getTenantPath. now rewrite Hten.
Qed.

Lemma getTenantPath_with_tenant c t :
  Config.get c "tenant" = Some t -> t <> "" ->
  getTenantPath c = Ok ("/tenants/" ++ t).
Proof.
  intros Hget Hne. unfold getTenantPath. rewrite Hget. simpl.
  apply String.eqb_neq in Hne. now rewrite Hne.
Qed.

(** C8.  A tenant-scoped facade call made while no tenant is configured
    throws the 400 [ApiError] of [getTenantPath] and no [fetch] is issued,
    neither a first one nor a retry; with a tenant configured, the endpoint
    it hands to its verb starts with [/tenants/<tenant>]. *)
Theorem tenant_scoped_call_needs_tenant c net f :
  tenant_scoped f = true ->
  statusCode no_tenant = 400
  /\ (Config.get c "tenant" = None \/ Config.get c "tenant" = Some "" ->
      call c net f = (Thrown (ExApi no_tenant), []))
  /\ (forall t, Config.get c "tenant" = Some t -> t <> "" ->
       exists vc rest,
         verb_call c f = Ok vc
         /\ endpoint_of vc = "/tenants/" ++ t ++ rest
         /\ call c net f = run_verb c net vc).
Proof.
  intros Hscoped. split; [reflexivity |]. split.
  - intros Hten. apply truthy_str_false in Hten. unfold call.
    destruct f; try discriminate Hscoped; simpl;
      now rewrite (getTenantPath_without_tenant c Hten).
  - intros t Hget Hne. unfold call.
    destruct f; try discriminate Hscoped; simpl;
      rewrite (getTenantPath_with_tenant c t Hget Hne);
      eexists; eexists; (split; [reflexivity | split; reflexivity]).
Qed.

Lemma tenant_scoped_witness :
  call no_tenant_config (always (json_response 200 VNull)) (tasks_list VUndefined)
  = (Thrown (ExApi no_tenant), [])
  /\ exists vc rest,
       verb_call test_config (projects_get (VStr "proj-1")) = Ok vc
       /\ endpoint_of vc = "/tenants/" ++ "test-tenant" ++ rest
       /\ call test_config (always (json_response 200 VNull)) (projects_get (VStr "proj-1"))
          = run_verb test_config (always (json_response 200 VNull)) vc.
Proof.
  split.
  - apply (proj1 (proj2 (tenant_scoped_call_needs_tenant
                           no_tenant_config (always (json_response 200 VNull))
                           (tasks_list VUndefined) eq_refl))).
    right. reflexivity.
  - apply (proj2 (proj2 (tenant_scoped_call_needs_tenant
                           test_config (always (json_response 200 VNull))
                           (projects_get (VStr "proj-1")) eq_refl))
                 "test-tenant").
    + reflexivity.
    + discriminate.
Defined.

(** The other facade methods are global: they reach their verb whatever
    the tenant setting is. *)
Lemma global_call_ignores_tenant c f :
  tenant_scoped f = false -> exists vc, verb_call c f = Ok vc.
Proof.
  destruct f; try discriminate; simpl; eauto.
Qed.

(** *** Headers *)

Lemma lookup_assign_prop_same {A} (fields : list (string * A)) k v :
  has_key fields k = true -> lookup (assign_prop fields k v) k = Some v.
Proof.
  induction fields as [| [k' v'] fields IH]; simpl; [discriminate |].
  destruct (k' =? k)%string eqn:Hk; simpl.
  - now rewrite String.eqb_refl.
  - now rewrite Hk.
Qed.

Lemma lookup_define_prop_same {A} (fields : list (string * A)) k v :
  has_key fields k = false -> lookup (define_prop fields k v) k = Some v.
Proof.
  induction fields as [| [k' v'] fields IH]; simpl.
  - now rewrite String.eqb_refl.
  - destruct (k' =? k)%string eqn:Hk; simpl; [discriminate |].
    intros Hrest. destruct (enumerated_before k k'); simpl.
    + now rewrite String.eqb_refl.
    + rewrite Hk. now apply IH.
Qed.

Lemma lookup_set_prop_same {A} (fields : list (string * A)) k v :
  lookup (set_prop fields k v) k = Some v.
Proof.
  unfold set_prop. destruct (has_key fields k) eqn:Hhas.
  - now apply lookup_assign_prop_same.
  - now apply lookup_define_prop_same.
Qed.

Lemma lookup_assign_prop_other {A} (fields : list (string * A)) k k' v :
  k' <> k -> lookup (assign_prop fields k' v) k = lookup fields k.
Proof.
  intros Hne. apply String.eqb_neq in Hne.
  induction fields as [| [k0 v0] fields IH]; simpl; [reflexivity |].
  destruct (k0 =? k')%string eqn:Hk0; simpl.
  - apply String.eqb_eq in Hk0. subst k0. now rewrite Hne.
  - now rewrite IH.
Qed.

Lemma lookup_define_prop_other {A} (fields : list (string * A)) k k' v :
  k' <> k -> lookup (define_prop fields k' v) k = lookup fields k.
Proof.
  intros Hne. apply String.eqb_neq in Hne.
  induction fields as [| [k0 v0] fields IH]; simpl.
  - now rewrite Hne.
  - destruct (enumerated_before k' k0); simpl.
    + now rewrite Hne.
    + now rewrite IH.
Qed.

Lemma lookup_set_prop_other {A} (fields : list (string * A)) k k' v :
  k' <> k -> lookup (set_prop fields k' v) k = lookup fields k.
Proof.
  intros Hne. unfold set_prop. destruct (has_key fields k').
  - now apply lookup_assign_prop_other.
  - now apply lookup_define_prop_other.
Qed.

Lemma lookup_set_prop_present {A} (fields : list (string * A)) k k' v :
  lookup fields k <> None -> lookup (set_prop fields k' v) k <> None.
Proof.
  intros Hpresent. destruct (String.eqb_spec k' k) as [-> | Hne].
  - now rewrite lookup_set_prop_same.
  - now rewrite lookup_set_prop_other.
Qed.

(** A spread never removes a key. *)
Lemma lookup_spread_present {A} (extra base : list (string * A)) k :
  lookup base k <> None -> lookup (spread base extra) k <> None.
Proof.
  unfold spread. revert base.
  induction extra as [| [k' v'] extra IH]; intros base Hpresent; simpl.
  - assumption.
  - apply IH. now apply lookup_set_prop_present.
Qed.

(** A key the spread object does not have keeps its value. *)
Lemma lookup_spread_untouched {A} (extra base : list (string * A)) k :
  lookup extra k = None -> lookup (spread base extra) k = lookup base k.
Proof.
  unfold spread. revert base.
  induction extra as [| [k' v'] extra IH]; intros base Hnone; simpl in *.
  - reflexivity.
  - destruct (k' =? k)%string eqn:Hk; [discriminate |].
    rewrite (IH _ Hnone). apply lookup_set_prop_other. now apply String.eqb_neq.
Qed.

(** A key the spread object has takes its value from there. *)
Lemma lookup_spread_replaced {A} (before after base : list (string * A)) k v :
  lookup after k = None ->
  lookup (spread base (before ++ (k, v) :: after)) k = Some v.
Proof.
  intros Hnone. unfold spread. rewrite fold_left_app. simpl.
  fold (spread (set_prop (fold_left
                            (fun acc kv => set_prop acc (fst kv) (snd kv)) before base)
                         k v) after).
  rewrite (lookup_spread_untouched _ _ _ Hnone). apply lookup_set_prop_same.
Qed.

Lemma verb_fetch_options c net vc url fo :
  In (EvFetch url fo) (snd (run_verb c net vc)) ->
  fo_headers fo = default_headers (Config.apiKey (Config.getApiConfig c)).
Proof.
  destruct (encoding_error vc) as [te |] eqn:Henc.
  - rewrite (run_verb_not_encoded c net vc te Henc). intros [].
  - destruct (run_verb_encoded c net vc Henc) as (endpoint & options & -> & Hnone).
    intros Hin. destruct (request_fetches _ _ _ _ _ _ Hin) as [_ ->].
    unfold fetch_options, build_headers. simpl. now rewrite Hnone.
Qed.

(** C9, as the code has it.  Every [fetch] of [request] carries the three
    headers Content-Type, X-API-Key and User-Agent: a header override can
    add names and cannot remove one of these.  Each of the three has its
    default value (application/json, the configured key, @erold/cli/1.0.0)
    unless the overrides name it too, in which case the caller's value
    replaces the default.  The four verbs pass no overrides, so their
    requests carry exactly the three defaults. *)
Theorem default_headers_are_kept_unless_overridden c net endpoint options url fo :
  In (EvFetch url fo) (snd (request c net endpoint options)) ->
  let key := Config.apiKey (Config.getApiConfig c) in
  let overrides := match opt_headers options with Some hs => hs | None => [] end in
  default_headers key
  = [("Content-Type", "application/json"); ("X-API-Key", tpl key);
     ("User-Agent", "@erold/cli/1.0.0")]
  /\ (forall name, In name ["Content-Type"; "X-API-Key"; "User-Agent"] ->
        lookup (fo_headers fo) name <> None
        /\ (lookup overrides name = None ->
            lookup (fo_headers fo) name = lookup (default_headers key) name)
        /\ (forall before v after,
               overrides = (before ++ (name, v) :: after)%list ->
               lookup after name = None ->
               lookup (fo_headers fo) name = Some v))
  /\ (forall name v, lookup overrides name = Some v ->
                     lookup (fo_headers fo) name <> None)
  /\ (forall vc url' fo',
         In (EvFetch url' fo') (snd (run_verb c net vc)) ->
         fo_headers fo' = default_headers key).
Proof.
  intros Hin key overrides.
  destruct (request_fetches _ _ _ _ _ _ Hin) as [_ ->].
  unfold fetch_options, build_headers. cbn [fo_headers].
  fold key. fold overrides.
  split; [reflexivity |]. split; [| split].
  - intros name Hname. split; [| split].
    + apply lookup_spread_present.
      simpl in Hname. destruct Hname as [<- | [<- | [<- | []]]]; discriminate.
    + apply lookup_spread_untouched.
    + intros before v after -> Hafter. now apply lookup_spread_replaced.
  - intros name v Hsome.
    assert (Hsplit : forall (l : list (string * string)) x,
               lookup l name = Some x ->
               exists before y after,
                 l = (before ++ (name, y) :: after)%list /\ lookup after name = None).
    { induction l as [| [k0 v0] l IH]; simpl; [discriminate |].
      intros x Hx. destruct (lookup l name) as [x' |] eqn:Hrest.
      - destruct (IH x' eq_refl) as (before & y & after & -> & Hafter).
        exists ((k0, v0) :: before), y, after. now split.
      - destruct (String.eqb_spec k0 name) as [-> | Hne]; [| discriminate].
        exists [], v0, l. now split. }
    destruct (Hsplit overrides v Hsome) as (before & y & after & Heq & Hafter).
    rewrite Heq. now rewrite lookup_spread_replaced.
  - intros vc url' fo'. apply verb_fetch_options.
Qed.

Lemma default_headers_witness :
  In fetch_test
     (snd (request test_config (always (json_response 200 VNull)) "/test" no_options))
  /\ lookup [("Content-Type", "application/json"); ("X-API-Key", "erold_test_key");
             ("User-Agent", "@erold/cli/1.0.0")] "User-Agent"
     = Some "@erold/cli/1.0.0".
Proof.
  assert (Hin : In fetch_test
                   (snd (request test_config (always (json_response 200 VNull))
                                 "/test" no_options)))
    by (left; reflexivity).
  split; [exact Hin |].
  pose proof (default_headers_are_kept_unless_overridden
                test_config (always (json_response 200 VNull)) "/test" no_options
                "https://api.test.com/test" (fetch_options test_config no_options) Hin)
    as (_ & Hnames & _).
  destruct (Hnames "User-Agent") as (_ & Hdefault & _).
  - right. right. left. reflexivity.
  - exact (Hdefault eq_refl).
Defined.

(** C9, as stated, fails: an override of Content-Type replaces the
    default value in the headers handed to [fetch]. *)
Lemma content_type_override_replaces_default :
  exists fo,
    snd (request test_config (always (json_response 200 VNull)) "/test" plain_text_options)
    = [EvFetch "https://api.test.com/test" fo]
    /\ lookup (fo_headers fo) "Content-Type" = Some "text/plain"
    /\ lookup (fo_headers fo) "Content-Type" <> Some "application/json".
Proof.
  eexists. split; [reflexivity |]. split; [reflexivity | discriminate].
Qed.

(** *** Omitted bodies *)

(** C10.  [post(endpoint)] and [patch(endpoint)] without a body are the
    request with body "{}": every [fetch] they issue carries that string
    as its body, and with an API key configured they do issue one. *)
Theorem omitted_body_is_empty_object c net endpoint :
  JSON_stringify (VObj []) = Ok (Some "{}")
  /\ post c net endpoint VUndefined
     = request c net endpoint (with_body "POST" (Some "{}"))
  /\ patch c net endpoint VUndefined
     = request c net endpoint (with_body "PATCH" (Some "{}"))
  /\ (forall url fo,
        In (EvFetch url fo) (snd (post c net endpoint VUndefined)) ->
        fo_method fo = Some "POST" /\ fo_body fo = Some "{}")
  /\ (forall url fo,
        In (EvFetch url fo) (snd (patch c net endpoint VUndefined)) ->
        fo_method fo = Some "PATCH" /\ fo_body fo = Some "{}")
  /\ (authenticated c = true ->
      exists fo rest,
        snd (post c net endpoint VUndefined) = EvFetch (full_url c endpoint) fo :: rest
        /\ fo_body fo = Some "{}")
  /\ (authenticated c = true ->
      exists fo rest,
        snd (patch c net endpoint VUndefined) = EvFetch (full_url c endpoint) fo :: rest
        /\ fo_body fo = Some "{}").
Proof.
  assert (Hpost : post c net endpoint VUndefined
                  = request c net endpoint (with_body "POST" (Some "{}")))
    by reflexivity.
  assert (Hpatch : patch c net endpoint VUndefined
                   = request c net endpoint (with_body "PATCH" (Some "{}")))
    by reflexivity.
  split; [reflexivity |]. split; [exact Hpost |]. split; [exact Hpatch |].
  rewrite Hpost, Hpatch.
  split; [| split; [| split]].
  - intros url fo Hin. now destruct (request_fetches _ _ _ _ _ _ Hin) as [_ ->].
  - intros url fo Hin. now destruct (request_fetches _ _ _ _ _ _ Hin) as [_ ->].
  - intros Hkey.
    destruct (request_first_fetch c net endpoint (with_body "POST" (Some "{}")) Hkey)
      as [rest ->].
    now eexists; eexists.
  - intros Hkey.
    destruct (request_first_fetch c net endpoint (with_body "PATCH" (Some "{}")) Hkey)
      as [rest ->].
    now eexists; eexists.
Qed.

Lemma omitted_body_witness :
  exists fo rest,
    snd (post test_config offline "/me/notifications/read-all" VUndefined)
    = EvFetch (full_url test_config "/me/notifications/read-all") fo :: rest
    /\ fo_body fo = Some "{}".
Proof.
  apply (proj1 (proj2 (proj2 (proj2 (proj2 (proj2
           (omitted_body_is_empty_object test_config offline
                                         "/me/notifications/read-all"))))))).
  reflexivity.
Defined.

(* ================================================================== *)
(** ** Further properties of the retry loop *)
(* ================================================================== *)

(** The trace of a request has one of four shapes: nothing at all when no
    API key is configured, and otherwise one, two or three calls of [fetch]
    to the same URL with the same options, separated by sleeps of 1000 ms
    and then 2000 ms.  There is never a fourth call, and never a sleep
    after the last one. *)
Theorem request_trace_shapes c net endpoint options :
  let fetched := EvFetch (full_url c endpoint) (fetch_options c options) in
  let trace := snd (request c net endpoint options) in
  (trace = [] <-> authenticated c = false)
  /\ (trace = []
      \/ trace = [fetched]
      \/ trace = [fetched; EvSleep 1000; fetched]
      \/ trace = [fetched; EvSleep 1000; fetched; EvSleep 2000; fetched]).
Proof.
  intros fetched trace. subst trace. rewrite request_unfold.
  destruct (authenticated c); cbn [negb].
  2: { split; [tauto | auto]. }
  change (Z.to_nat MAX_RETRIES) with 3%nat. cbn [attempts app].
  change (1 =? MAX_RETRIES) with false.
  change (1 + 1 =? MAX_RETRIES) with false.
  change (1 + 1 + 1 =? MAX_RETRIES) with true.
  fold fetched.
  assert (Hne : forall (o : Outcome) rest, snd (o, fetched :: rest) = [] <-> true = false)
    by (intros; split; discriminate).
  destruct (await_fetch _ (net 0%nat)) as [s1 |]; [| split; [apply Hne | auto]].
  destruct (try_block s1) as [[v1 | e1] |];
    [split; [apply Hne | auto] | | split; [apply Hne | auto]].
  destruct (is_client_error e1); [split; [apply Hne | auto] |].
  destruct (name_of e1 =? "AbortError")%string; [split; [apply Hne | auto] |].
  destruct (await_fetch None (net 1%nat)) as [s2 |]; [| split; [apply Hne | auto]].
  destruct (try_block s2) as [[v2 | e2] |];
    [split; [apply Hne | auto] | | split; [apply Hne | auto]].
  destruct (is_client_error e2); [split; [apply Hne | auto] |].
  destruct (name_of e2 =? "AbortError")%string; [split; [apply Hne | auto] |].
  destruct (await_fetch None (net 2%nat)) as [s3 |]; [| split; [apply Hne | auto 6]].
  destruct (try_block s3) as [[v3 | e3] |];
    [split; [apply Hne | auto 6] | | split; [apply Hne | auto 6]].
  destruct (is_client_error e3); [split; [apply Hne | auto 6] |].
  destruct (name_of e3 =? "AbortError")%string; split; (apply Hne || auto 6).
Qed.

Import RetryNotions.

Lemma await_fetch_never timer ev :
  await_fetch timer ev = None -> timer = None /\ ev = NetHangs.
Proof.
  unfold await_fetch.
  destruct timer as [t |], ev as [ms r | ms e | ];
    try destruct (ms <? t); (discriminate || auto).
Qed.

Lemma try_block_never settled :
  try_block settled = None -> exists r, settled = Ok r /\ read_body r = None.
Proof.
  destruct settled as [r | e]; cbn [try_block]; [| discriminate].
  destruct (read_body r) as [[data | e] |] eqn:Hbody; try discriminate.
  intros _. now exists r.
Qed.

(** What hangs when an iteration of the loop never ends: the [fetch]
    itself, which only a cleared timer allows, or the body of its
    response. *)
Lemma iteration_never timer ev settled :
  await_fetch timer ev = Some settled -> try_block settled = None ->
  exists ms r, ev = NetResolves ms r /\ read_body r = None.
Proof.
  intros Hawait Htry. destruct (try_block_never _ Htry) as (r & -> & Hbody).
  destruct (await_fetch_resolved _ _ _ Hawait) as [ms ->]. eauto.
Qed.

(** A call stays pending only when a promise it awaits never settles.
    That is the second or the third [fetch], which run without a timer
    (the first one is always ended by the timer), or the body of a
    response at any attempt, the first included: the timer is cleared as
    soon as [fetch] has settled, before the body is read.  So a first
    response that arrives in time and whose body never does leaves the
    call pending after a single [fetch], whatever the timeout.  A request
    without API key fails at once. *)
Theorem pending_only_when_an_await_hangs c net endpoint options :
  (fst (request c net endpoint options) = Pending ->
   authenticated c = true
   /\ (net 1%nat = NetHangs \/ net 2%nat = NetHangs
       \/ exists n ms r,
            (n < 3)%nat /\ net n = NetResolves ms r /\ read_body r = None))
  /\ (forall ms r,
        authenticated c = true ->
        net 0%nat = NetResolves ms r -> ms < timer_delay options ->
        read_body r = None ->
        request c net endpoint options
        = (Pending, [EvFetch (full_url c endpoint) (fetch_options c options)])).
Proof.
  split.
  - rewrite request_unfold. destruct (authenticated c); cbn [negb]; [| discriminate].
    intros Hpending. split; [reflexivity |]. revert Hpending.
    change (Z.to_nat MAX_RETRIES) with 3%nat. cbn [attempts app fst].
    change (1 =? MAX_RETRIES) with false.
    change (1 + 1 =? MAX_RETRIES) with false.
    change (1 + 1 + 1 =? MAX_RETRIES) with true.
    assert (Hbody : forall n timer settled,
               (n < 3)%nat ->
               await_fetch timer (net n) = Some settled -> try_block settled = None ->
               net 1%nat = NetHangs \/ net 2%nat = NetHangs
               \/ exists n ms r,
                    (n < 3)%nat /\ net n = NetResolves ms r /\ read_body r = None).
    { intros n timer settled Hn Hawait Htry.
      destruct (iteration_never _ _ _ Hawait Htry) as (ms & r & Hnet & Hnone).
      right. right. exists n, ms, r. auto. }
    destruct (await_fetch _ (net 0%nat)) as [s1 |] eqn:H1;
      [| now apply await_fetch_never in H1 as [[=] _]].
    destruct (try_block s1) as [[v1 | e1] |] eqn:T1;
      [discriminate | | intros _; apply (Hbody 0%nat _ _ ltac:(lia) H1 T1)].
    destruct (is_client_error e1); [discriminate |].
    destruct (name_of e1 =? "AbortError")%string; [discriminate |].
    destruct (await_fetch None (net 1%nat)) as [s2 |] eqn:H2;
      [| apply await_fetch_never in H2 as [_ ->]; auto].
    destruct (try_block s2) as [[v2 | e2] |] eqn:T2;
      [discriminate | | intros _; apply (Hbody 1%nat _ _ ltac:(lia) H2 T2)].
    destruct (is_client_error e2); [discriminate |].
    destruct (name_of e2 =? "AbortError")%string; [discriminate |].
    destruct (await_fetch None (net 2%nat)) as [s3 |] eqn:H3;
      [| apply await_fetch_never in H3 as [_ ->]; auto].
    destruct (try_block s3) as [[v3 | e3] |] eqn:T3;
      [discriminate | | intros _; apply (Hbody 2%nat _ _ ltac:(lia) H3 T3)].
    destruct (is_client_error e3); [discriminate |].
    destruct (name_of e3 =? "AbortError")%string; [discriminate |].
    destruct (after_loop_ApiError (Some e3)) as [a ->]. discriminate.
  - intros ms r Hkey Hnet Hlt Hnone.
    rewrite (request_first_response c net endpoint options ms r Hkey Hnet Hlt).
    unfold try_block. now rewrite Hnone.
Qed.

Lemma pending_witness :
  (fst (request test_config stalls_on_retry "/test" no_options) = Pending
   /\ (stalls_on_retry 1%nat = NetHangs \/ stalls_on_retry 2%nat = NetHangs
       \/ exists n ms r,
            (n < 3)%nat /\ stalls_on_retry n = NetResolves ms r /\ read_body r = None))
  /\ request test_config (always body_never_arrives) "/test" no_options
     = (Pending, [fetch_test]).
Proof.
  split.
  - split; [reflexivity |].
    apply (proj1 (pending_only_when_an_await_hangs
                    test_config stalls_on_retry "/test" no_options)).
    reflexivity.
  - refine (proj2 (pending_only_when_an_await_hangs
                     test_config (always body_never_arrives) "/test" no_options)
                  20 body_never_arrives eq_refl eq_refl _ eq_refl).
    reflexivity.
Defined.

(** *** Steps of the loop that retry *)

Lemma continue_with_retry net url fo remaining attempt n trace error :
  is_client_error error = false ->
  name_of error <> "AbortError" ->
  continue_with net url fo remaining attempt n trace (Some (Throw error))
  = if attempt =? MAX_RETRIES then (after_loop (Some error), trace)
    else attempts net url fo remaining (attempt + 1) (S n) None (Some error)
                  (trace ++ [EvSleep (RETRY_DELAY * attempt)])%list.
Proof.
  intros Hce Hname. unfold continue_with. rewrite Hce.
  apply String.eqb_neq in Hname. now rewrite Hname.
Qed.

Lemma try_block_server_error r data :
  500 <= status r -> read_body r = Some (Ok data) ->
  try_block (Ok r) = Some (Throw (ExApi (http_error r data)))
  /\ is_client_error (ExApi (http_error r data)) = false.
Proof.
  intros Hrange Hbody. split.
  - unfold try_block, classify, ok. rewrite Hbody.
    replace (status r =? 429) with false by (symmetry; apply Z.eqb_neq; lia).
    replace (status r <=? 299) with false by (symmetry; apply Z.leb_gt; lia).
    now rewrite andb_false_r.
  - unfold is_client_error.
    replace (statusCode (http_error r data)) with (status r) by reflexivity.
    replace (status r <? 500) with false by (symmetry; apply Z.ltb_ge; lia).
    now rewrite andb_false_r.
Qed.

(** The error a transient failure leaves in the [catch] block. *)
Lemma transient_failure timer ev :
  fails_transiently ev ->
  (timer = None \/ exists t, timer = Some t /\ settles_before ev t) ->
  exists settled error,
    await_fetch timer ev = Some settled
    /\ try_block settled = Some (Throw error)
    /\ is_client_error error = false
    /\ name_of error <> "AbortError".
Proof.
  intros Hfail Htimer. destruct ev as [ms r | ms e | ]; simpl in Hfail; [| | contradiction].
  - destruct Hfail as [Hrange [data Hbody]].
    destruct (try_block_server_error r data Hrange Hbody) as [Htry Hce].
    exists (Ok r), (ExApi (http_error r data)).
    split; [| split; [exact Htry | split; [exact Hce | discriminate]]].
    destruct Htimer as [-> | (t & -> & Hlt)]; [reflexivity |].
    now apply await_in_time.
  - exists (Throw e), (ExRaw e).
    split; [| split; [reflexivity | split; [reflexivity | exact Hfail]]].
    destruct Htimer as [-> | (t & -> & Hlt)]; [reflexivity |].
    simpl in *. apply Z.ltb_lt in Hlt. now rewrite Hlt.
Qed.

(** A transient failure is retried: a connection error or a 5xx answer on
    the first attempt, followed by a successful response, gives the
    unwrapped body of that response after one sleep of 1000 ms; two
    transient failures followed by a success give it after sleeps of 1000
    and 2000 ms.  The retried [fetch] has no timer: its response is taken
    however late it arrives. *)
Theorem transient_failure_is_retried c net endpoint options :
  authenticated c = true ->
  fails_transiently (net 0%nat) ->
  settles_before (net 0%nat) (timer_delay options) ->
  let fetched := EvFetch (full_url c endpoint) (fetch_options c options) in
  (forall ms r parsed,
      net 1%nat = NetResolves ms r -> ok r = true -> read_body r = Some (Ok parsed) ->
      request c net endpoint options
      = (Returned (unwrap parsed), [fetched; EvSleep 1000; fetched]))
  /\ (forall ms r parsed,
        fails_transiently (net 1%nat) ->
        net 2%nat = NetResolves ms r -> ok r = true -> read_body r = Some (Ok parsed) ->
        request c net endpoint options
        = (Returned (unwrap parsed),
           [fetched; EvSleep 1000; fetched; EvSleep 2000; fetched])).
Proof.
  intros Hkey Hfail1 Hin_time fetched.
  destruct (transient_failure (Some (timer_delay options)) (net 0%nat) Hfail1)
    as (s1 & e1 & Hawait1 & Htry1 & Hce1 & Hname1); [right; eauto |].
  assert (Hfirst : request c net endpoint options
                   = attempts net (full_url c endpoint) (fetch_options c options)
                              2 2 1 None (Some e1) [fetched; EvSleep 1000]).
  { rewrite request_unfold, Hkey. cbn [negb].
    change (Z.to_nat MAX_RETRIES) with 3%nat.
    rewrite (attempts_settled _ _ _ _ _ _ _ _ _ _ Hawait1), Htry1.
    now rewrite (continue_with_retry _ _ _ _ _ _ _ _ Hce1 Hname1). }
  split.
  - intros ms r parsed Hnet Hok Hbody. rewrite Hfirst.
    rewrite (attempts_later_response _ _ _ _ _ _ _ _ ms r Hnet).
    now rewrite (try_block_ok r parsed Hok Hbody).
  - intros ms r parsed Hfail2 Hnet Hok Hbody. rewrite Hfirst.
    destruct (transient_failure None (net 1%nat) Hfail2)
      as (s2 & e2 & Hawait2 & Htry2 & Hce2 & Hname2); [now left |].
    rewrite (attempts_settled _ _ _ _ _ _ _ _ _ _ Hawait2), Htry2.
    rewrite (continue_with_retry _ _ _ _ _ _ _ _ Hce2 Hname2).
    change (2 =? MAX_RETRIES) with false. cbv iota.
    rewrite (attempts_later_response _ _ _ _ _ _ _ _ ms r Hnet).
    now rewrite (try_block_ok r parsed Hok Hbody).
Qed.

Lemma transient_failure_witness :
  request test_config (recovers (VObj [("data", VNum 7)])) "/test" no_options
  = (Returned (VNum 7), [fetch_test; EvSleep 1000; fetch_test]).
Proof.
  refine (proj1 (transient_failure_is_retried
                   test_config (recovers (VObj [("data", VNum 7)])) "/test" no_options
                   eq_refl _ _)
                45000 (json_response 200 (VObj [("data", VNum 7)]))
                (VObj [("data", VNum 7)]) eq_refl eq_refl eq_refl).
  - simpl. split; [lia | eexists; reflexivity].
  - reflexivity.
Defined.

(** When all three attempts fail transiently the call gives up after the
    third: three rejected [fetch]es surface as an [ApiError] carrying the
    message of the last rejection (or "Request failed after retries" when
    it has none) and its [statusCode] property (or 500 when it has none);
    three 5xx responses surface as the [ApiError] of the last response. *)
Theorem gives_up_after_three_transient_failures c net endpoint options :
  authenticated c = true ->
  fails_transiently (net 0%nat) ->
  settles_before (net 0%nat) (timer_delay options) ->
  fails_transiently (net 1%nat) ->
  fails_transiently (net 2%nat) ->
  let fetched := EvFetch (full_url c endpoint) (fetch_options c options) in
  let trace := [fetched; EvSleep 1000; fetched; EvSleep 2000; fetched] in
  (forall ms e, net 2%nat = NetRejects ms e ->
                request c net endpoint options = (Thrown (ExApi (surfaced e)), trace))
  /\ (forall ms r data,
        net 2%nat = NetResolves ms r -> read_body r = Some (Ok data) ->
        request c net endpoint options = (Thrown (ExApi (http_error r data)), trace)
        /\ statusCode (http_error r data) = status r).
Proof.
  intros Hkey Hfail1 Hin_time Hfail2 Hfail3 fetched trace.
  destruct (transient_failure (Some (timer_delay options)) (net 0%nat) Hfail1)
    as (s1 & e1 & Hawait1 & Htry1 & Hce1 & Hname1); [right; eauto |].
  destruct (transient_failure None (net 1%nat) Hfail2)
    as (s2 & e2 & Hawait2 & Htry2 & Hce2 & Hname2); [now left |].
  destruct (transient_failure None (net 2%nat) Hfail3)
    as (s3 & e3 & Hawait3 & Htry3 & Hce3 & Hname3); [now left |].
  assert (Hall : request c net endpoint options = (after_loop (Some e3), trace)).
  { rewrite request_unfold, Hkey. cbn [negb].
    change (Z.to_nat MAX_RETRIES) with 3%nat.
    rewrite (attempts_settled _ _ _ _ _ _ _ _ _ _ Hawait1), Htry1.
    rewrite (continue_with_retry _ _ _ _ _ _ _ _ Hce1 Hname1).
    change (1 =? MAX_RETRIES) with false. cbv iota.
    rewrite (attempts_settled _ _ _ _ _ _ _ _ _ _ Hawait2), Htry2.
    rewrite (continue_with_retry _ _ _ _ _ _ _ _ Hce2 Hname2).
    change (1 + 1 =? MAX_RETRIES) with false. cbv iota.
    rewrite (attempts_settled _ _ _ _ _ _ _ _ _ _ Hawait3), Htry3.
    rewrite (continue_with_retry _ _ _ _ _ _ _ _ Hce3 Hname3).
    reflexivity. }
  split.
  - intros ms e Hnet. rewrite Hall. rewrite Hnet in Hawait3. simpl in Hawait3.
    injection Hawait3 as <-. simpl in Htry3. injection Htry3 as <-. reflexivity.
  - intros ms r data Hnet Hbody. split; [| reflexivity].
    rewrite Hall. rewrite Hnet in Hawait3, Hfail3. simpl in Hawait3, Hfail3.
    injection Hawait3 as <-. destruct Hfail3 as [Hrange _].
    destruct (try_block_server_error r data Hrange Hbody) as [Htry _].
    rewrite Htry in Htry3. injection Htry3 as <-. reflexivity.
Qed.

Lemma gives_up_witness :
  request test_config offline "/test" no_options
  = (Thrown (ExApi (new_ApiError "fetch failed" 500 VNull)),
     [fetch_test; EvSleep 1000; fetch_test; EvSleep 2000; fetch_test])
  /\ request test_config (always server_error_503) "/test" no_options
     = (Thrown (ExApi (new_ApiError "Service unavailable" 503 VNull)),
        [fetch_test; EvSleep 1000; fetch_test; EvSleep 2000; fetch_test])
  /\ surfaced gateway_error = new_ApiError "Request failed after retries" 502 VNull.
Proof.
  split; [| split; [| reflexivity]].
  - refine (proj1 (gives_up_after_three_transient_failures
                     test_config offline "/test" no_options eq_refl _ _ _ _)
                  5 fetch_failed eq_refl);
      simpl; (discriminate || reflexivity).
  - refine (proj1 (proj2 (gives_up_after_three_transient_failures
                            test_config (always server_error_503) "/test" no_options
                            eq_refl _ _ _ _)
                         20 server_error_503
                         (VObj [("message", VStr "Service unavailable")])
                         eq_refl eq_refl));
      simpl; try reflexivity; (split; [lia | eexists; reflexivity]).
Defined.

(** *** Bodies that are not JSON *)

Lemma read_body_text r content :
  (forall ct, headers_get r "content-type" = Some ct ->
              includes ct "application/json" = false) ->
  text r = Some (Ok content) ->
  read_body r = Some (Ok (VStr content)).
Proof.
  intros Hct Htext. unfold read_body.
  destruct (headers_get r "content-type") as [ct |] eqn:Hget; simpl.
  - rewrite (Hct ct eq_refl), andb_false_r. now rewrite Htext.
  - now rewrite Htext.
Qed.

(** A response that does not declare [application/json] is read as text
    and never parsed: on success the call returns the text as a string,
    envelope or not; on a client error the [ApiError] has the generic
    message "HTTP <status>" and no details. *)
Theorem text_body_is_not_parsed c net endpoint options ms r content :
  authenticated c = true ->
  net 0%nat = NetResolves ms r -> ms < timer_delay options ->
  (forall ct, headers_get r "content-type" = Some ct ->
              includes ct "application/json" = false) ->
  text r = Some (Ok content) ->
  let fetched := EvFetch (full_url c endpoint) (fetch_options c options) in
  (ok r = true ->
   request c net endpoint options = (Returned (VStr content), [fetched]))
  /\ (400 <= status r < 500 -> status r <> 429 ->
      request c net endpoint options
      = (Thrown (ExApi (new_ApiError ("HTTP " ++ decimal (status r)) (status r) VNull)),
         [fetched])).
Proof.
  intros Hkey Hnet Hlt Hct Htext fetched.
  pose proof (read_body_text r content Hct Htext) as Hbody.
  split.
  - intros Hok.
    rewrite (request_first_response c net endpoint options ms r Hkey Hnet Hlt).
    now rewrite (try_block_ok r (VStr content) Hok Hbody).
  - intros Hrange Hnot.
    rewrite (request_first_response c net endpoint options ms r Hkey Hnet Hlt).
    rewrite (try_block_client_error r (VStr content) Hrange Hnot Hbody).
    unfold continue_with, is_client_error.
    replace (statusCode (http_error r (VStr content))) with (status r) by reflexivity.
    apply Z.eqb_neq in Hnot. rewrite Hnot.
    replace (400 <=? status r) with true by (symmetry; apply Z.leb_le; lia).
    replace (status r <? 500) with true by (symmetry; apply Z.ltb_lt; lia).
    reflexivity.
Qed.

Lemma text_body_witness :
  request test_config (always (text_response 200 "<html>ok</html>")) "/test" no_options
  = (Returned (VStr "<html>ok</html>"), [fetch_test])
  /\ request test_config (always (text_response 404 "<html>gone</html>")) "/test" no_options
     = (Thrown (ExApi (new_ApiError "HTTP 404" 404 VNull)), [fetch_test]).
Proof.
  split.
  - refine (proj1 (text_body_is_not_parsed
                     test_config (always (text_response 200 "<html>ok</html>"))
                     "/test" no_options 20 (text_response 200 "<html>ok</html>")
                     "<html>ok</html>" eq_refl eq_refl eq_refl _ eq_refl) eq_refl).
    intros ct [= <-]. reflexivity.
  - refine (proj2 (text_body_is_not_parsed
                     test_config (always (text_response 404 "<html>gone</html>"))
                     "/test" no_options 20 (text_response 404 "<html>gone</html>")
                     "<html>gone</html>" eq_refl eq_refl eq_refl _ eq_refl) _ _).
    + intros ct [= <-]. reflexivity.
    + simpl. lia.
    + discriminate.
Defined.

(** *** The error envelope *)

(** The message of the [ApiError] built from a JSON error body: the
    string under [error.message] when it is not empty, even if the body
    has a [message] of its own; else the string under [message] when it is
    not empty; else "HTTP <status>".  The details are those under
    [error.details], or [null]. *)
Theorem error_message_precedence r fields :
  (forall inner m,
      lookup fields "error" = Some (VObj inner) ->
      lookup inner "message" = Some (VStr m) -> m <> "" ->
      message (http_error r (VObj fields)) = m)
  /\ (forall m,
        truthy (opt_chain (opt_chain (VObj fields) "error") "message") = false ->
        lookup fields "message" = Some (VStr m) -> m <> "" ->
        message (http_error r (VObj fields)) = m)
  /\ (truthy (opt_chain (opt_chain (VObj fields) "error") "message") = false ->
      truthy (opt_chain (VObj fields) "message") = false ->
      message (http_error r (VObj fields)) = "HTTP " ++ decimal (status r))
  /\ (forall inner d,
        lookup fields "error" = Some (VObj inner) ->
        lookup inner "details" = Some d -> d <> VUndefined ->
        details (http_error r (VObj fields)) = d)
  /\ (lookup fields "error" = None ->
      details (http_error r (VObj fields)) = VNull).
Proof.
  unfold http_error, error_message, or_else. cbn [message details new_ApiError].
  repeat split.
  - intros inner m Herr Hmsg Hne. simpl. rewrite Herr. simpl. rewrite Hmsg. simpl.
    apply String.eqb_neq in Hne. rewrite Hne. simpl. now rewrite Hne.
  - intros m Hfalsy Hmsg Hne. rewrite Hfalsy. simpl. rewrite Hmsg. simpl.
    apply String.eqb_neq in Hne. now rewrite Hne.
  - intros Hfalsy1 Hfalsy2. now rewrite Hfalsy1, Hfalsy2.
  - intros inner d Herr Hdet Hne. simpl. rewrite Herr. simpl. rewrite Hdet.
    destruct d; try reflexivity. contradiction.
  - intros Hnone. simpl. now rewrite Hnone.
Qed.

Lemma error_message_witness :
  message (http_error not_found_404
             (VObj [("message", VStr "outer");
                    ("error", VObj [("message", VStr "inner")])]))
  = "inner".
Proof.
  apply (proj1 (error_message_precedence
                  not_found_404
                  [("message", VStr "outer"); ("error", VObj [("message", VStr "inner")])])
               [("message", VStr "inner")] "inner").
  - reflexivity.
  - reflexivity.
  - discriminate.
Defined.

(** *** The requests of the four verbs *)


Lemma append_assoc (a b d : string) : (a ++ b) ++ d = a ++ (b ++ d).
Proof. induction a as [| x a IH]; simpl; [reflexivity | now rewrite IH]. Qed.




(** The verbs cannot change the timeout: whenever the first [fetch] of a
    verb is still in flight after 30000 ms, the call fails with the 408
    [ApiError] after that single [fetch]. *)
Theorem verbs_time_out_after_30_seconds c net vc :
  authenticated c = true ->
  encoding_error vc = None ->
  in_flight_at (net 0%nat) 30000 = true ->
  exists url fo,
    run_verb c net vc = (Thrown (ExApi timed_out), [EvFetch url fo])
    /\ statusCode timed_out = 408
    /\ message timed_out = "Request timed out".
Proof.
  intros Hkey Henc Hflight.
  assert (Hreq : exists endpoint options,
             run_verb c net vc = request c net endpoint options
             /\ timeout options = None).
  { destruct vc as [e params | e data | e data | e]; simpl in *;
      unfold get, post, patch, del.
    - destruct (Object_entries _); [eauto | discriminate].
    - destruct (JSON_stringify _); [eauto | discriminate].
    - destruct (JSON_stringify _); [eauto | discriminate].
    - eauto. }
  destruct Hreq as (endpoint & options & -> & Hnone).
  exists (full_url c endpoint), (fetch_options c options).
  split; [| split; reflexivity].
  apply timer_expiry_during_first_attempt; [exact Hkey |].
  unfold timer_delay. now rewrite Hnone.
Qed.

Lemma verbs_time_out_witness :
  exists url fo,
    run_verb test_config (fun _ => NetResolves 30000 (json_response 200 VNull))
             (CallDel "/tasks/1")
    = (Thrown (ExApi timed_out), [EvFetch url fo])
    /\ statusCode timed_out = 408
    /\ message timed_out = "Request timed out".
Proof.
  apply (verbs_time_out_after_30_seconds
           test_config (fun _ => NetResolves 30000 (json_response 200 VNull))
           (CallDel "/tasks/1"));
    reflexivity.
Defined.

(** *** tasks.search *)

Lemma assign_prop_keys {A} (fields : list (string * A)) k v :
  map fst (assign_prop fields k v) = map fst fields.
Proof.
  induction fields as [| [k' v'] fields IH]; simpl; [reflexivity |].
  destruct (String.eqb_spec k' k) as [-> | Hne]; simpl; [reflexivity | now rewrite IH].
Qed.

Lemma define_prop_permutation {A} (fields : list (string * A)) k v :
  Permutation ((k, v) :: fields) (define_prop fields k v).
Proof.
  induction fields as [| [k' v'] fields IH]; simpl; [apply Permutation_refl |].
  destruct (enumerated_before k k'); [apply Permutation_refl |].
  eapply Permutation_trans; [apply perm_swap | now apply perm_skip].
Qed.

(** Writing a property keeps a key that is no array index between the
    array indices and the other keys. *)
Lemma set_prop_around {A} (q : string) (fields : list (string * A)) k x :
  array_index q = None ->
  (exists indexed v named,
      fields = (indexed ++ (q, v) :: named)%list
      /\ Forall (fun kv => array_index (fst kv) <> None) indexed
      /\ Forall (fun kv => array_index (fst kv) = None) named) ->
  exists indexed v named,
    set_prop fields k x = (indexed ++ (q, v) :: named)%list
    /\ Forall (fun kv => array_index (fst kv) <> None) indexed
    /\ Forall (fun kv => array_index (fst kv) = None) named.
Proof.
  intros Hq (indexed & v & named & -> & Hidx & Hnamed).
  unfold set_prop. destruct (has_key _ k).
  - pose proof (assign_prop_keys (indexed ++ (q, v) :: named) k x) as Hkeys.
    rewrite map_app in Hkeys. simpl map in Hkeys.
    apply map_eq_app in Hkeys as (indexed' & rest & -> & Hi & Hrest).
    apply map_eq_cons in Hrest as ([q' v'] & named' & -> & Hq' & Hn).
    simpl in Hq'. subst q'.
    exists indexed', v', named'. split; [reflexivity |].
    split.
    + rewrite <- (Forall_map fst (fun key => array_index key <> None)) in *.
      now rewrite Hi.
    + rewrite <- (Forall_map fst (fun key => array_index key = None)) in *.
      now rewrite Hn.
  - destruct (array_index k) as [i |] eqn:Hk.
    + exists (define_prop indexed k x), v, named.
      split; [| split; [| exact Hnamed]].
      * apply define_prop_before_named with (i := i); [exact Hk |].
        constructor; assumption.
      * eapply Permutation_Forall; [apply define_prop_permutation |].
        constructor; [simpl; congruence | exact Hidx].
    + exists indexed, v, (named ++ [(k, x)])%list.
      split; [| split; [exact Hidx |]].
      * rewrite (define_prop_named _ k x Hk). now rewrite <- app_assoc.
      * apply Forall_app. split; [exact Hnamed |]. now constructor.
Qed.

Lemma spread_around {A} (q : string) (extra : list (string * A)) :
  array_index q = None ->
  forall base,
    (exists indexed v named,
        base = (indexed ++ (q, v) :: named)%list
        /\ Forall (fun kv => array_index (fst kv) <> None) indexed
        /\ Forall (fun kv => array_index (fst kv) = None) named) ->
    exists indexed v named,
      spread base extra = (indexed ++ (q, v) :: named)%list
      /\ Forall (fun kv => array_index (fst kv) <> None) indexed
      /\ Forall (fun kv => array_index (fst kv) = None) named.
Proof.
  intros Hq. unfold spread.
  induction extra as [| [k x] extra IH]; intros base Hbase; simpl; [exact Hbase |].
  apply IH. now apply set_prop_around.
Qed.

(** [tasks.search(query, params)] sends the query under the key [q]: a
    [q] among the caller's params replaces the query argument, and every
    other key of the params is passed on.  In the order in which [get]
    will list them, the keys of the params that are array indices come
    before [q] and all the others after it: [q] is the first parameter
    exactly when the params have no such key. *)
Theorem tasks_search_merges_params c t query fields :
  Config.get c "tenant" = Some t -> t <> "" ->
  exists merged,
    verb_call c (tasks_search query (VObj fields))
    = Ok (CallGet ("/tenants/" ++ t ++ "/tasks/search") (VObj merged))
    /\ (exists indexed v named,
          merged = (indexed ++ ("q", v) :: named)%list
          /\ Forall (fun kv => array_index (fst kv) <> None) indexed
          /\ Forall (fun kv => array_index (fst kv) = None) named)
    /\ ((forall k, lookup fields k <> None -> array_index k = None) ->
        exists v rest, merged = ("q", v) :: rest)
    /\ (lookup fields "q" = None -> lookup merged "q" = Some query)
    /\ (forall before v after,
           fields = (before ++ ("q", v) :: after)%list -> lookup after "q" = None ->
           lookup merged "q" = Some v)
    /\ (forall k, k <> "q" -> lookup fields k <> None -> lookup merged k <> None).
Proof.
  intros Hget Hne. exists (spread [("q", query)] fields).
  assert (Hshape : exists indexed v named,
             spread [("q", query)] fields = (indexed ++ ("q", v) :: named)%list
             /\ Forall (fun kv => array_index (fst kv) <> None) indexed
             /\ Forall (fun kv => array_index (fst kv) = None) named).
  { apply spread_around; [reflexivity |].
    exists [], query, []. split; [reflexivity | split; constructor]. }
  split; [| split; [exact Hshape | split; [| split; [| split]]]].
  - simpl. now rewrite (getTenantPath_with_tenant c t Hget Hne).
  - intros Hnamed. destruct Hshape as (indexed & v & named & Heq & Hidx & _).
    destruct indexed as [| [k0 x0] indexed]; [now exists v, named |].
    exfalso. apply Forall_inv in Hidx. simpl in Hidx. apply Hidx. apply Hnamed.
    intros Hnone.
    assert (Hmerged : lookup (spread [("q", query)] fields) k0 = Some x0).
    { rewrite Heq. simpl. now rewrite String.eqb_refl. }
    rewrite (lookup_spread_untouched _ _ _ Hnone) in Hmerged. cbn [lookup] in Hmerged.
    destruct (String.eqb_spec "q" k0) as [<- | _]; [| discriminate].
    now apply Hidx.
  - intros Hnone. now rewrite lookup_spread_untouched.
  - intros before v after -> Hafter. now apply lookup_spread_replaced.
  - intros k Hk Hpresent.
    assert (Hsplit : forall (l : list (string * Value)),
               lookup l k <> None ->
               exists before y after,
                 l = (before ++ (k, y) :: after)%list /\ lookup after k = None).
    { induction l as [| [k0 v0] l IH]; simpl; [congruence |].
      intros Hl. destruct (lookup l k) as [x' |] eqn:Hrest.
      - destruct IH as (before & y & after & -> & Hafter); [discriminate |].
        exists ((k0, v0) :: before), y, after. now split.
      - destruct (String.eqb_spec k0 k) as [-> | Hk0]; [| congruence].
        exists [], v0, l. now split. }
    destruct (Hsplit fields Hpresent) as (before & y & after & -> & Hafter).
    now rewrite lookup_spread_replaced.
Qed.

Lemma tasks_search_witness :
  exists merged,
    verb_call test_config
              (tasks_search (VStr "bug")
                            (VObj [("7", VStr "x"); ("limit", VNum 5); ("q", VStr "crash")]))
    = Ok (CallGet ("/tenants/" ++ "test-tenant" ++ "/tasks/search") (VObj merged))
    /\ lookup merged "q" = Some (VStr "crash")
    /\ exists indexed v named,
         merged = (indexed ++ ("q", v) :: named)%list
         /\ Forall (fun kv => array_index (fst kv) <> None) indexed
         /\ Forall (fun kv => array_index (fst kv) = None) named.
Proof.
  destruct (tasks_search_merges_params
              test_config "test-tenant" (VStr "bug")
              [("7", VStr "x"); ("limit", VNum 5); ("q", VStr "crash")] eq_refl)
    as (merged & Hcall & Hshape & _ & _ & Hreplaced & _); [discriminate |].
  exists merged. split; [exact Hcall |]. split; [| exact Hshape].
  apply (Hreplaced [("7", VStr "x"); ("limit", VNum 5)] (VStr "crash") []); reflexivity.
Defined.

(** [tasks.search('bug', { 7: 'x', limit: 5 })] asks for [?7=x&q=bug&limit=5]. *)
Example tasks_search_url :
  snd (call test_config (always (json_response 200 VNull))
            (tasks_search (VStr "bug") (VObj [("7", VStr "x"); ("limit", VNum 5)])))
  = [EvFetch "https://api.test.com/tenants/test-tenant/tasks/search?7=x&q=bug&limit=5"
             (fetch_options test_config (just_method "GET"))].
Proof. reflexivity. Qed.

(** *** The characters of the query string *)

Import RequestNotions.

Lemma all_chars_app p (a b : string) :
  all_chars p (a ++ b) = all_chars p a && all_chars p b.
Proof.
  induction a as [| x a IH]; simpl; [reflexivity |]. now rewrite IH, andb_assoc.
Qed.

Lemma count_char_app c (a b : string) :
  count_char c (a ++ b) = (count_char c a + count_char c b)%nat.
Proof.
  induction a as [| x a IH]; simpl; [reflexivity |]. rewrite IH. lia.
Qed.

Lemma urlencode_byte_chars (x : ascii) :
  all_chars query_char (urlencode_byte x) = true
  /\ count_char equals_sign (urlencode_byte x) = 0%nat
  /\ count_char ampersand (urlencode_byte x) = 0%nat.
Proof.
  destruct x as [[] [] [] [] [] [] [] []]; vm_compute; auto.
Qed.

Lemma urlencode_chars (s : string) :
  all_chars query_char (urlencode s) = true
  /\ count_char equals_sign (urlencode s) = 0%nat
  /\ count_char ampersand (urlencode s) = 0%nat.
Proof.
  induction s as [| x s (IH1 & IH2 & IH3)]; simpl; [auto |].
  destruct (urlencode_byte_chars x) as (H1 & H2 & H3).
  rewrite all_chars_app, !count_char_app, H1, H2, H3, IH1, IH2, IH3. auto.
Qed.

Lemma query_pair_chars kv :
  all_chars query_char (query_pair kv) = true
  /\ count_char equals_sign (query_pair kv) = 1%nat
  /\ count_char ampersand (query_pair kv) = 0%nat.
Proof.
  unfold query_pair.
  destruct (urlencode_chars (fst kv)) as (H1 & H2 & H3).
  destruct (urlencode_chars (to_String (snd kv))) as (G1 & G2 & G3).
  rewrite !all_chars_app, !count_char_app, H1, H2, H3, G1, G2, G3. auto.
Qed.

Lemma joined_pairs_chars kv kept :
  let q := join "&" (map query_pair (kv :: kept)) in
  all_chars query_char q = true
  /\ count_char equals_sign q = S (List.length kept)
  /\ count_char ampersand q = List.length kept.
Proof.
  revert kv. induction kept as [| kv' kept IH]; intros kv.
  - destruct (query_pair_chars kv) as (H1 & H2 & H3). simpl. auto.
  - destruct (query_pair_chars kv) as (H1 & H2 & H3).
    destruct (IH kv') as (G1 & G2 & G3).
    change (join "&" (map query_pair (kv :: kv' :: kept)))
      with (query_pair kv ++ "&" ++ join "&" (map query_pair (kv' :: kept))).
    cbv zeta. rewrite !all_chars_app, !count_char_app, H1, H2, H3, G1, G2, G3.
    simpl. auto.
Qed.

(** The URL [get] requests is the endpoint alone when no parameter
    survives; otherwise it is the endpoint, a [?], and a query string made
    of letters, digits, [* - . _ + %] and the separators only, with exactly
    one [=] per surviving parameter and one [&] between two of them.  No
    key or value can add a parameter, a fragment or a space to the URL. *)
Theorem get_query_is_well_formed endpoint entries :
  let kept := filter survives entries in
  (kept = [] /\ build_url endpoint entries = endpoint)
  \/ (exists q,
        build_url endpoint entries = endpoint ++ "?" ++ q
        /\ all_chars query_char q = true
        /\ count_char equals_sign q = List.length kept
        /\ S (count_char ampersand q) = List.length kept).
Proof.
  intros kept. rewrite build_url_spec. unfold url_with_query, query_string.
  subst kept. destruct (filter survives entries) as [| kv kept]; [left; auto |].
  right. eexists. split; [reflexivity |].
  destruct (joined_pairs_chars kv kept) as (H1 & H2 & H3).
  cbv zeta in *. rewrite H1, H2, H3. auto.
Qed.

(* ================================================================== *)
(** ** Properties of the configuration store *)
(* ================================================================== *)

Lemma get_unfold (c : Config.Store) key :
  Config.get c key
  = if truthy_str (Config.env c ("EROLD_" ++ toUpperCase key))
    then Config.env c ("EROLD_" ++ toUpperCase key)
    else Config.stored c key.
Proof. reflexivity. Qed.

Lemma get_set_same c key value :
  truthy_str (Config.env c ("EROLD_" ++ toUpperCase (ConfigOps.setting_key key))) = false ->
  Config.get (ConfigOps.set c key value) (ConfigOps.setting_key key) = Some value.
Proof.
  unfold Config.get. cbn [ConfigOps.set Config.env Config.stored].
  intros ->. now rewrite String.eqb_refl.
Qed.

Lemma get_set_other c key value other :
  other <> key ->
  Config.get (ConfigOps.set c key value) (ConfigOps.setting_key other)
  = Config.get c (ConfigOps.setting_key other).
Proof.
  unfold Config.get. cbn [ConfigOps.set Config.env Config.stored].
  intros Hother.
  replace (ConfigOps.setting_key other =? ConfigOps.setting_key key)%string with false;
    [reflexivity |].
  destruct other, key; try reflexivity; contradiction.
Qed.

(** [set] then [get] on the settings that hold a string: the value
    written is the value read back, unless the environment variable
    [EROLD_<KEY>] is set, in which case [get] goes on answering with the
    environment and the write stays invisible; the other settings are not
    touched. *)
Theorem set_then_get c key value :
  let name := ConfigOps.setting_key key in
  (truthy_str (Config.env c ("EROLD_" ++ toUpperCase name)) = false ->
   Config.get (ConfigOps.set c key value) name = Some value)
  /\ (truthy_str (Config.env c ("EROLD_" ++ toUpperCase name)) = true ->
      Config.get (ConfigOps.set c key value) name
      = Config.env c ("EROLD_" ++ toUpperCase name))
  /\ (forall other,
        other <> key ->
        Config.get (ConfigOps.set c key value) (ConfigOps.setting_key other)
        = Config.get c (ConfigOps.setting_key other)).
Proof.
  intros name. subst name.
  split; [apply get_set_same | split; [| intros other; apply get_set_other]].
  unfold Config.get. cbn [ConfigOps.set Config.env Config.stored]. now intros ->.
Qed.

Lemma set_then_get_witness :
  Config.get (ConfigOps.set Samples.test_config ConfigOps.tenant_setting "acme") "tenant"
  = Some "acme"
  /\ Config.get (ConfigOps.set ConfigOps.ci_config ConfigOps.apiKey_setting "erold_new")
                "apiKey"
     = Some "erold_ci_key"
  /\ Config.get (ConfigOps.set Samples.test_config ConfigOps.tenant_setting "acme") "apiKey"
     = Some "erold_test_key".
Proof.
  split; [| split].
  - apply (proj1 (set_then_get Samples.test_config ConfigOps.tenant_setting "acme")).
    reflexivity.
  - apply (proj1 (proj2 (set_then_get ConfigOps.ci_config ConfigOps.apiKey_setting
                                      "erold_new"))).
    reflexivity.
  - apply (proj2 (proj2 (set_then_get Samples.test_config ConfigOps.tenant_setting "acme"))
                 ConfigOps.apiKey_setting).
    discriminate.
Defined.

(** [saveCredentials] with no environment overrides: the API key read back
    is the one saved and requests carry it; the tenant is the one saved
    when it is not empty, and the previous one is kept when it is empty or
    absent. *)
Theorem saveCredentials_then_getApiConfig c key tenant :
  Config.env c "EROLD_APIKEY" = None ->
  Config.env c "EROLD_TENANT" = None ->
  let c' := ConfigOps.saveCredentials c key tenant in
  Config.apiKey (Config.getApiConfig c') = Some key
  /\ Config.apiUrl (Config.getApiConfig c') = Config.apiUrl (Config.getApiConfig c)
  /\ (forall t, tenant = Some t -> t <> "" ->
                Config.tenant (Config.getApiConfig c') = Some t)
  /\ (tenant = None \/ tenant = Some "" ->
      Config.tenant (Config.getApiConfig c') = Config.tenant (Config.getApiConfig c))
  /\ (key <> "" ->
      forall net endpoint options url fo,
        In (EvFetch url fo) (snd (request c' net endpoint options)) ->
        opt_headers options = None ->
        lookup (fo_headers fo) "X-API-Key" = Some key).
Proof.
  intros Henv1 Henv2 c'. subst c'.
  assert (Hno1 : truthy_str (Config.env c ("EROLD_" ++ toUpperCase "apiKey")) = false)
    by (change ("EROLD_" ++ toUpperCase "apiKey") with "EROLD_APIKEY"; now rewrite Henv1).
  assert (Hno2 : truthy_str (Config.env c ("EROLD_" ++ toUpperCase "tenant")) = false)
    by (change ("EROLD_" ++ toUpperCase "tenant") with "EROLD_TENANT"; now rewrite Henv2).
  assert (Hsame : forall c0 setting value,
             truthy_str (Config.env c0 ("EROLD_" ++ toUpperCase (ConfigOps.setting_key setting)))
             = false ->
             forall name, name = ConfigOps.setting_key setting ->
                          Config.get (ConfigOps.set c0 setting value) name = Some value).
  { intros c0 setting value Hno name ->. now apply get_set_same. }
  assert (Hother : forall c0 setting value other,
             other <> setting ->
             forall name, name = ConfigOps.setting_key other ->
                          Config.get (ConfigOps.set c0 setting value) name
                          = Config.get c0 name).
  { intros c0 setting value other Hne name ->. now apply get_set_other. }
  assert (Hkey : Config.get (ConfigOps.saveCredentials c key tenant) "apiKey" = Some key).
  { unfold ConfigOps.saveCredentials. destruct (truthy_str tenant).
    - rewrite (Hother _ ConfigOps.tenant_setting _ ConfigOps.apiKey_setting)
        by (discriminate || reflexivity).
      now apply (Hsame c ConfigOps.apiKey_setting).
    - now apply (Hsame c ConfigOps.apiKey_setting). }
  split; [exact Hkey |]. split; [| split; [| split]].
  - change (Config.get (ConfigOps.saveCredentials c key tenant) "apiUrl"
            = Config.get c "apiUrl").
    unfold ConfigOps.saveCredentials. destruct (truthy_str tenant).
    + rewrite (Hother _ ConfigOps.tenant_setting _ ConfigOps.apiUrl_setting)
        by (discriminate || reflexivity).
      now apply (Hother c ConfigOps.apiKey_setting key ConfigOps.apiUrl_setting).
    + now apply (Hother c ConfigOps.apiKey_setting key ConfigOps.apiUrl_setting).
  - intros t -> Hne.
    change (Config.get (ConfigOps.saveCredentials c key (Some t)) "tenant" = Some t).
    unfold ConfigOps.saveCredentials. simpl truthy_str.
    apply String.eqb_neq in Hne. rewrite Hne. cbn [negb].
    now apply (Hsame _ ConfigOps.tenant_setting).
  - intros Habsent. apply truthy_str_false in Habsent.
    change (Config.get (ConfigOps.saveCredentials c key tenant) "tenant"
            = Config.get c "tenant").
    unfold ConfigOps.saveCredentials. rewrite Habsent.
    now apply (Hother c ConfigOps.apiKey_setting key ConfigOps.tenant_setting).
  - intros Hne net endpoint options url fo Hin Hnone.
    destruct (request_fetches _ _ _ _ _ _ Hin) as [_ ->].
    unfold fetch_options, build_headers. cbn [fo_headers].
    change (Config.apiKey (Config.getApiConfig (ConfigOps.saveCredentials c key tenant)))
      with (Config.get (ConfigOps.saveCredentials c key tenant) "apiKey").
    rewrite Hnone, Hkey. reflexivity.
Qed.

Lemma saveCredentials_witness :
  Config.apiKey (Config.getApiConfig
                   (ConfigOps.saveCredentials Samples.test_config "erold_new" (Some "")))
  = Some "erold_new"
  /\ Config.tenant (Config.getApiConfig
                      (ConfigOps.saveCredentials Samples.test_config "erold_new" (Some "")))
     = Some "test-tenant".
Proof.
  pose proof (saveCredentials_then_getApiConfig
                Samples.test_config "erold_new" (Some "") eq_refl eq_refl)
    as (Hkey & _ & _ & Hkept & _).
  split; [exact Hkey |]. rewrite Hkept; [reflexivity | now right].
Defined.

(** [clearCredentials], whatever the store answers for a deleted key as
    long as it is nothing or an empty string, and with no credentials in
    the environment: afterwards every request fails with the 401
    [ApiError] and every tenant-scoped facade call with the 400 one, in
    both cases without any [fetch]. *)
Theorem clearCredentials_logs_out deleted c net :
  (deleted "apiKey" = None \/ deleted "apiKey" = Some "") ->
  (deleted "tenant" = None \/ deleted "tenant" = Some "") ->
  truthy_str (Config.env c "EROLD_APIKEY") = false ->
  truthy_str (Config.env c "EROLD_TENANT") = false ->
  let c' := ConfigOps.clearCredentials deleted c in
  (forall endpoint options,
      request c' net endpoint options = (Thrown (ExApi not_authenticated), []))
  /\ (forall f, tenant_scoped f = true ->
                call c' net f = (Thrown (ExApi no_tenant), []))
  /\ ConfigOps.isConfigured c' = false.
Proof.
  intros Hkey Hten Henv1 Henv2 c'. subst c'.
  apply truthy_str_false in Hkey, Hten.
  assert (Hk : Config.get (ConfigOps.clearCredentials deleted c) "apiKey"
               = deleted "apiKey").
  { rewrite get_unfold.
    change (Config.env (ConfigOps.clearCredentials deleted c)) with (Config.env c).
    change ("EROLD_" ++ toUpperCase "apiKey") with "EROLD_APIKEY".
    now rewrite Henv1. }
  assert (Ht : Config.get (ConfigOps.clearCredentials deleted c) "tenant"
               = deleted "tenant").
  { rewrite get_unfold.
    change (Config.env (ConfigOps.clearCredentials deleted c)) with (Config.env c).
    change ("EROLD_" ++ toUpperCase "tenant") with "EROLD_TENANT".
    now rewrite Henv2. }
  split; [| split].
  - intros endpoint options. rewrite request_unfold. unfold authenticated.
    change (Config.apiKey (Config.getApiConfig (ConfigOps.clearCredentials deleted c)))
      with (Config.get (ConfigOps.clearCredentials deleted c) "apiKey").
    now rewrite Hk, Hkey.
  - intros f Hscoped. unfold call.
    assert (Hpath : getTenantPath (ConfigOps.clearCredentials deleted c)
                    = Throw (ExApi no_tenant)).
    { apply getTenantPath_without_tenant. now rewrite Ht. }
    destruct f; try discriminate Hscoped; simpl; now rewrite Hpath.
  - unfold ConfigOps.isConfigured. now rewrite Hk, Hkey.
Qed.

Lemma clearCredentials_witness :
  request (ConfigOps.clearCredentials ConfigOps.schema_default Samples.test_config)
          Samples.offline "/me" Samples.no_options
  = (Thrown (ExApi not_authenticated), []).
Proof.
  apply (proj1 (clearCredentials_logs_out
                  ConfigOps.schema_default Samples.test_config Samples.offline
                  (or_intror eq_refl) (or_intror eq_refl) eq_refl eq_refl)).
Defined.

(** Credentials that come from the environment survive
    [clearCredentials]: with [EROLD_APIKEY] set, requests after it still
    carry that key and are still sent. *)
Theorem clearCredentials_keeps_environment_key deleted c key :
  Config.env c "EROLD_APIKEY" = Some key -> key <> "" ->
  let c' := ConfigOps.clearCredentials deleted c in
  Config.apiKey (Config.getApiConfig c') = Some key
  /\ authenticated c' = true
  /\ (forall net endpoint options,
        exists rest,
          snd (request c' net endpoint options)
          = EvFetch (full_url c' endpoint) (fetch_options c' options) :: rest).
Proof.
  intros Henv Hne c'. subst c'. apply String.eqb_neq in Hne.
  assert (Hk : Config.apiKey (Config.getApiConfig (ConfigOps.clearCredentials deleted c))
               = Some key).
  { change (Config.get (ConfigOps.clearCredentials deleted c) "apiKey" = Some key).
    rewrite get_unfold.
    change (Config.env (ConfigOps.clearCredentials deleted c)) with (Config.env c).
    change ("EROLD_" ++ toUpperCase "apiKey") with "EROLD_APIKEY".
    rewrite Henv. simpl truthy_str. now rewrite Hne. }
  assert (Hauth : authenticated (ConfigOps.clearCredentials deleted c) = true).
  { unfold authenticated. rewrite Hk. simpl. now rewrite Hne. }
  split; [exact Hk |]. split; [exact Hauth |].
  intros net endpoint options. now apply request_first_fetch.
Qed.

Lemma clearCredentials_environment_witness :
  authenticated (ConfigOps.clearCredentials ConfigOps.schema_default ConfigOps.ci_config)
  = true.
Proof.
  refine (proj1 (proj2 (clearCredentials_keeps_environment_key
                          ConfigOps.schema_default ConfigOps.ci_config "erold_ci_key"
                          eq_refl _))).
  discriminate.
Defined.

(** When [isConfigured] holds, the key check of [request] passes: every
    request reaches [fetch], and the key it sends starts with [erold_]. *)
Theorem isConfigured_requests_are_sent c net endpoint options :
  ConfigOps.isConfigured c = true ->
  authenticated c = true
  /\ exists key rest,
       Config.apiKey (Config.getApiConfig c) = Some key
       /\ String.prefix "erold_" key = true
       /\ lookup (fo_headers (fetch_options c options)) "X-API-Key" <> None
       /\ snd (request c net endpoint options)
          = EvFetch (full_url c endpoint) (fetch_options c options) :: rest.
Proof.
  unfold ConfigOps.isConfigured. intros Hconf.
  apply andb_prop in Hconf as [Htruthy Hprefix].
  assert (Hauth : authenticated c = true) by exact Htruthy.
  split; [exact Hauth |].
  destruct (Config.get c "apiKey") as [key |] eqn:Hget; [| discriminate].
  destruct (request_first_fetch c net endpoint options Hauth) as [rest Htrace].
  exists key, rest. repeat split; try assumption.
  unfold fetch_options, build_headers. cbn [fo_headers].
  apply lookup_spread_present. discriminate.
Qed.

Lemma isConfigured_witness :
  ConfigOps.isConfigured Samples.test_config = true
  /\ authenticated Samples.test_config = true.
Proof.
  split; [reflexivity |].
  apply (proj1 (isConfigured_requests_are_sent
                  Samples.test_config Samples.offline "/me" Samples.no_options eq_refl)).
Defined.

(* ================================================================== *)
(** ** Properties of the format helpers *)
(* ================================================================== *)

Lemma length_append (a b : string) :
  String.length (a ++ b) = (String.length a + String.length b)%nat.
Proof. induction a as [| x a IH]; simpl; [reflexivity | now rewrite IH]. Qed.

Lemma length_substring0 (s : string) (n : nat) :
  String.length (String.substring 0 n s) = Nat.min n (String.length s).
Proof.
  revert n. induction s as [| x s IH]; intros [| n]; simpl; try reflexivity.
  now rewrite IH.
Qed.

Lemma substring0_prefix (s : string) (n : nat) :
  exists rest, s = String.substring 0 n s ++ rest.
Proof.
  revert n. induction s as [| x s IH]; intros [| n]; simpl; eauto.
  destruct (IH n) as [rest Hrest]. exists rest. now rewrite <- Hrest.
Qed.

(** [truncate] of a text that is not empty: a text that fits is
    returned as it is, and a longer one becomes its first [length - 3]
    characters followed by "...", which is exactly [length] characters
    long whenever [length] is at least 3.  Below 3 the result is the bare
    "...", longer than what was asked for. *)
Theorem truncate_bounds (s : string) (n : Z) :
  s <> "" ->
  let result := Output.truncate (Some s) (Some n) in
  (Z.of_nat (String.length s) <= n -> result = s)
  /\ (n < Z.of_nat (String.length s) ->
      exists kept rest,
        result = kept ++ "..." /\ s = kept ++ rest
        /\ Z.of_nat (String.length kept) = Z.max 0 (n - 3))
  /\ (3 <= n -> n < Z.of_nat (String.length s) -> Z.of_nat (String.length result) = n)
  /\ (3 <= n -> Z.of_nat (String.length result) <= n)
  /\ (n < 3 -> n < Z.of_nat (String.length s) -> result = "...").
Proof.
  intros Hne result. subst result. unfold Output.truncate, Output.substring0.
  assert (Hlen : forall k, (k <= String.length s)%nat ->
                           String.length (String.substring 0 k s) = k).
  { intros k Hk. rewrite length_substring0. lia. }
  apply String.eqb_neq in Hne. rewrite Hne.
  destruct (Z.gtb_spec (Z.of_nat (String.length s)) n) as [Hgt | Hle].
  - split; [lia |]. split; [| split; [| split]].
    + intros _. destruct (substring0_prefix s (Z.to_nat (n - 3))) as [rest Hrest].
      exists (String.substring 0 (Z.to_nat (n - 3)) s), rest.
      split; [reflexivity | split; [exact Hrest |]]. rewrite Hlen; lia.
    + intros Hn _. rewrite length_append, Hlen by lia. simpl. lia.
    + intros Hn. rewrite length_append, Hlen by lia. simpl. lia.
    + intros Hn _. replace (Z.to_nat (n - 3)) with 0%nat by lia.
      destruct s; reflexivity.
  - repeat split; intros; try reflexivity; lia.
Qed.

Lemma truncate_witness :
  Output.truncate (Some "this is a long string") (Some 10) = "this is" ++ "..."
  /\ Z.of_nat (String.length (Output.truncate (Some "this is a long string") (Some 10)))
     = 10.
Proof.
  split; [reflexivity |].
  refine (proj1 (proj2 (proj2 (truncate_bounds "this is a long string" 10 _))) _ _);
    [discriminate | lia | simpl; lia].
Defined.

(** [formatRelativeTime] in terms of the elapsed milliseconds: anything
    younger than a minute, dates in the future included, is "just now";
    then whole minutes up to 59, whole hours up to 23 and whole days up to
    6, each rounded down from the elapsed time itself; from seven days on
    the date is printed by [formatDate]. *)
Theorem formatRelativeTime_thresholds formatDate now then_ :
  let elapsed := now - then_ in
  let result := Output.formatRelativeTime formatDate now (Some then_) in
  (elapsed < 60000 -> result = "just now")
  /\ (60000 <= elapsed < 3600000 ->
      result = decimal (elapsed / 60000) ++ "m ago" /\ 1 <= elapsed / 60000 <= 59)
  /\ (3600000 <= elapsed < 86400000 ->
      result = decimal (elapsed / 3600000) ++ "h ago" /\ 1 <= elapsed / 3600000 <= 23)
  /\ (86400000 <= elapsed < 604800000 ->
      result = decimal (elapsed / 86400000) ++ "d ago" /\ 1 <= elapsed / 86400000 <= 6)
  /\ (604800000 <= elapsed -> result = formatDate then_).
Proof.
  intros elapsed result. subst result. unfold Output.formatRelativeTime.
  fold elapsed. generalize elapsed as d. clear elapsed. intros d.
  assert (Hh : d / 60000 / 60 = d / 3600000)
    by (rewrite Z.div_div by lia; reflexivity).
  assert (Hd : d / 60000 / 60 / 24 = d / 86400000)
    by (rewrite Hh, Z.div_div by lia; reflexivity).
  rewrite Hd, Hh.
  assert (Hm_lo : forall k, 0 < k -> forall b, b * k <= d <-> b <= d / k).
  { intros k Hk b. split; intros H.
    - apply Z.div_le_lower_bound; lia.
    - pose proof (Z.mul_div_le d k Hk). nia. }
  assert (Hm_hi : forall k, 0 < k -> forall b, d < b * k <-> d / k < b).
  { intros k Hk b. pose proof (Hm_lo k Hk b). lia. }
  assert (Hno : forall k b, 0 < k -> b * k <= d -> (d / k <? b) = false)
    by (intros k b Hk Hb; apply Z.ltb_ge; now apply (Hm_lo k Hk)).
  assert (Hyes : forall k b, 0 < k -> d < b * k -> (d / k <? b) = true)
    by (intros k b Hk Hb; apply Z.ltb_lt; now apply (Hm_hi k Hk)).
  split; [| split; [| split; [| split]]]; intros H.
  - rewrite (Hyes 60000 1) by lia. reflexivity.
  - rewrite (Hno 60000 1), (Hyes 60000 60) by lia.
    split; [reflexivity |].
    pose proof (proj1 (Hm_lo 60000 ltac:(lia) 1) ltac:(lia)).
    pose proof (proj1 (Hm_hi 60000 ltac:(lia) 60) ltac:(lia)). lia.
  - rewrite (Hno 60000 1), (Hno 60000 60), (Hyes 3600000 24) by lia.
    split; [reflexivity |].
    pose proof (proj1 (Hm_lo 3600000 ltac:(lia) 1) ltac:(lia)).
    pose proof (proj1 (Hm_hi 3600000 ltac:(lia) 24) ltac:(lia)). lia.
  - rewrite (Hno 60000 1), (Hno 60000 60), (Hno 3600000 24), (Hyes 86400000 7) by lia.
    split; [reflexivity |].
    pose proof (proj1 (Hm_lo 86400000 ltac:(lia) 1) ltac:(lia)).
    pose proof (proj1 (Hm_hi 86400000 ltac:(lia) 7) ltac:(lia)). lia.
  - rewrite (Hno 60000 1), (Hno 60000 60), (Hno 3600000 24), (Hno 86400000 7) by lia.
    reflexivity.
Qed.

Lemma formatRelativeTime_witness :
  Output.formatRelativeTime (fun _ => "1/15/2024") 1705314600000 (Some 1705307400000)
  = "2h ago".
Proof.
  refine (proj1 (proj1 (proj2 (proj2 (formatRelativeTime_thresholds
                                       (fun _ => "1/15/2024")
                                       1705314600000 1705307400000))) _)).
  lia.
Defined.

(* ================================================================== *)
(** ** Properties of the git helpers *)
(* ================================================================== *)

Import Git.

(** *** Counting changes *)

Lemma filter_disjoint_length {A} (p q : A -> bool) (l : list A) :
  (forall x, p x = true -> q x = false) ->
  (List.length (filter p l) + List.length (filter q l) <= List.length l)%nat.
Proof.
  intros Hdisjoint. induction l as [| x l IH]; simpl; [lia |].
  destruct (p x) eqn:Hp.
  - rewrite (Hdisjoint x Hp). simpl. lia.
  - destruct (q x); simpl; lia.
Qed.

Lemma untracked_line l :
  is_untracked l = true -> char_differs l 0 question_mark = false.
Proof.
  unfold is_untracked, char_differs. destruct l as [| a l]; [discriminate |].
  change (String.prefix "??" (String a l))
    with (if ascii_dec "?" a then String.prefix "?" l else false).
  destruct (ascii_dec "?" a) as [<- | _]; intros H; [reflexivity | discriminate H].
Qed.

(** The counts of [getChanges] are consistent: no line is counted both as
    untracked and as staged, or both as untracked and as unstaged, so
    staged plus untracked, and unstaged plus untracked, never exceed the
    total; and when [git status] fails, all four are zero. *)
Theorem getChanges_counts_are_consistent (status : Exec) :
  let ch := getChanges status in
  (staged ch + untracked ch <= total ch)%nat
  /\ (unstaged ch + untracked ch <= total ch)%nat
  /\ (forall e, status = Throw e ->
                ch = {| staged := 0; unstaged := 0; untracked := 0; total := 0 |}).
Proof.
  destruct status as [out | e]; simpl.
  - split; [| split; [| discriminate]].
    + rewrite Nat.add_comm. apply filter_disjoint_length.
      intros l Hun. unfold is_staged. rewrite (untracked_line l Hun).
      apply andb_false_r.
    + rewrite Nat.add_comm. apply filter_disjoint_length.
      intros l Hun. unfold is_unstaged. rewrite (untracked_line l Hun).
      apply andb_false_r.
  - repeat split; lia.
Qed.

(** *** A clean working directory *)

Lemma trimStart_head s :
  trimStart s = "" \/ exists a t, trimStart s = String a t /\ is_space a = false.
Proof.
  induction s as [| a s IH]; simpl; [auto |].
  destruct (is_space a) eqn:Ha; [exact IH | right; eauto].
Qed.

Lemma trimEnd_head a t :
  trimEnd (String a t) = "" \/ exists t', trimEnd (String a t) = String a t'.
Proof.
  simpl. destruct (trimEnd t).
  - destruct (is_space a); eauto.
  - eauto.
Qed.

Lemma trim_head s :
  trim s = "" \/ exists a t, trim s = String a t /\ is_space a = false.
Proof.
  unfold trim. destruct (trimStart_head s) as [-> | (a & t & -> & Ha)]; [auto |].
  destruct (trimEnd_head a t) as [-> | [t' ->]]; [auto | right; eauto].
Qed.

Lemma not_space_not_newline a : is_space a = false -> Ascii.eqb a newline = false.
Proof.
  destruct (Ascii.eqb_spec a newline) as [-> | _]; [discriminate | reflexivity].
Qed.

Lemma split_lines_head a t :
  Ascii.eqb a newline = false ->
  exists line rest, split_lines (String a t) = String a line :: rest.
Proof.
  intros Ha. simpl. rewrite Ha. destruct (split_lines t); eauto.
Qed.

(** [isWorkingDirClean] and [getChanges] agree on the same output of
    [git status]: the directory is clean exactly when the total number of
    changes is zero.  When [git status] fails they part: the directory is
    reported as not clean, with zero changes. *)
Theorem clean_iff_no_changes (out : string) :
  (isWorkingDirClean (Ok out) = true <-> total (getChanges (Ok out)) = 0%nat)
  /\ (forall e, isWorkingDirClean (Throw e) = false
                /\ total (getChanges (Throw e)) = 0%nat).
Proof.
  split; [| auto]. simpl.
  destruct (trim_head out) as [-> | (a & t & -> & Ha)].
  - simpl. tauto.
  - destruct (split_lines_head a t (not_space_not_newline a Ha)) as (line & rest & ->).
    simpl. split; discriminate.
Qed.

(** *** The first line of the status *)

Lemma trimEnd_keeps (a : ascii) (s : string) :
  trimEnd s <> "" -> trimEnd (String a s) = String a (trimEnd s).
Proof.
  intros Hne. simpl. destruct (trimEnd s); [contradiction | reflexivity].
Qed.

Lemma trimEnd_solid (p : string) :
  all_chars (fun a => negb (is_space a)) p = true -> trimEnd p = p.
Proof.
  induction p as [| a p IH]; simpl; [reflexivity |].
  intros Hall. apply andb_prop in Hall as [Ha Hp]. rewrite (IH Hp).
  destruct p; [| reflexivity]. apply negb_true_iff in Ha. now rewrite Ha.
Qed.

Lemma trimEnd_solid_newline (p : string) :
  p <> "" -> all_chars (fun a => negb (is_space a)) p = true ->
  trimEnd (p ++ String newline "") = p.
Proof.
  induction p as [| a p IH]; [contradiction |]. intros _ Hall.
  simpl in Hall. apply andb_prop in Hall as [Ha Hp].
  destruct p as [| b p].
  - simpl. apply negb_true_iff in Ha. now rewrite Ha.
  - change ((String a (String b p)) ++ String newline "")
      with (String a (String b p ++ String newline "")).
    rewrite trimEnd_keeps; rewrite IH; try assumption; try discriminate.
    reflexivity.
Qed.

Lemma split_lines_solid (p : string) :
  all_chars (fun a => negb (is_space a)) p = true -> split_lines p = [p].
Proof.
  induction p as [| a p IH]; simpl; [reflexivity |].
  intros Hall. apply andb_prop in Hall as [Ha Hp]. rewrite (IH Hp).
  apply negb_true_iff in Ha. now rewrite (not_space_not_newline a Ha).
Qed.

(** The status is trimmed before it is split into lines, so its first
    line loses the leading space that marks an unstaged change: when the
    only change is an unstaged modification of a file whose path has no
    white space, [getChanges] counts one staged change and no unstaged
    one. *)
Theorem lone_unstaged_change_counts_as_staged (path : string) :
  path <> "" ->
  all_chars (fun a => negb (is_space a)) path = true ->
  getChanges (Ok (" M " ++ path ++ String newline ""))
  = {| staged := 1; unstaged := 0; untracked := 0; total := 1 |}.
Proof.
  intros Hne Hall.
  assert (Htrim : trim (" M " ++ path ++ String newline "") = "M " ++ path).
  { unfold trim.
    change (trimStart (" M " ++ path ++ String newline ""))
      with (String "M" (String " " (path ++ String newline ""))).
    assert (Hpath : trimEnd (path ++ String newline "") = path)
      by now apply trimEnd_solid_newline.
    rewrite trimEnd_keeps; rewrite trimEnd_keeps; rewrite ?Hpath; try assumption;
      try discriminate.
    reflexivity. }
  unfold getChanges. rewrite Htrim.
  assert (Hlines : split_lines ("M " ++ path) = ["M " ++ path]).
  { change ("M " ++ path) with (String "M" (String " " path)).
    cbn [split_lines]. rewrite (split_lines_solid path Hall). reflexivity. }
  rewrite Hlines. reflexivity.
Qed.

Lemma lone_unstaged_witness :
  getChanges (Ok (" M " ++ "src/lib/api.js" ++ String newline ""))
  = {| staged := 1; unstaged := 0; untracked := 0; total := 1 |}.
Proof.
  apply (lone_unstaged_change_counts_as_staged "src/lib/api.js");
    [discriminate | reflexivity].
Defined.

(** *** Branch names *)

Lemma name_char_not_dash a : is_name_char a = true -> Ascii.eqb a dash = false.
Proof.
  destruct a as [[] [] [] [] [] [] [] []]; vm_compute; congruence.
Qed.

Lemma name_char_is_branch_char a : is_name_char a = true -> is_branch_char a = true.
Proof. unfold is_branch_char. now intros ->. Qed.

Lemma all_chars_cons p a s : all_chars p (String a s) = p a && all_chars p s.
Proof. reflexivity. Qed.

Lemma double_dash_cons a s :
  double_dash (String a s) = (Ascii.eqb a dash && starts_with_dash s) || double_dash s.
Proof.
  destruct s as [| b s]; [| reflexivity]. simpl. now rewrite andb_false_r.
Qed.

Lemma prefix_dash s : String.prefix "-" s = starts_with_dash s.
Proof.
  destruct s as [| a s]; [reflexivity |]. unfold starts_with_dash.
  change (String.prefix "-" (String a s))
    with (if ascii_dec "-" a then String.prefix "" s else false).
  destruct (ascii_dec "-" a) as [<- | Hne].
  - now destruct s.
  - symmetry. apply Ascii.eqb_neq. intros ->. now apply Hne.
Qed.

Lemma well_dashed_cons a s :
  is_branch_char a = true ->
  (Ascii.eqb a dash = true -> starts_with_dash s = false) ->
  well_dashed s -> well_dashed (String a s).
Proof.
  intros Ha Hhead [Hall Hdd]. split.
  - now rewrite all_chars_cons, Ha.
  - rewrite double_dash_cons, Hdd, orb_false_r.
    destruct (Ascii.eqb a dash); [now rewrite Hhead | reflexivity].
Qed.

Lemma well_dashed_tail a s :
  well_dashed (String a s) ->
  is_branch_char a = true
  /\ (Ascii.eqb a dash = true -> starts_with_dash s = false)
  /\ well_dashed s.
Proof.
  intros [Hall Hdd]. rewrite all_chars_cons in Hall. rewrite double_dash_cons in Hdd.
  apply andb_prop in Hall as [Ha Hall]. apply orb_false_elim in Hdd as [Hab Hdd].
  repeat split; try assumption. intros Hd. now rewrite Hd in Hab.
Qed.

Lemma replace_runs_safe s :
  forall in_run,
    well_dashed (replace_runs in_run s)
    /\ (in_run = true -> starts_with_dash (replace_runs in_run s) = false).
Proof.
  induction s as [| a s IH]; intros in_run; cbn [replace_runs].
  - split; [split; reflexivity | reflexivity].
  - destruct (is_name_char a) eqn:Ha.
    + destruct (IH false) as [Hwd _].
      pose proof (name_char_not_dash a Ha) as Hnd. split.
      * apply well_dashed_cons; [now apply name_char_is_branch_char | | exact Hwd].
        rewrite Hnd. discriminate.
      * intros _. exact Hnd.
    + destruct in_run; [exact (IH true) |].
      destruct (IH true) as [Hwd Hhead]. split; [| discriminate].
      apply well_dashed_cons; [reflexivity | auto | exact Hwd].
Qed.

Lemma drop_last_dash_head s :
  starts_with_dash s = false -> starts_with_dash (drop_last_dash s) = false.
Proof.
  destruct s as [| a s]; [reflexivity |]. intros Ha. simpl in Ha.
  destruct s as [| b s].
  - simpl. now rewrite Ha.
  - exact Ha.
Qed.

Lemma drop_last_dash_safe s : well_dashed s -> well_dashed (drop_last_dash s).
Proof.
  induction s as [| a s IH]; [auto |]. intros Hwd.
  destruct (well_dashed_tail a s Hwd) as (Ha & Hhead & Htail).
  destruct s as [| b s].
  - simpl. destruct (Ascii.eqb a dash); [split; reflexivity | exact Hwd].
  - change (drop_last_dash (String a (String b s)))
      with (String a (drop_last_dash (String b s))).
    apply well_dashed_cons; [exact Ha | | now apply IH].
    intros Hd. apply drop_last_dash_head. now apply Hhead.
Qed.

Lemma strip_dashes_safe s :
  well_dashed s ->
  well_dashed (strip_dashes s) /\ starts_with_dash (strip_dashes s) = false.
Proof.
  intros Hwd. destruct s as [| a s]; [split; [exact Hwd | reflexivity] |].
  destruct (well_dashed_tail a s Hwd) as (Ha & Hhead & Htail).
  unfold strip_dashes. destruct (Ascii.eqb a dash) eqn:Hd.
  - split; [now apply drop_last_dash_safe |].
    apply drop_last_dash_head. now apply Hhead.
  - split; [now apply drop_last_dash_safe |].
    apply drop_last_dash_head. exact Hd.
Qed.

Lemma substring0_head s n :
  starts_with_dash s = false -> starts_with_dash (String.substring 0 n s) = false.
Proof.
  destruct s as [| a s], n as [| n]; auto.
Qed.

Lemma substring0_safe s : forall n, well_dashed s -> well_dashed (String.substring 0 n s).
Proof.
  induction s as [| a s IH]; intros [| n] Hwd; try (split; reflexivity).
  destruct (well_dashed_tail a s Hwd) as (Ha & Hhead & Htail).
  change (String.substring 0 (S n) (String a s)) with (String a (String.substring 0 n s)).
  apply well_dashed_cons; [exact Ha | | now apply IH].
  intros Hd. apply substring0_head. now apply Hhead.
Qed.

(** The name [createTaskBranch] derives from a task title is safe to put
    in a branch name and on a command line: whatever the title, it is made
    of lower-case letters, digits and single dashes only, does not start
    with a dash and is at most 50 characters long.  The branch returned is
    the one that was checked out, [<prefix>/task-<id>-<name>], and without
    a title no command is run at all. *)
Theorem createTaskBranch_name_is_safe execSync taskId description prefix :
  let name := safeName description in
  let pre := match prefix with Some p => p | None => "feature" end in
  all_chars is_branch_char name = true
  /\ double_dash name = false
  /\ String.prefix "-" name = false
  /\ (String.length name <= 50)%nat
  /\ (forall branch commands,
        createTaskBranch execSync taskId (Some description) prefix
        = (Some branch, commands) ->
        branch = pre ++ "/task-" ++ taskId ++ "-" ++ name
        /\ commands = ["git checkout -b " ++ branch])
  /\ createTaskBranch execSync taskId None prefix = (None, []).
Proof.
  intros name pre. subst name pre. unfold safeName.
  destruct (replace_runs_safe (toLowerCase description) false) as [Hruns _].
  destruct (strip_dashes_safe _ Hruns) as [Hstrip Hhead].
  destruct (substring0_safe _ 50 Hstrip) as [Hall Hdd].
  split; [exact Hall |]. split; [exact Hdd |]. split; [| split; [| split]].
  - rewrite prefix_dash. now apply substring0_head.
  - rewrite length_substring0. lia.
  - intros branch commands Hcall. unfold createTaskBranch in Hcall.
    destruct (execSync _); [| discriminate].
    injection Hcall as <- <-. split; reflexivity.
  - reflexivity.
Qed.

Lemma createTaskBranch_witness :
  createTaskBranch (fun _ => Ok "") "123" (Some "Fix Authentication Bug") (Some "fix")
  = (Some "fix/task-123-fix-authentication-bug",
     ["git checkout -b fix/task-123-fix-authentication-bug"])
  /\ "fix/task-123-fix-authentication-bug"
     = "fix" ++ "/task-" ++ "123" ++ "-" ++ safeName "Fix Authentication Bug".
Proof.
  split; [reflexivity |].
  apply (proj1 (proj1 (proj2 (proj2 (proj2 (proj2
           (createTaskBranch_name_is_safe
              (fun _ => Ok "") "123" "Fix Authentication Bug" (Some "fix"))))))
               "fix/task-123-fix-authentication-bug"
               ["git checkout -b fix/task-123-fix-authentication-bug"]
               eq_refl)).
Defined.

(* ================================================================== *)
(** ** Properties of the patterns *)
(* ================================================================== *)

Import Pattern GitPatterns.

Lemma all_chars_snoc P t a :
  all_chars P (t ++ String a "") = all_chars P t && P a.
Proof. rewrite all_chars_app. simpl. now rewrite andb_true_r. Qed.

Lemma snoc_not_empty (t : string) a : t ++ String a "" <> "".
Proof. destruct t; discriminate. Qed.

Lemma agrees_push P b cur a :
  agrees P (Some b) cur -> P a = true -> agrees P (Some true) (push cur a).
Proof.
  destruct cur as [t |]; simpl; [| auto]. intros [Hall _] Ha. split.
  - now rewrite all_chars_snoc, Hall, Ha.
  - intros _. apply snoc_not_empty.
Qed.

(** The loop of a repetition hands to its continuation a group text that
    still agrees, and passes the result on. *)
Lemma plus_loop_sound P c k (Q : list string -> Prop) g' :
  (forall cur s r, k cur s = Some r -> agrees P g' cur -> Q r) ->
  forall s cur r,
    plus_loop c k cur s = Some r ->
    (forall a cur', c a = true ->
                    (agrees P g' cur' \/ cur' = cur) -> agrees P g' (push cur' a)) ->
    Q r.
Proof.
  intros Hk. induction s as [| a s IH]; intros cur r; simpl; [discriminate |].
  destruct (c a) eqn:Ha; [| discriminate]. intros Hloop Hstep.
  assert (Hcur : agrees P g' (push cur a)) by (apply Hstep; auto).
  destruct (plus_loop c k (push cur a) s) as [r' |] eqn:Hdeep.
  - injection Hloop as <-. apply (IH (push cur a) r' Hdeep).
    intros b cur' Hb [Hag | ->]; apply Hstep; auto.
  - now apply (Hk _ _ _ Hloop).
Qed.

(** Every capture of a match of a well-grouped pattern is good. *)
Lemma run_sound P atoms :
  forall g caps cur s r,
    well_grouped P g atoms -> agrees P g cur -> Forall (good P) caps ->
    run atoms caps cur s = Some r -> Forall (good P) r.
Proof.
  induction atoms as [| atom atoms IH]; intros g caps cur s r Hwg Hag Hcaps; simpl.
  - now intros [= <-].
  - destruct atom as [c | c | |]; simpl in Hwg.
    + destruct s as [| a s]; [discriminate |]. destruct (c a) eqn:Ha; [| discriminate].
      destruct g as [b |].
      * destruct Hwg as [Hincl Hrest]. apply (IH (Some true)); try assumption.
        apply (agrees_push P b); auto.
      * destruct cur; [contradiction |]. apply (IH None); assumption.
    + destruct g as [b |].
      * destruct Hwg as [Hincl Hrest]. intros Hloop.
        apply (plus_loop_sound P c (run atoms caps) (fun r => Forall (good P) r)
                               (Some true)) with (s := s) (cur := cur).
        -- intros cur' s' r' Hrun Hag'. now apply (IH (Some true) caps cur' s').
        -- exact Hloop.
        -- intros a cur' Ha [Hag' | ->].
           ++ apply (agrees_push P true); auto.
           ++ apply (agrees_push P b); auto.
      * destruct cur; [contradiction |]. intros Hloop.
        apply (plus_loop_sound P c (run atoms caps) (fun r => Forall (good P) r) None)
          with (s := s) (cur := None).
        -- intros cur' s' r' Hrun Hag'. now apply (IH None caps cur' s').
        -- exact Hloop.
        -- intros a cur' Ha [Hag' | ->]; [| exact I].
           destruct cur'; [contradiction | exact I].
    + destruct Hwg as [-> Hrest]. destruct cur; [contradiction |].
      apply (IH (Some false)); try assumption. split; [reflexivity | discriminate].
    + destruct Hwg as [-> Hrest]. destruct cur as [t |]; [| contradiction].
      destruct Hag as [Hall Hne]. apply (IH None); try assumption; [exact I |].
      apply Forall_app. split; [assumption |]. constructor; [| constructor].
      split; [exact Hall | now apply Hne].
Qed.

Lemma exec_sound P atoms s r :
  well_grouped P None atoms -> exec atoms s = Some r -> Forall (good P) r.
Proof.
  intros Hwg. induction s as [| a s IH]; simpl.
  - destruct (run atoms [] None "") as [r' |] eqn:Hrun; [| discriminate].
    intros [= <-]. now apply (run_sound P atoms None [] None "").
  - destruct (run atoms [] None (String a s)) as [r' |] eqn:Hrun; [| exact IH].
    intros [= <-]. now apply (run_sound P atoms None [] None (String a s)).
Qed.

Lemma all_chars_impl (P Q : ascii -> bool) s :
  (forall a, P a = true -> Q a = true) -> all_chars P s = true -> all_chars Q s = true.
Proof.
  intros Himpl. induction s as [| a s IH]; simpl; [reflexivity |].
  intros Hall. apply andb_prop in Hall as [Ha Hs]. now rewrite (Himpl a Ha), IH.
Qed.

Lemma first_capture_good P m id :
  Forall (good P) m -> first_capture (Some m) = Some id -> good P id.
Proof.
  destruct m as [| x m]; simpl; [discriminate |].
  intros Hall [= <-]. now inversion Hall.
Qed.

Lemma task_pattern_well_grouped : well_grouped digit None task_pattern.
Proof. simpl. repeat split; auto. Qed.

Lemma number_pattern_well_grouped : well_grouped digit None number_pattern.
Proof. simpl. repeat split; auto. Qed.

Lemma jira_pattern_well_grouped : well_grouped id_char None jira_pattern.
Proof.
  simpl. unfold id_char. repeat split; intros a Ha.
  - now rewrite Ha.
  - unfold char in Ha. now rewrite Ha, orb_true_r.
  - now rewrite Ha, orb_true_r.
Qed.

Lemma digit_is_id_char a : digit a = true -> id_char a = true.
Proof. unfold id_char. intros ->. now rewrite orb_true_r. Qed.

(** The id [extractTaskIdFromBranch] finds is never empty and is made of
    upper-case letters, digits and hyphens; it is made of digits alone
    unless it comes from the JIRA-style pattern, which is tried only when
    no [task-] or [task/] followed by digits occurs in the branch. *)
Theorem extracted_task_id_shape branch id :
  extractTaskIdFromBranch branch = Some id ->
  id <> ""
  /\ all_chars id_char id = true
  /\ (all_chars digit id = true
      \/ exists b, branch = Some b /\ exec task_pattern b = None
                   /\ exec jira_pattern b <> None).
Proof.
  unfold extractTaskIdFromBranch. destruct branch as [b |]; [| discriminate].
  destruct (b =? "")%string; [discriminate |].
  assert (Hdigits : forall t, good digit t ->
                              t <> "" /\ all_chars id_char t = true
                              /\ (all_chars digit t = true
                                  \/ exists b', Some b = Some b'
                                                /\ exec task_pattern b' = None
                                                /\ exec jira_pattern b' <> None)).
  { intros t [Hall Hne]. repeat split; auto.
    apply (all_chars_impl digit); [apply digit_is_id_char | exact Hall]. }
  destruct (exec task_pattern b) as [m |] eqn:Htask.
  - intros Hid. apply Hdigits.
    apply (first_capture_good digit m); [| exact Hid].
    apply (exec_sound digit task_pattern b); [apply task_pattern_well_grouped | exact Htask].
  - destruct (exec jira_pattern b) as [m |] eqn:Hjira.
    + intros Hid.
      destruct (first_capture_good id_char m id) as [Hall Hne]; [| exact Hid |].
      * apply (exec_sound id_char jira_pattern b);
          [apply jira_pattern_well_grouped | exact Hjira].
      * repeat split; auto. right. exists b. rewrite Hjira. repeat split; auto.
        discriminate.
    + destruct (exec number_pattern b) as [m |] eqn:Hnumber; [| discriminate].
      intros Hid. apply Hdigits.
      apply (first_capture_good digit m); [| exact Hid].
      apply (exec_sound digit number_pattern b);
        [apply number_pattern_well_grouped | exact Hnumber].
Qed.

Lemma extracted_task_id_witness :
  extractTaskIdFromBranch (Some "feature/PROJ-456-something") = Some "PROJ-456"
  /\ "PROJ-456" <> ""
  /\ all_chars id_char "PROJ-456" = true.
Proof.
  split; [reflexivity |].
  pose proof (extracted_task_id_shape (Some "feature/PROJ-456-something") "PROJ-456"
                                      eq_refl) as (Hne & Hall & _).
  split; assumption.
Defined.

(** *** Greedy repetition *)

Lemma push_all_push cur a t :
  push_all (push cur a) t = push_all cur (String a t).
Proof.
  destruct cur as [u |]; simpl; [| reflexivity]. now rewrite append_assoc.
Qed.

Lemma plus_loop_stops c k cur s : stops c s -> plus_loop c k cur s = None.
Proof.
  destruct s as [| a s]; simpl; [reflexivity |]. now intros ->.
Qed.

(** A repetition takes the whole run of its class when the rest of the
    pattern matches after it. *)
Lemma plus_loop_takes_all c k taken :
  forall cur rest r,
    taken <> "" -> all_chars c taken = true -> stops c rest ->
    k (push_all cur taken) rest = Some r ->
    plus_loop c k cur (taken ++ rest) = Some r.
Proof.
  induction taken as [| a taken IH]; intros cur rest r Hne Hall Hstops Hk;
    [contradiction |].
  simpl in Hall. apply andb_prop in Hall as [Ha Hall].
  change (String a taken ++ rest) with (String a (taken ++ rest)).
  cbn [plus_loop]. rewrite Ha. destruct taken as [| b taken].
  - simpl append. rewrite (plus_loop_stops c k _ rest Hstops).
    now destruct cur.
  - rewrite (IH (push cur a) rest r); [reflexivity | discriminate | exact Hall
                                       | exact Hstops |].
    now rewrite push_all_push.
Qed.

(** *** Remote URLs *)

Lemma remote_tail_matches owner repo rest caps :
  owner <> "" -> all_chars (none_of slash) owner = true ->
  repo <> "" -> all_chars (none_of2 slash dot) repo = true ->
  stops (none_of2 slash dot) rest ->
  run [Open; Plus (none_of slash); Close; One (char slash);
       Open; Plus (none_of2 slash dot); Close]
      caps None (owner ++ "/" ++ repo ++ rest)
  = Some (caps ++ [owner] ++ [repo])%list.
Proof.
  intros Hown Hown_chars Hrepo Hrepo_chars Hstops.
  cbn [run]. apply plus_loop_takes_all; try assumption; [reflexivity |].
  cbn [run push_all close append]. cbn [char]. cbn.
  change (plus_loop (none_of2 slash dot)
                    (run [Close] (caps ++ [owner])%list) (Some "") (repo ++ rest)
          = Some (caps ++ [owner] ++ [repo])%list).
  apply plus_loop_takes_all; try assumption.
  cbn. now rewrite <- app_assoc.
Qed.

Lemma exec_skip atoms a s :
  run atoms [] None (String a s) = None -> exec atoms (String a s) = exec atoms s.
Proof. intros Hrun. cbn [exec]. now rewrite Hrun. Qed.

Lemma exec_here atoms s r : run atoms [] None s = Some r -> exec atoms s = Some r.
Proof. intros Hrun. destruct s; cbn [exec]; now rewrite Hrun. Qed.

Lemma github_matches_here sep owner repo rest :
  sep = colon \/ sep = slash ->
  owner <> "" -> all_chars (none_of slash) owner = true ->
  repo <> "" -> all_chars (none_of2 slash dot) repo = true ->
  stops (none_of2 slash dot) rest ->
  run (remote_pattern "github.com") [] None
      ("github.com" ++ String sep (owner ++ "/" ++ repo ++ rest))
  = Some [owner; repo].
Proof.
  intros [-> | ->] Hown Hown_chars Hrepo Hrepo_chars Hstops;
    exact (remote_tail_matches owner repo rest [] Hown Hown_chars Hrepo Hrepo_chars Hstops).
Qed.

(** [parseRemoteUrl] gives back the owner and the repository of a GitHub
    remote, in its SSH and in its HTTPS form, for every owner without a
    slash and every repository name without a slash or a dot.  Whatever
    follows the name from its first dot or slash on is dropped: the [.git]
    suffix, but also the rest of a name such as [next.js]. *)
Theorem parseRemoteUrl_github owner repo rest :
  owner <> "" -> all_chars (none_of slash) owner = true ->
  repo <> "" -> all_chars (none_of2 slash dot) repo = true ->
  stops (none_of2 slash dot) rest ->
  parseRemoteUrl (Some ("git@github.com:" ++ owner ++ "/" ++ repo ++ rest))
  = Some (owner, repo)
  /\ parseRemoteUrl (Some ("https://github.com/" ++ owner ++ "/" ++ repo ++ rest))
     = Some (owner, repo).
Proof.
  intros Hown Hown_chars Hrepo Hrepo_chars Hstops.
  pose proof (github_matches_here colon owner repo rest (or_introl eq_refl)
                Hown Hown_chars Hrepo Hrepo_chars Hstops) as Hssh.
  pose proof (github_matches_here slash owner repo rest (or_intror eq_refl)
                Hown Hown_chars Hrepo Hrepo_chars Hstops) as Hhttps.
  unfold parseRemoteUrl. split.
  - cbn [append String.eqb Ascii.eqb Bool.eqb].
    rewrite !exec_skip by reflexivity.
    rewrite (exec_here (remote_pattern "github.com") _ [owner; repo]);
      [reflexivity | exact Hssh].
  - cbn [append String.eqb Ascii.eqb Bool.eqb].
    rewrite !exec_skip by reflexivity.
    rewrite (exec_here (remote_pattern "github.com") _ [owner; repo]);
      [reflexivity | exact Hhttps].
Qed.

Lemma parseRemoteUrl_github_witness :
  parseRemoteUrl (Some ("git@github.com:" ++ "vercel" ++ "/" ++ "next" ++ ".js.git"))
  = Some ("vercel", "next").
Proof.
  refine (proj1 (parseRemoteUrl_github "vercel" "next" ".js.git" _ eq_refl _ eq_refl
                                       eq_refl));
    discriminate.
Defined.

Lemma remote_pattern_well_grouped host :
  well_grouped (none_of slash) None (remote_pattern host).
Proof.
  unfold remote_pattern. induction host as [| a host IH]; [| exact IH].
  simpl. repeat split; auto.
  intros a Ha. unfold none_of2 in Ha. now apply andb_prop in Ha as [Ha _].
Qed.

(** Whatever the URL, the owner and the repository [parseRemoteUrl]
    returns are not empty and contain no slash. *)
Theorem parseRemoteUrl_parts url owner repo :
  parseRemoteUrl url = Some (owner, repo) ->
  owner <> "" /\ repo <> ""
  /\ all_chars (none_of slash) owner = true
  /\ all_chars (none_of slash) repo = true.
Proof.
  assert (Hparts : forall m,
             Forall (good (none_of slash)) m ->
             owner_repo (Some m) = Some (owner, repo) ->
             owner <> "" /\ repo <> ""
             /\ all_chars (none_of slash) owner = true
             /\ all_chars (none_of slash) repo = true).
  { intros [| x [| y m]] Hgood; simpl; try discriminate.
    intros [= <- <-]. inversion Hgood as [| ? ? [H1 H2] Hrest]; subst.
    inversion Hrest as [| ? ? [H3 H4] _]; subst. auto. }
  unfold parseRemoteUrl. destruct url as [u |]; [| discriminate].
  destruct (u =? "")%string; [discriminate |].
  destruct (exec (remote_pattern "github.com") u) as [m |] eqn:H1.
  - apply Hparts. exact (exec_sound _ _ _ _ (remote_pattern_well_grouped _) H1).
  - destruct (exec (remote_pattern "gitlab.com") u) as [m |] eqn:H2.
    + apply Hparts. exact (exec_sound _ _ _ _ (remote_pattern_well_grouped _) H2).
    + destruct (exec (remote_pattern "bitbucket.org") u) as [m |] eqn:H3;
        [| discriminate].
      apply Hparts. exact (exec_sound _ _ _ _ (remote_pattern_well_grouped _) H3).
Qed.

Lemma parseRemoteUrl_parts_witness :
  parseRemoteUrl (Some "git@bitbucket.org:team/app.git") = Some ("team", "app")
  /\ "team" <> "" /\ "app" <> "".
Proof.
  split; [reflexivity |].
  pose proof (parseRemoteUrl_parts (Some "git@bitbucket.org:team/app.git") "team" "app"
                                   eq_refl) as (H1 & H2 & _).
  split; assumption.
Defined.

(** *** From a task branch back to its task *)

Ltac settle_classes :=
  repeat (cbn [run plus_loop push append task_pattern]; cbv iota;
          first
            [ reflexivity
            | match goal with
              | H : digit ?a = false |- context [digit ?a] => rewrite H
              | |- context [char_i ?x ?a] =>
                  first [ is_var a; destruct (char_i x a)
                        | let v := eval vm_compute in (char_i x a) in
                          change (char_i x a) with v ]
              | |- context [either ?x ?y ?a] =>
                  first [ is_var a; destruct (either x y a)
                        | let v := eval vm_compute in (either x y a) in
                          change (either x y a) with v ]
              | |- context [digit ?a] =>
                  let v := eval vm_compute in (digit a) in change (digit a) with v
              end ]).

Lemma not_digit_head a w :
  all_chars not_digit (String a w) = true ->
  digit a = false /\ all_chars not_digit w = true.
Proof.
  simpl. intros Hall. apply andb_prop in Hall as [Ha Hw].
  split; [now apply negb_true_iff in Ha | exact Hw].
Qed.

(** The pattern [task[-/](\d+)] does not match at a position inside a
    prefix that has no digit. *)
Lemma task_pattern_not_in_prefix w rest :
  w <> "" -> all_chars not_digit w = true ->
  run task_pattern [] None (w ++ "/task-" ++ rest) = None.
Proof.
  intros Hne Hall.
  destruct w as [| a1 w]; [contradiction |].
  apply not_digit_head in Hall as [H1 Hall].
  destruct w as [| a2 w]; [settle_classes |].
  apply not_digit_head in Hall as [H2 Hall].
  destruct w as [| a3 w]; [settle_classes |].
  apply not_digit_head in Hall as [H3 Hall].
  destruct w as [| a4 w]; [settle_classes |].
  apply not_digit_head in Hall as [H4 Hall].
  destruct w as [| a5 w]; [settle_classes |].
  apply not_digit_head in Hall as [H5 Hall].
  destruct w as [| a6 w]; [settle_classes |].
  apply not_digit_head in Hall as [H6 Hall].
  settle_classes.
Qed.

Lemma task_pattern_after_prefix w id rest :
  all_chars not_digit w = true ->
  id <> "" -> all_chars digit id = true -> stops digit rest ->
  exec task_pattern (w ++ "/task-" ++ id ++ rest) = Some [id].
Proof.
  intros Hall Hid Hdigits Hstops. induction w as [| a w IH].
  - cbn [append]. rewrite exec_skip by reflexivity.
    apply exec_here.
    change (plus_loop digit (run [Close] []) (Some "") (id ++ rest) = Some [id]).
    now apply plus_loop_takes_all.
  - change (String a w ++ "/task-" ++ id ++ rest)
      with (String a (w ++ "/task-" ++ id ++ rest)).
    rewrite exec_skip.
    + apply IH. now apply not_digit_head in Hall as [_ Hall].
    + apply (task_pattern_not_in_prefix (String a w)); [discriminate | exact Hall].
Qed.

Lemma extract_after_prefix w id rest :
  all_chars not_digit w = true ->
  id <> "" -> all_chars digit id = true -> stops digit rest ->
  extractTaskIdFromBranch (Some (w ++ "/task-" ++ id ++ rest)) = Some id.
Proof.
  intros Hall Hid Hdigits Hstops. unfold extractTaskIdFromBranch.
  replace ((w ++ "/task-" ++ id ++ rest) =? "")%string with false by (now destruct w).
  now rewrite (task_pattern_after_prefix w id rest).
Qed.

(** The branch [createTaskBranch] makes for a numeric task id leads back
    to that task: [extractTaskIdFromBranch] finds the id in it, whatever
    the title, for every prefix without a digit (the default [feature]
    among them). *)
Theorem task_branch_round_trip execSync id description prefix branch commands :
  id <> "" -> all_chars digit id = true ->
  all_chars not_digit (match prefix with Some p => p | None => "feature" end) = true ->
  createTaskBranch execSync id (Some description) prefix = (Some branch, commands) ->
  extractTaskIdFromBranch (Some branch) = Some id.
Proof.
  intros Hid Hdigits Hprefix Hcall. unfold createTaskBranch in Hcall.
  destruct (execSync _); [| discriminate]. injection Hcall as <- _.
  exact (extract_after_prefix _ id ("-" ++ safeName description)
                              Hprefix Hid Hdigits eq_refl).
Qed.

Lemma task_branch_round_trip_witness :
  extractTaskIdFromBranch (Some "feature/task-123-fix-authentication-bug") = Some "123".
Proof.
  apply (task_branch_round_trip
           (fun _ => Ok "") "123" "Fix Authentication Bug" None
           "feature/task-123-fix-authentication-bug"
           ["git checkout -b feature/task-123-fix-authentication-bug"]);
    (discriminate || reflexivity).
Defined.

(* ================================================================== *)
(** ** Instances *)
(* ================================================================== *)

Lemma request_trace_witness :
  authenticated logged_out = false
  /\ snd (request logged_out offline "/test" no_options) = [].
Proof.
  assert (Hempty : snd (request logged_out offline "/test" no_options) = [])
    by reflexivity.
  split; [| exact Hempty].
  exact (proj1 (proj1 (request_trace_shapes logged_out offline "/test" no_options))
               Hempty).
Defined.

Lemma getChanges_witness :
  getChanges (Throw fetch_failed)
  = {| staged := 0; unstaged := 0; untracked := 0; total := 0 |}.
Proof.
  exact (proj2 (proj2 (getChanges_counts_are_consistent (Throw fetch_failed)))
               fetch_failed eq_refl).
Defined.

Lemma clean_witness :
  isWorkingDirClean (Ok (String newline "")) = true
  /\ total (getChanges (Ok (String newline ""))) = 0%nat.
Proof.
  split; [reflexivity |].
  exact (proj1 (proj1 (clean_iff_no_changes (String newline ""))) eq_refl).
Defined.

(** A value cannot add a parameter of its own to the query. *)
Example hostile_params_are_encoded :
  build_url "/search" hostile_params = "/search?q=a%26admin%3Dtrue&page+size=2".
Proof. reflexivity. Qed.
